(** * zimmarkets-backend: the auction and bidding subsystem

    A shallow embedding of the bidding code of
    [src/auctions/auctions.service.ts] and [src/listings/listings.service.ts],
    together with the properties of the auction engine.

    Conventions of the embedding.
    - The remote store (tables auctions, bids and listings) is a record of
      row lists; the rows that the two services write to [bids] have
      different columns and are kept in two lists.  Every service method is
      a function from a store to a store and a result.  A query
      [.eq('id', x).single()] yields a row exactly when one row matches.
    - A store call can fail on its own.  Each service method takes a
      [Faults] argument telling, for each of its call sites (numbered in
      program order from 0), whether that call comes back with an error.
    - An amount of a row or of a request is the rational ([Q]) that the
      store or the request carries.  The code computes with JavaScript
      numbers, IEEE 754 doubles: [number q] is the double nearest to [q],
      products and sums are rounded to the nearest double, and comparisons
      are those of the doubles ([Number], [round64]).  A row written from a
      request carries the amount of the request: the decimal that the
      double of the request prints back to.
    - Instants ([Date], ISO strings) are integers, milliseconds since the
      epoch; a stored instant is a valid [Date].  [additionalMinutes] is
      any number, and the [Date] that [extendAuction] computes is invalid
      outside the range of [Date].
    - [new Date()] is the argument [now]; [uuidv4()] is the argument that
      carries the fresh identifier.
    - An asynchronous method can be interleaved with others at each [await].
      [placeBid] is therefore also given phase by phase (read and validate,
      insert the bid, update the auction), and [exec] runs a schedule of
      such phases. *)

From Stdlib Require Import ZArith QArith Qminmax List String Bool Lia Lqa.
From Stdlib Require Import Qround Qabs Qpower Permutation.
Import ListNotations.

(** ** Data model *)

Definition Id := string.
Definition Time := Z.
Bind Scope string_scope with Id.
Bind Scope Z_scope with Time.

(** Row of table [auctions] (entity [Auction]).  [a_reserve_price] is the
    [reserve_price] of [CreateAuctionDto] and [UpdateAuctionDto]; no service
    method reads or writes it. *)
Record AuctionRow := mkAuction {
  a_id : Id;
  a_listing_id : Id;
  a_auction_end : Time;
  a_starting_price : Q;
  a_current_bid : option Q;
  a_bid_count : option Z;
  a_winning_bidder_id : option Id;
  a_reserve_price : option Q;
  a_status : string;
  a_updated_at : Time
}.

(** Row of table [bids] as written by [AuctionsService] (entity [Bid]). *)
Record BidRow := mkBid {
  b_id : Id;
  b_auction_id : Id;
  b_bidder_id : Id;
  b_bid_amount : Q;
  b_bid_currency : string;
  b_bid_time : Time;
  b_is_winning : bool
}.

(** Row of table [listings], the columns the bidding code touches. *)
Record ListingRow := mkListing {
  l_id : Id;
  l_seller_id : Id;
  l_listing_type : string;
  l_auction_end : option Time;
  l_price_amount : Q;
  l_status : string;
  l_updated_at : Time
}.

(** Row of table [bids] as written by [ListingsService.placeBid]
    (entity [Bid] of the listings module: [listing_id], [amount]). *)
Record ListingBidRow := mkListingBid {
  lb_listing_id : Id;
  lb_bidder_id : Id;
  lb_amount : Q;
  lb_status : string;
  lb_created_at : Time
}.

Record DB := mkDB {
  auctions : list AuctionRow;
  bids : list BidRow;
  listings : list ListingRow;
  listing_bids : list ListingBidRow
}.

Definition empty_db : DB := mkDB [] [] [] [].

(** Failure of the store, per call site of a method. *)
Definition Faults := nat -> bool.
Definition no_faults : Faults := fun _ => false.

(** ** Numbers

    A JavaScript number is an IEEE 754 binary64 value.  The amounts of the
    rows and of the requests are rationals: the decimal that the store or
    the request carries.  The number that the code computes with is the
    double nearest to it, [number q]; products and sums of numbers are
    rounded to the nearest double, ties to the even mantissa, and
    comparisons are those of the doubles. *)
Inductive Number :=
| Finite (q : Q)
| PlusInfinity
| MinusInfinity
| NaN.

(** The integer nearest to [q], the even one on a tie. *)
Definition round_half_even (q : Q) : Z :=
  let f := Qfloor q in
  match Qcompare (q - inject_Z f) (1 # 2) with
  | Lt => f
  | Gt => (f + 1)%Z
  | Eq => if Z.even f then f else (f + 1)%Z
  end.

(** [floor (log2 q)], for [0 < q]. *)
Definition ilog2 (q : Q) : Z :=
  let k := (Z.log2 (Qnum q) - Z.log2 (Zpos (Qden q)))%Z in
  if Qle_bool (2 ^ k) q then k else (k - 1)%Z.

(** The exponent of the last place of the doubles around [a]: 53 bits of
    mantissa, and no exponent below that of the subnormal numbers. *)
Definition exponent64 (a : Q) : Z := Z.max (ilog2 a - 52) (-1074).

(** [a], for [0 < a], rounded to a multiple of its last place. *)
Definition magnitude64 (a : Q) : Q :=
  inject_Z (round_half_even (a / 2 ^ exponent64 a)) * 2 ^ exponent64 a.

(** The double nearest to [q]; what rounds to [2^1024] or more is
    infinite. *)
Definition round64 (q : Q) : Number :=
  if Qeq_bool q 0 then Finite 0
  else if Qle_bool 0 q then
    if Qle_bool (2 ^ 1024) (magnitude64 q) then PlusInfinity
    else Finite (Qred (magnitude64 q))
  else
    if Qle_bool (2 ^ 1024) (magnitude64 (- q)) then MinusInfinity
    else Finite (Qred (- magnitude64 (- q))).

(** The number for the decimal [q]. *)
Definition number (q : Q) : Number := round64 q.

Definition sign64 (x : Number) : comparison :=
  match x with
  | Finite q => Qcompare q 0
  | PlusInfinity => Gt
  | MinusInfinity => Lt
  | NaN => Eq
  end.

(** [x * y] *)
Definition times64 (x y : Number) : Number :=
  match x, y with
  | NaN, _ | _, NaN => NaN
  | Finite a, Finite b => round64 (a * b)
  | _, _ =>
      match sign64 x, sign64 y with
      | Eq, _ | _, Eq => NaN
      | Gt, Gt | Lt, Lt => PlusInfinity
      | _, _ => MinusInfinity
      end
  end.

(** [x + y] *)
Definition plus64 (x y : Number) : Number :=
  match x, y with
  | NaN, _ | _, NaN => NaN
  | Finite a, Finite b => round64 (a + b)
  | PlusInfinity, MinusInfinity | MinusInfinity, PlusInfinity => NaN
  | PlusInfinity, _ | _, PlusInfinity => PlusInfinity
  | MinusInfinity, _ | _, MinusInfinity => MinusInfinity
  end.

(** [Math.max(x, y)] *)
Definition Math_max (x y : Number) : Number :=
  match x, y with
  | NaN, _ | _, NaN => NaN
  | PlusInfinity, _ | _, PlusInfinity => PlusInfinity
  | MinusInfinity, z | z, MinusInfinity => z
  | Finite a, Finite b => Finite (Qmax a b)
  end.

(** [x <= y] and [x < y]; both are false when a side is [NaN]. *)
Definition le64 (x y : Number) : bool :=
  match x, y with
  | NaN, _ | _, NaN => false
  | MinusInfinity, _ | _, PlusInfinity => true
  | Finite a, Finite b => Qle_bool a b
  | _, _ => false
  end.

Definition lt64 (x y : Number) : bool :=
  match x, y with
  | NaN, _ | _, NaN => false
  | Finite a, Finite b => negb (Qle_bool b a)
  | MinusInfinity, MinusInfinity | PlusInfinity, _ | _, MinusInfinity => false
  | _, _ => true
  end.

(** What [x.toFixed(2)] shows: the sign and the number of hundredths
    nearest to [x], the greater on a tie; a number that is not finite, or
    is [10^21] or more in magnitude, is not written with two decimals. *)
Inductive Shown :=
| Fixed2 (minus : bool) (hundredths : Z)
| NotFixed.

Definition toFixed2 (x : Number) : Shown :=
  match x with
  | Finite q =>
      if Qle_bool (10 ^ 21) (Qabs q) then NotFixed
      else Fixed2 (negb (Qle_bool 0 q)) (Qfloor (Qabs q * 100 + (1 # 2)))
  | _ => NotFixed
  end.

(** [new Date(t)], for a time value [t] in milliseconds: none (an Invalid
    Date) when [t] is not finite or beyond 8.64e15 in magnitude, and
    otherwise [t] without its fraction. *)
Definition TimeClip (t : Number) : option Time :=
  match t with
  | Finite q =>
      if Qle_bool (Qabs q) 8640000000000000 then
        Some (if Qle_bool 0 q then Qfloor q else Qceiling q)
      else None
  | _ => None
  end.

(** What the amount checks of the two [placeBid] put in their message. *)
Inductive BidMessage :=
| MustBeHigherThan (currentBid : Shown)
  (* `Bid must be higher than current bid ($${currentBid.toFixed(2)})` *)
| MustIncreaseBy (minIncrement : Shown)
  (* `Bid must increase by at least $${minIncrement.toFixed(2)}` *)
| MustBeHigherThanPrice (currentPrice : Q)
  (* `Bid amount must be higher than current price ($${currentPrice})` *).

(** What follows 'Failed to place bid: ' in the message. *)
Inductive PlaceBidCause :=
| UpdateAuctionFailed   (* 'Failed to update auction: ...' *)
| BidIsNull             (* TypeError: [bid.id] read on a null [bid] *)
| InsertBidFailed       (* [bidError.message], in [ListingsService] *).

(** The exceptions of the bidding code, one constructor per message; the
    first five carry the names the specification gives to them. *)
Inductive Error :=
| AuctionNotFound            (* NotFoundException 'Auction not found' *)
| AuctionNotActive           (* 'Auction is not active' *)
| AuctionExpired             (* 'Auction has ended' *)
| SelfBidNotAllowed          (* 'You cannot bid on your own auction' *)
| BidTooLow (m : BidMessage)
| FailedToPlaceBid (c : PlaceBidCause)   (* `Failed to place bid: ...` *)
| FailedToEndAuction         (* `Failed to end auction: ...` *)
| OnlyActiveCanBeExtended    (* 'Only active auctions can be extended' *)
| ExtensionTooLong (maxExtension : Z)
  (* `Cannot extend auction by more than ${maxExtension} minutes (24 hours)` *)
| FailedToExtendAuction      (* `Failed to extend auction: ...` *)
| InvalidTimeValue           (* RangeError of [toISOString()] *)
| CannotCancelWithBids       (* 'Cannot cancel auction with existing bids' *)
| FailedToCancelAuction      (* `Failed to cancel auction: ...` *)
| ListingNotFound            (* NotFoundException 'Listing not found' *)
| NotAnAuction               (* 'This listing is not an auction' *)
| FailedToCreateListing      (* `Failed to create listing: ...` *)
| AuctionEndRequired         (* 'auction_end is required for auction listings' *)
| FailedToCreateAuction      (* `Failed to create auction record: ...` *).

Inductive Result (A : Type) : Type :=
| Ok (a : A)
| Err (e : Error).

Arguments Ok {A} a.
Arguments Err {A} e.

Definition is_ok {A} (r : Result A) : bool :=
  match r with Ok _ => true | Err _ => false end.

(** ** The store *)

(** [.single()]: the row when exactly one row is selected, an error (null
    data) otherwise. *)
Definition single {A} (rows : list A) : option A :=
  match rows with
  | [r] => Some r
  | _ => None
  end.

Definition select_auctions (db : DB) (id : Id) : list AuctionRow :=
  filter (fun a => String.eqb (a_id a) id) (auctions db).

Definition select_listings (db : DB) (id : Id) : list ListingRow :=
  filter (fun l => String.eqb (l_id l) id) (listings db).

(** [.from('bids').eq('auction_id', id)], in table order. *)
Definition bids_of (db : DB) (auctionId : Id) : list BidRow :=
  filter (fun b => String.eqb (b_auction_id b) auctionId) (bids db).

Definition listing_bids_of (db : DB) (listingId : Id) : list ListingBidRow :=
  filter (fun b => String.eqb (lb_listing_id b) listingId) (listing_bids db).

(** [.update(f).eq('id', id)] on each table. *)
Definition update_auctions (db : DB) (id : Id) (f : AuctionRow -> AuctionRow) : DB :=
  mkDB (map (fun a => if String.eqb (a_id a) id then f a else a) (auctions db))
       (bids db) (listings db) (listing_bids db).

Definition update_bids (db : DB) (id : Id) (f : BidRow -> BidRow) : DB :=
  mkDB (auctions db)
       (map (fun b => if String.eqb (b_id b) id then f b else b) (bids db))
       (listings db) (listing_bids db).

Definition update_listings (db : DB) (id : Id) (f : ListingRow -> ListingRow) : DB :=
  mkDB (auctions db) (bids db)
       (map (fun l => if String.eqb (l_id l) id then f l else l) (listings db))
       (listing_bids db).

Definition insert_auction (db : DB) (a : AuctionRow) : DB :=
  mkDB (auctions db ++ [a]) (bids db) (listings db) (listing_bids db).

Definition insert_bid (db : DB) (b : BidRow) : DB :=
  mkDB (auctions db) (bids db ++ [b]) (listings db) (listing_bids db).

Definition insert_listing (db : DB) (l : ListingRow) : DB :=
  mkDB (auctions db) (bids db) (listings db ++ [l]) (listing_bids db).

Definition insert_listing_bid (db : DB) (b : ListingBidRow) : DB :=
  mkDB (auctions db) (bids db) (listings db) (listing_bids db ++ [b]).

Definition delete_listings (db : DB) (id : Id) : DB :=
  mkDB (auctions db) (bids db)
       (filter (fun l => negb (String.eqb (l_id l) id)) (listings db))
       (listing_bids db).

(** [.order(col, { ascending: false }).limit(1).single()]: a row of
    greatest amount, none when there is no row.  Among rows of equal amount
    the store may return any; the model takes the first in table order. *)
Fixpoint top_by {A} (key : A -> Q) (rows : list A) : option A :=
  match rows with
  | [] => None
  | r :: rest =>
      match top_by key rest with
      | Some r' => if Qle_bool (key r') (key r) then Some r else Some r'
      | None => Some r
      end
  end.

(** JavaScript [x || d] on a nullable number: [d] when [x] is null or 0. *)
Definition or_else (x : option Q) (d : Q) : Q :=
  match x with
  | Some v => if Qeq_bool v 0 then d else v
  | None => d
  end.

Definition or_else_Z (x : option Z) (d : Z) : Z :=
  match x with
  | Some v => if Z.eqb v 0 then d else v
  | None => d
  end.

(** Field updates written by the services. *)
Definition set_bid_state (cb : Q) (cnt : Z) (now : Time) (a : AuctionRow) : AuctionRow :=
  mkAuction (a_id a) (a_listing_id a) (a_auction_end a) (a_starting_price a)
            (Some cb) (Some cnt) (a_winning_bidder_id a) (a_reserve_price a)
            (a_status a) now.

Definition set_status (st : string) (now : Time) (a : AuctionRow) : AuctionRow :=
  mkAuction (a_id a) (a_listing_id a) (a_auction_end a) (a_starting_price a)
            (a_current_bid a) (a_bid_count a) (a_winning_bidder_id a)
            (a_reserve_price a) st now.

Definition set_winner (w : Id) (a : AuctionRow) : AuctionRow :=
  mkAuction (a_id a) (a_listing_id a) (a_auction_end a) (a_starting_price a)
            (a_current_bid a) (a_bid_count a) (Some w) (a_reserve_price a)
            (a_status a) (a_updated_at a).

Definition set_auction_end (e : Time) (now : Time) (a : AuctionRow) : AuctionRow :=
  mkAuction (a_id a) (a_listing_id a) e (a_starting_price a)
            (a_current_bid a) (a_bid_count a) (a_winning_bidder_id a)
            (a_reserve_price a) (a_status a) now.

Definition set_is_winning (b : BidRow) : BidRow :=
  mkBid (b_id b) (b_auction_id b) (b_bidder_id b) (b_bid_amount b)
        (b_bid_currency b) (b_bid_time b) true.

Definition set_listing_status (st : string) (l : ListingRow) : ListingRow :=
  mkListing (l_id l) (l_seller_id l) (l_listing_type l) (l_auction_end l)
            (l_price_amount l) st (l_updated_at l).

Definition set_listing_status_at (st : string) (now : Time) (l : ListingRow) : ListingRow :=
  mkListing (l_id l) (l_seller_id l) (l_listing_type l) (l_auction_end l)
            (l_price_amount l) st now.

Definition set_listing_price (p : Q) (now : Time) (l : ListingRow) : ListingRow :=
  mkListing (l_id l) (l_seller_id l) (l_listing_type l) (l_auction_end l)
            p (l_status l) now.

(** ** [AuctionsService] *)

Module AuctionsService.

(** What [placeBid] reads: the auction row and its joined listing. *)
Definition Snapshot := (AuctionRow * option ListingRow)%type.

(** [placeBid], call site 0: the auction with [listing:listings (seller_id)];
    [Array.isArray(auction.listing) ? auction.listing[0] : auction.listing]. *)
Definition placeBid_read (fl : Faults) (db : DB) (auctionId : Id) : option Snapshot :=
  if fl 0%nat then None
  else match single (select_auctions db auctionId) with
       | Some auction =>
           Some (auction, hd_error (select_listings db (a_listing_id auction)))
       | None => None
       end.

Definition currentBid_of (auction : AuctionRow) : Q :=
  or_else (a_current_bid auction) (a_starting_price auction).

Definition minIncrement_of (currentBid : Q) : Number :=
  Math_max (times64 (number currentBid) (number (5 # 100))) (number 1).

(** [currentBid + minIncrement], the sum that the bid is compared with. *)
Definition leastBid_of (currentBid : Q) : Number :=
  plus64 (number currentBid) (minIncrement_of currentBid).

(** The checks of [placeBid] between the read and the [try] block; [None]
    when the bid is admitted. *)
Definition placeBid_validate (now : Time) (s : Snapshot) (bidderId : Id)
    (bidAmount : Q) : option Error :=
  let (auction, listing) := s in
  if negb (String.eqb (a_status auction) "active") then Some AuctionNotActive
  else if (a_auction_end auction <? now)%Z then Some AuctionExpired
  else if match listing with
          | Some l => String.eqb (l_seller_id l) bidderId
          | None => false
          end then Some SelfBidNotAllowed
  else
    let currentBid := currentBid_of auction in
    let minIncrement := minIncrement_of currentBid in
    if le64 (number bidAmount) (number currentBid) then
      Some (BidTooLow (MustBeHigherThan (toFixed2 (number currentBid))))
    else if lt64 (number bidAmount) (plus64 (number currentBid) minIncrement) then
      Some (BidTooLow (MustIncreaseBy (toFixed2 minIncrement)))
    else None.

(** Call site 1: the insert into [bids]; [bid] is null when it fails. *)
Definition placeBid_insert (fl : Faults) (now : Time) (bidId : Id) (db : DB)
    (auctionId bidderId : Id) (bidAmount : Q) (currency : string)
  : DB * option BidRow :=
  if fl 1%nat then (db, None)
  else
    let bid := mkBid bidId auctionId bidderId bidAmount
                     (if String.eqb currency "" then "USD" else currency)
                     now false in
    (insert_bid db bid, Some bid).

(** Call site 2: the update of the auction from the values read at site 0;
    the boolean tells whether the update went through. *)
Definition placeBid_update (fl : Faults) (now : Time) (db : DB) (auctionId : Id)
    (bidAmount : Q) (auction : AuctionRow) : DB * bool :=
  let currentBidCount := or_else_Z (a_bid_count auction) 0 in
  if fl 2%nat then (db, false)
  else (update_auctions db auctionId
          (set_bid_state bidAmount (currentBidCount + 1) now), true).

(** The [return] of the [try] block: reading [bid.id] throws on a null
    [bid], and the [catch] rethrows. *)
Definition placeBid_return (bid : option BidRow) : Result BidRow :=
  match bid with
  | Some b => Ok b
  | None => Err (FailedToPlaceBid BidIsNull)
  end.

Definition placeBid (fl : Faults) (now : Time) (bidId : Id) (db : DB)
    (auctionId bidderId : Id) (bidAmount : Q) (currency : string)
  : DB * Result BidRow :=
  match placeBid_read fl db auctionId with
  | None => (db, Err AuctionNotFound)
  | Some s =>
      match placeBid_validate now s bidderId bidAmount with
      | Some e => (db, Err e)
      | None =>
          let (db1, bid) :=
            placeBid_insert fl now bidId db auctionId bidderId bidAmount currency in
          let (db2, updated) :=
            placeBid_update fl now db1 auctionId bidAmount (fst s) in
          if updated then (db2, placeBid_return bid)
          else (db2, Err (FailedToPlaceBid UpdateAuctionFailed))
      end
  end.

(** [endAuction].  Call sites: 0 the highest bid, 1 the [is_winning] update,
    2 the read of [listing_id], 3 the listing update, 4 the auction update
    with [.select().single()] (no row is written unless exactly one
    matches). *)
Definition endAuction_updateData (highestBid : option BidRow) (now : Time)
    (a : AuctionRow) : AuctionRow :=
  match highestBid with
  | Some hb => set_winner (b_bidder_id hb) (set_status "ended" now a)
  | None => set_status "ended" now a
  end.

Definition endAuction (fl : Faults) (now : Time) (db : DB) (auctionId : Id)
  : DB * Result AuctionRow :=
  let highestBid :=
    if fl 0%nat then None else top_by b_bid_amount (bids_of db auctionId) in
  let db1 :=
    match highestBid with
    | Some hb =>
        let dbw := if fl 1%nat then db else update_bids db (b_id hb) set_is_winning in
        match (if fl 2%nat then None else single (select_auctions dbw auctionId)) with
        | Some auction =>
            if fl 3%nat then dbw
            else update_listings dbw (a_listing_id auction) (set_listing_status "sold")
        | None => dbw
        end
    | None => db
    end in
  if fl 4%nat then (db1, Err FailedToEndAuction)
  else match single (select_auctions db1 auctionId) with
       | Some auction =>
           (update_auctions db1 auctionId (endAuction_updateData highestBid now),
            Ok (endAuction_updateData highestBid now auction))
       | None => (db1, Err FailedToEndAuction)
       end.

(** [currentEnd.getTime() + additionalMinutes * 60000]. *)
Definition newEndTime_of (currentEnd : Time) (additionalMinutes : Number) : Number :=
  plus64 (Finite (inject_Z currentEnd))
         (times64 additionalMinutes (Finite 60000)).

(** [extendAuction].  Call sites: 0 the read, 1 the update.
    [additionalMinutes] is any number; [newEndTime.toISOString()] throws a
    RangeError, before the update is issued, when [newEndTime] is an
    Invalid Date. *)
Definition extendAuction (fl : Faults) (now : Time) (db : DB) (auctionId : Id)
    (additionalMinutes : Number) : DB * Result AuctionRow :=
  match (if fl 0%nat then None else single (select_auctions db auctionId)) with
  | None => (db, Err AuctionNotFound)
  | Some auction =>
      if negb (String.eqb (a_status auction) "active") then
        (db, Err OnlyActiveCanBeExtended)
      else
        let maxExtension := (24 * 60)%Z in
        if lt64 (Finite (inject_Z maxExtension)) additionalMinutes then
          (db, Err (ExtensionTooLong maxExtension))
        else
          let currentEnd := a_auction_end auction in
          match TimeClip (newEndTime_of currentEnd additionalMinutes) with
          | None => (db, Err InvalidTimeValue)
          | Some newEndTime =>
              if fl 1%nat then (db, Err FailedToExtendAuction)
              else match single (select_auctions db auctionId) with
                   | Some a =>
                       (update_auctions db auctionId
                          (set_auction_end newEndTime now),
                        Ok (set_auction_end newEndTime now a))
                   | None => (db, Err FailedToExtendAuction)
                   end
          end
  end.

(** [cancelAuction].  Call sites: 0 the bids query, 1 the update restricted
    to [status = 'active']. *)
Definition cancelAuction (fl : Faults) (now : Time) (db : DB) (auctionId : Id)
  : DB * Result AuctionRow :=
  let found := if fl 0%nat then None else Some (firstn 1 (bids_of db auctionId)) in
  if match found with Some l => (0 <? List.length l)%nat | None => false end then
    (db, Err CannotCancelWithBids)
  else if fl 1%nat then (db, Err FailedToCancelAuction)
  else
    let sel := fun a => String.eqb (a_id a) auctionId
                        && String.eqb (a_status a) "active" in
    match single (filter sel (auctions db)) with
    | Some a =>
        (mkDB (map (fun a => if sel a then set_status "cancelled" now a else a)
                   (auctions db))
              (bids db) (listings db) (listing_bids db),
         Ok (set_status "cancelled" now a))
    | None => (db, Err FailedToCancelAuction)
    end.

(** [checkAndEndExpiredAuctions].  [fl 0] is the query for the expired
    active auctions; [fle id] are the faults of the [endAuction] call made
    for auction [id], whose exception is caught and logged. *)
Definition expired_active (now : Time) (a : AuctionRow) : bool :=
  String.eqb (a_status a) "active" && (a_auction_end a <? now)%Z.

Definition checkAndEndExpiredAuctions (fl : Faults) (fle : Id -> Faults)
    (now : Time) (db : DB) : DB :=
  match (if fl 0%nat then None
         else Some (filter (expired_active now) (auctions db))) with
  | None => db
  | Some expiredAuctions =>
      fold_left (fun d auction =>
                   fst (endAuction (fle (a_id auction)) now d (a_id auction)))
                expiredAuctions db
  end.

End AuctionsService.

(** ** [ListingsService] *)

Module ListingsService.

(** The fields of [CreateListingDto & { seller_id }] the auction needs. *)
Record CreateListingDto := mkCreateListingDto {
  seller_id : Id;
  price_amount : Q;
  listing_type : string;
  auction_end : option Time
}.

(** [createListing], without the image upload.  Call sites: 0 the listing
    insert, 1 the auction insert.  [listingPayload] carries no
    [auction_end]. *)
Definition createListing (fl : Faults) (now : Time) (listingId auctionId : Id)
    (listingData : CreateListingDto) (db : DB) : DB * Result ListingRow :=
  if fl 0%nat then (db, Err FailedToCreateListing)
  else
    let listing := mkListing listingId (seller_id listingData)
                             (listing_type listingData) None
                             (price_amount listingData) "active" now in
    let db1 := insert_listing db listing in
    if String.eqb (listing_type listingData) "auction" then
      match auction_end listingData with
      | None => (delete_listings db1 listingId, Err AuctionEndRequired)
      | Some e =>
          if fl 1%nat then (delete_listings db1 listingId, Err FailedToCreateAuction)
          else
            (insert_auction db1
               (mkAuction auctionId listingId e
                          (price_amount listingData)
                          (Some (price_amount listingData))
                          (Some 0%Z) None None "active" now),
             Ok listing)
      end
    else (db1, Ok listing).

(** The checks of [placeBid] on the listing row, before the highest bid is
    read; [None] when they pass. *)
Definition placeBid_validate (now : Time) (listing : ListingRow) (userId : Id)
  : option Error :=
  if negb (String.eqb (l_listing_type listing) "auction") then Some NotAnAuction
  else if String.eqb (l_seller_id listing) userId then Some SelfBidNotAllowed
  else if match l_auction_end listing with
          | Some e => (e <? now)%Z
          | None => false
          end then Some AuctionExpired
  else None.

(** [placeBid].  Call sites: 0 the listing, 1 the highest bid, 2 the insert,
    3 the update of [price_amount] (its outcome is not looked at). *)
Definition placeBid (fl : Faults) (now : Time) (db : DB) (listingId userId : Id)
    (amount : Q) : DB * Result ListingBidRow :=
  match (if fl 0%nat then None else single (select_listings db listingId)) with
  | None => (db, Err ListingNotFound)
  | Some listing =>
      match placeBid_validate now listing userId with
      | Some e => (db, Err e)
      | None =>
          let highestBid :=
            if fl 1%nat then None
            else top_by lb_amount (listing_bids_of db listingId) in
          let currentPrice :=
            or_else (option_map lb_amount highestBid) (l_price_amount listing) in
          if le64 (number amount) (number currentPrice) then
            (db, Err (BidTooLow (MustBeHigherThanPrice currentPrice)))
          else if fl 2%nat then (db, Err (FailedToPlaceBid InsertBidFailed))
          else
            let bid := mkListingBid listingId userId amount "active" now in
            let db1 := insert_listing_bid db bid in
            let db2 := if fl 3%nat then db1
                       else update_listings db1 listingId (set_listing_price amount now) in
            (db2, Ok bid)
      end
  end.

(** [closeExpiredAuctions].  Call site 0 is the query; an update that
    fails is not noticed ([fu id] tells which do). *)
Definition closeExpiredAuctions (fl : Faults) (fu : Id -> bool) (now : Time)
    (db : DB) : DB :=
  let expired := fun l =>
    String.eqb (l_listing_type l) "auction" && String.eqb (l_status l) "active"
    && match l_auction_end l with Some e => (e <? now)%Z | None => false end in
  match (if fl 0%nat then None else Some (filter expired (listings db))) with
  | None => db
  | Some expiredListings =>
      fold_left (fun d listing =>
                   if fu (l_id listing) then d
                   else update_listings d (l_id listing)
                          (set_listing_status_at "expired" now))
                expiredListings db
  end.

End ListingsService.

(** ** Schedules

    A state of the system is the store together with the [placeBid] calls
    that have been started.  A call is suspended at each [await]: after the
    read and the checks it holds the row it read, after the insert it holds
    [bid], and it answers after the update.  The other methods write
    neither [current_bid] nor [bid_count] nor a bid amount; each of them is
    one step of a schedule. *)

Inductive Phase :=
| Validated                         (* admitted, insert not issued yet *)
| Inserted (bid : option BidRow)    (* insert answered, update not issued *)
| Finished (r : Result BidRow)      (* the call has answered *).

Record Call := mkCall {
  c_auctionId : Id;
  c_bidderId : Id;
  c_bidAmount : Q;
  c_currency : string;
  c_time : Time;                    (* [new Date()] of the checks and of [bid_time] *)
  c_auction : option AuctionRow;    (* the row read at call site 0 *)
  c_phase : Phase
}.

Record Sys := mkSys {
  sys_db : DB;
  sys_calls : list Call
}.

Definition init : Sys := mkSys empty_db [].

Inductive Event :=
| CreateListing (fl : Faults) (now : Time) (listingId auctionId : Id)
                (listingData : ListingsService.CreateListingDto)
| BidRead (fl : Faults) (now : Time) (auctionId bidderId : Id) (bidAmount : Q)
          (currency : string)
| BidInsert (k : nat) (fl : Faults) (bidId : Id)
| BidUpdate (k : nat) (fl : Faults) (now : Time)
| PlaceBid (fl : Faults) (now : Time) (bidId : Id) (auctionId bidderId : Id)
           (bidAmount : Q) (currency : string)
| EndAuction (fl : Faults) (now : Time) (auctionId : Id)
| ExtendAuction (fl : Faults) (now : Time) (auctionId : Id)
                (additionalMinutes : Number)
| CancelAuction (fl : Faults) (now : Time) (auctionId : Id)
| CheckAndEndExpiredAuctions (fl : Faults) (fle : Id -> Faults) (now : Time)
| ListingPlaceBid (fl : Faults) (now : Time) (listingId userId : Id) (amount : Q)
| CloseExpiredAuctions (fl : Faults) (fu : Id -> bool) (now : Time).

(** [PlaceBidDto]: [@Min(0.01) bid_amount], enforced by the global
    [ValidationPipe] before [AuctionsController.placeBid] runs. *)
Definition PlaceBidDto_valid (bid_amount : Q) : bool :=
  le64 (number (1 # 100)) (number bid_amount).

(** [uuidv4()] yields an identifier that is not in use. *)
Definition id_in_use (db : DB) (listingId auctionId : Id) : bool :=
  existsb (fun a => String.eqb (a_id a) auctionId) (auctions db)
  || existsb (fun l => String.eqb (l_id l) listingId) (listings db).

Definition set_phase (p : Phase) (c : Call) : Call :=
  mkCall (c_auctionId c) (c_bidderId c) (c_bidAmount c) (c_currency c)
         (c_time c) (c_auction c) p.

Fixpoint set_nth {A} (k : nat) (f : A -> A) (l : list A) : list A :=
  match l, k with
  | [], _ => []
  | x :: r, O => f x :: r
  | x :: r, S k' => x :: set_nth k' f r
  end.

Definition with_db (s : Sys) (db : DB) : Sys := mkSys db (sys_calls s).

Definition exec (e : Event) (s : Sys) : Sys :=
  let db := sys_db s in
  match e with
  | CreateListing fl now listingId auctionId listingData =>
      if id_in_use db listingId auctionId then s
      else with_db s (fst (ListingsService.createListing fl now listingId
                             auctionId listingData db))
  | BidRead fl now auctionId bidderId bidAmount currency =>
      if negb (PlaceBidDto_valid bidAmount) then s
      else
        let call := mkCall auctionId bidderId bidAmount currency now in
        match AuctionsService.placeBid_read fl db auctionId with
        | None =>
            mkSys db (sys_calls s ++ [call None (Finished (Err AuctionNotFound))])
        | Some snap =>
            match AuctionsService.placeBid_validate now snap bidderId bidAmount with
            | Some err =>
                mkSys db (sys_calls s ++ [call (Some (fst snap)) (Finished (Err err))])
            | None =>
                mkSys db (sys_calls s ++ [call (Some (fst snap)) Validated])
            end
        end
  | BidInsert k fl bidId =>
      match nth_error (sys_calls s) k with
      | Some (mkCall auctionId bidderId bidAmount currency bidTime _ Validated) =>
          let (db1, bid) :=
            AuctionsService.placeBid_insert fl bidTime bidId db auctionId bidderId
              bidAmount currency in
          mkSys db1 (set_nth k (set_phase (Inserted bid)) (sys_calls s))
      | _ => s
      end
  | BidUpdate k fl now =>
      match nth_error (sys_calls s) k with
      | Some (mkCall auctionId _ bidAmount _ _ (Some auction) (Inserted bid)) =>
          let (db2, updated) :=
            AuctionsService.placeBid_update fl now db auctionId bidAmount auction in
          let r := if updated then AuctionsService.placeBid_return bid
                   else Err (FailedToPlaceBid UpdateAuctionFailed) in
          mkSys db2 (set_nth k (set_phase (Finished r)) (sys_calls s))
      | _ => s
      end
  | PlaceBid fl now bidId auctionId bidderId bidAmount currency =>
      if negb (PlaceBidDto_valid bidAmount) then s
      else
        let (db', r) :=
          AuctionsService.placeBid fl now bidId db auctionId bidderId bidAmount
            currency in
        mkSys db' (sys_calls s ++
                   [mkCall auctionId bidderId bidAmount currency now
                      (option_map fst (AuctionsService.placeBid_read fl db auctionId))
                      (Finished r)])
  | EndAuction fl now auctionId =>
      with_db s (fst (AuctionsService.endAuction fl now db auctionId))
  | ExtendAuction fl now auctionId additionalMinutes =>
      with_db s (fst (AuctionsService.extendAuction fl now db auctionId
                        additionalMinutes))
  | CancelAuction fl now auctionId =>
      with_db s (fst (AuctionsService.cancelAuction fl now db auctionId))
  | CheckAndEndExpiredAuctions fl fle now =>
      with_db s (AuctionsService.checkAndEndExpiredAuctions fl fle now db)
  | ListingPlaceBid fl now listingId userId amount =>
      with_db s (fst (ListingsService.placeBid fl now db listingId userId amount))
  | CloseExpiredAuctions fl fu now =>
      with_db s (ListingsService.closeExpiredAuctions fl fu now db)
  end.

Definition run (evs : list Event) (s : Sys) : Sys :=
  fold_left (fun s e => exec e s) evs s.

(** A schedule in which no [placeBid] is interleaved with another call and
    in which the two writes of [placeBid] go through. *)
Definition sequential_event (e : Event) : bool :=
  match e with
  | BidRead _ _ _ _ _ _ | BidInsert _ _ _ | BidUpdate _ _ _ => false
  | PlaceBid fl _ _ _ _ _ _ => negb (fl 1%nat) && negb (fl 2%nat)
  | _ => true
  end.

Definition sequential (evs : list Event) : bool := forallb sequential_event evs.

(** The answers of the calls, in the order in which they were started. *)
Definition answer (s : Sys) (k : nat) : option (Result BidRow) :=
  match nth_error (sys_calls s) k with
  | Some c => match c_phase c with Finished r => Some r | _ => None end
  | None => None
  end.

(** The amount observed by call [k] when it validated. *)
Definition observed_currentBid (s : Sys) (k : nat) : option Q :=
  match nth_error (sys_calls s) k with
  | Some c => option_map AuctionsService.currentBid_of (c_auction c)
  | None => None
  end.

(** The greatest of a list of amounts. *)
Fixpoint max_amount (l : list Q) : option Q :=
  match l with
  | [] => None
  | x :: r => match max_amount r with
              | Some m => Some (Qmax x m)
              | None => Some x
              end
  end.

Fixpoint strictly_increasing (l : list Q) : Prop :=
  match l with
  | [] => True
  | x :: r => match r with
              | [] => True
              | y :: _ => x < y /\ strictly_increasing r
              end
  end.

(** The bidder is the seller of the listing joined to the auction. *)
Definition is_seller (listing : option ListingRow) (bidderId : Id) : Prop :=
  exists l, listing = Some l /\ l_seller_id l = bidderId.

(** What [.update({ is_winning: true }).eq('id', hid)] does to a bid row. *)
Definition mark (hid : Id) (b : BidRow) : BidRow :=
  if String.eqb (b_id b) hid then set_is_winning b else b.

(** ** Invariants *)

(** Two auction rows with the same identity and the same bidding state; two
    bid rows with the same auction and amount. *)
Definition same_identity (a a' : AuctionRow) : Prop :=
  a_id a' = a_id a /\ a_starting_price a' = a_starting_price a.

Definition same_bid_state (a a' : AuctionRow) : Prop :=
  same_identity a a'
  /\ a_current_bid a' = a_current_bid a /\ a_bid_count a' = a_bid_count a.

Definition same_offer (b b' : BidRow) : Prop :=
  b_auction_id b' = b_auction_id b /\ b_bid_amount b' = b_bid_amount b.

(** [db'] is [db] up to columns that bidding does not depend on. *)
Definition frame (db db' : DB) : Prop :=
  Forall2 same_bid_state (auctions db) (auctions db')
  /\ Forall2 same_offer (bids db) (bids db').

(** The stored current bid is not below the starting price, and is the
    starting price while the count is 0. *)
Definition price_ok (a : AuctionRow) : Prop :=
  exists c n,
    a_current_bid a = Some c /\ a_bid_count a = Some n
    /\ a_starting_price a <= c /\ (0 <= n)%Z
    /\ (n = 0%Z -> c = a_starting_price a).

Definition pending (p : Phase) : bool :=
  match p with Finished _ => false | _ => true end.

(** A suspended call holds a row of its auction, and its amount is above
    the starting price of that auction. *)
Definition call_ok (db : DB) (c : Call) : Prop :=
  pending (c_phase c) = true ->
  (exists snap, c_auction c = Some snap
                /\ (0 <= or_else_Z (a_bid_count snap) 0)%Z)
  /\ In (c_auctionId c) (map a_id (auctions db))
  /\ (forall a, In a (auctions db) -> a_id a = c_auctionId c ->
                a_starting_price a < c_bidAmount c).

Definition safe (s : Sys) : Prop :=
  Forall price_ok (auctions (sys_db s))
  /\ Forall (call_ok (sys_db s)) (sys_calls s).

(** The amounts bid on an auction, in the order of their insertion. *)
Definition placed (db : DB) (auctionId : Id) : list Q :=
  map b_bid_amount (bids_of db auctionId).

(** The auction row agrees with the bids placed on it. *)
Definition ledger_ok (db : DB) (a : AuctionRow) : Prop :=
  strictly_increasing (placed db (a_id a))
  /\ Forall (fun x => a_starting_price a < x /\ 0 < x) (placed db (a_id a))
  /\ a_bid_count a = Some (Z.of_nat (List.length (placed db (a_id a))))
  /\ a_current_bid a = Some (last (placed db (a_id a)) (a_starting_price a)).

Definition settled (db : DB) : Prop :=
  Forall (ledger_ok db) (auctions db)
  /\ (forall b, In b (bids db) -> In (b_auction_id b) (map a_id (auctions db))).

(** ** Concrete stores used by the examples *)

Definition example_dto : ListingsService.CreateListingDto :=
  ListingsService.mkCreateListingDto "seller" 100 "auction" (Some 1000%Z).

(** One auction ["A1"] on listing ["L1"] of ["seller"]: starting price 100,
    end at instant 1000, no bid. *)
Definition example_created : Sys :=
  run [CreateListing no_faults 0 "L1" "A1" example_dto] init.

Definition example_db : DB := sys_db example_created.

Definition example_auction : AuctionRow :=
  mkAuction "A1" "L1" 1000 100 (Some 100) (Some 0%Z) None None "active" 0.

Definition example_listing : ListingRow :=
  mkListing "L1" "seller" "auction" None 100 "active" 0.

(** The same auction with starting price [p]. *)
Definition example_priced_db (p : Q) : DB :=
  sys_db (run [CreateListing no_faults 0 "L1" "A1"
                 (ListingsService.mkCreateListingDto "seller" p "auction"
                    (Some 1000%Z))] init).

(** Auction ["A1"] with a reserve price of 200 and a single bid of 105. *)
Definition example_reserve_db : DB :=
  mkDB [mkAuction "A1" "L1" 1000 100 (Some 105) (Some 1%Z) None (Some 200)
                  "active" 1]
       [mkBid "b1" "A1" "u1" 105 "USD" 1 false]
       [example_listing] [].

(** Auction ["A1"] is created and receives a bid of 105; a [placeBid] of 111
    is admitted before the auction is ended and writes after it; then
    [endAuction] is called a second time. *)
Definition example_bid_across_end : list Event :=
  [ CreateListing no_faults 0 "L1" "A1" example_dto;
    PlaceBid no_faults 1 "b1" "A1" "u1" 105 "USD";
    BidRead no_faults 2 "A1" "u2" 111 "USD";
    EndAuction no_faults 3 "A1";
    BidInsert 1 no_faults "b2";
    BidUpdate 1 no_faults 4;
    EndAuction no_faults 5 "A1" ].

(** The store failing at the insert of the bid, resp. at the update of the
    auction, of [placeBid]. *)
Definition insert_fails : Faults := fun k => Nat.eqb k 1.
Definition update_fails : Faults := fun k => Nat.eqb k 2.

(** Auction ["A1"] is created and receives a bid of 105; then two calls of
    [placeBid], of 111 and of 116, both read the auction before either
    writes, and the call of 116 writes first. *)
Definition example_race : list Event :=
  [ CreateListing no_faults 0 "L1" "A1" example_dto;
    PlaceBid no_faults 1 "b1" "A1" "u1" 105 "USD";
    BidRead no_faults 2 "A1" "u2" 111 "USD";
    BidRead no_faults 2 "A1" "u3" 116 "USD";
    BidInsert 2 no_faults "b3";
    BidUpdate 2 no_faults 3;
    BidInsert 1 no_faults "b2";
    BidUpdate 1 no_faults 4 ].

(** Three bids on auction ["A1"], one call after the other. *)
Definition example_in_turn : list Event :=
  [ CreateListing no_faults 0 "L1" "A1" example_dto;
    PlaceBid no_faults 1 "b1" "A1" "u1" 105 "USD";
    PlaceBid no_faults 2 "b2" "A1" "u2" 111 "USD";
    PlaceBid no_faults 3 "b3" "A1" "u3" 117 "USD" ].

(** ** The read methods of [AuctionsService] *)

(** What a read method throws. *)
Inductive Exception :=
| NotFound_Auction            (* NotFoundException 'Auction not found' *)
| NotFound_AuctionForListing  (* 'Auction not found for this listing' *)
| FailedToFetchActiveAuctions (* `Failed to fetch active auctions: ...` *)
| FailedToGetAuctionStats     (* `Failed to get auction stats: ...` *).

Inductive Outcome (A : Type) : Type :=
| Returned (a : A)
| Thrown (e : Exception).

Arguments Returned {A} a.
Arguments Thrown {A} e.

(** [.order(col, { ascending })]: the rows in the order given by [le], rows
    that [le] does not tell apart staying in table order. *)
Fixpoint insert_by {A} (le : A -> A -> bool) (x : A) (l : list A) : list A :=
  match l with
  | [] => [x]
  | y :: r => if le x y then x :: y :: r else y :: insert_by le x r
  end.

Definition order_by {A} (le : A -> A -> bool) (l : list A) : list A :=
  fold_right (insert_by le) [] l.

Definition by_auction_end (a b : AuctionRow) : bool :=
  (a_auction_end a <=? a_auction_end b)%Z.

Definition by_bid_amount_desc (a b : BidRow) : bool :=
  Qle_bool (b_bid_amount b) (b_bid_amount a).

(** The auction with the fields that the service computes;
    [minutes_remaining], [hours_remaining] and [days_remaining] are absent
    from what [findById] returns. *)
Record EnrichedAuction := mkEnriched {
  e_auction : AuctionRow;
  e_time_remaining : Z;
  e_ending_soon : bool;
  e_is_expired : bool;
  e_minutes_remaining : option Z;
  e_hours_remaining : option Z;
  e_days_remaining : option Z
}.

(** A bid as [getAuctionBids] returns it: the row and the derived
    [status]. *)
Record BidView := mkBidView {
  v_bid : BidRow;
  v_status : string
}.

Record AuctionStats := mkStats {
  st_total : Z;
  st_active : Z;
  st_ended : Z;
  st_cancelled : Z;
  st_totalBids : Z;
  st_totalValue : Q;
  st_averageBidsPerAuction : Q
}.

Module AuctionsReads.

(** [enrichAuctionData]. *)
Definition enrichAuctionData (now : Time) (auction : AuctionRow) : EnrichedAuction :=
  let timeRemaining := Z.max 0 (a_auction_end auction - now) in
  mkEnriched auction timeRemaining
    (timeRemaining <? 3600000)%Z
    ((timeRemaining =? 0)%Z && String.eqb (a_status auction) "active")
    (Some (timeRemaining / 60000)%Z)
    (Some (timeRemaining / 3600000)%Z)
    (Some (timeRemaining / 86400000)%Z).

(** [findById]; its [is_expired] does not look at the status. *)
Definition findById (fl : Faults) (now : Time) (db : DB) (id : Id)
  : Outcome EnrichedAuction :=
  match (if fl 0%nat then None else single (select_auctions db id)) with
  | None => Thrown NotFound_Auction
  | Some auction =>
      let timeRemaining := Z.max 0 (a_auction_end auction - now) in
      Returned (mkEnriched auction timeRemaining
                  (timeRemaining <? 3600000)%Z
                  (timeRemaining =? 0)%Z
                  None None None)
  end.

(** [findByListingId]. *)
Definition findByListingId (fl : Faults) (now : Time) (db : DB) (listingId : Id)
  : Outcome EnrichedAuction :=
  match (if fl 0%nat then None
         else single (filter (fun a => String.eqb (a_listing_id a) listingId)
                             (auctions db))) with
  | None => Thrown NotFound_AuctionForListing
  | Some auction => Returned (enrichAuctionData now auction)
  end.



(** [getAuctionBids]: the bids of the auction by descending amount; the
    empty list when the query fails. *)
Definition bid_view (bid : BidRow) : BidView :=
  mkBidView bid (if b_is_winning bid then "winning" else "active").

Definition getAuctionBids (fl : Faults) (db : DB) (auctionId : Id) : list BidView :=
  if fl 0%nat then []
  else map bid_view (order_by by_bid_amount_desc (bids_of db auctionId)).

(** [getUserBidAuctions].  Call sites: 0 the bids of the user, 1 the
    auctions [.in('id', auctionIds)]. *)
Definition getUserBidAuctions (fl : Faults) (now : Time) (db : DB) (userId : Id)
  : list EnrichedAuction :=
  match (if fl 0%nat then None
         else Some (filter (fun b => String.eqb (b_bidder_id b) userId) (bids db))) with
  | None | Some [] => []
  | Some found =>
      let auctionIds := map b_auction_id found in
      if fl 1%nat then []
      else map (enrichAuctionData now)
               (order_by by_auction_end
                  (filter (fun a => existsb (String.eqb (a_id a)) auctionIds)
                          (auctions db)))
  end.

(** [getAuctionStats].  Call sites: 0 the statuses, 1 the count of table
    [bids] (both services write to it), 2 the ended auctions with a
    [current_bid].  The client answers a failed query with an error object
    and does not throw, so that the [catch] around the count is not
    entered: a failed count leaves [count] null and [totalBids] 0. *)
Definition count_status (st : string) (l : list AuctionRow) : Z :=
  Z.of_nat (List.length (filter (fun a => String.eqb (a_status a) st) l)).

Definition sum_Q (l : list Q) : Q := fold_left Qplus l 0.

Definition getAuctionStats (fl : Faults) (db : DB) : Outcome AuctionStats :=
  if fl 0%nat then Thrown FailedToGetAuctionStats
  else
    let totalBids :=
      if fl 1%nat then 0%Z
      else Z.of_nat (List.length (bids db) + List.length (listing_bids db)) in
    let totalValue :=
      if fl 2%nat then 0
      else sum_Q (map (fun auc => or_else (a_current_bid auc) 0)
                      (filter (fun a => String.eqb (a_status a) "ended"
                                        && match a_current_bid a with
                                           | Some _ => true
                                           | None => false
                                           end)
                              (auctions db))) in
    let total := Z.of_nat (List.length (auctions db)) in
    Returned (mkStats total
                (count_status "active" (auctions db))
                (count_status "ended" (auctions db))
                (count_status "cancelled" (auctions db))
                totalBids totalValue
                (if (0 <? total)%Z then inject_Z totalBids / inject_Z total else 0)).

End AuctionsReads.

(** ** A read method of [ListingsService] *)

Module ListingsReads.


End ListingsReads.

(** ** Histories of rows *)

(** [touched a a']: row [a'] is row [a] after writes of the services. *)
Inductive touched (a : AuctionRow) : AuctionRow -> Prop :=
| touched_none : touched a a
| touched_bid b x n t :
    touched a b -> touched a (set_bid_state x n t b)
| touched_end b t :
    touched a b -> touched a (set_status "ended" t b)
| touched_winner b w :
    touched a b -> a_status b = "ended"%string -> touched a (set_winner w b)
| touched_cancel b t :
    touched a b -> a_status b = "active"%string ->
    touched a (set_status "cancelled" t b)
| touched_extend b e t :
    touched a b -> a_status b = "active"%string ->
    touched a (set_auction_end e t b).

(** A bid row is kept but for its [is_winning] flag, which is not cleared. *)
Definition bid_kept (b b' : BidRow) : Prop :=
  b_id b' = b_id b /\ b_auction_id b' = b_auction_id b
  /\ b_bidder_id b' = b_bidder_id b /\ b_bid_amount b' = b_bid_amount b
  /\ b_bid_currency b' = b_bid_currency b /\ b_bid_time b' = b_bid_time b
  /\ (b_is_winning b = true -> b_is_winning b' = true).

(** [l'] holds the rows of [l], each related by [R], in the same order and
    at the same positions, followed by further rows, which satisfy [P]. *)
Definition grows {A} (R : A -> A -> Prop) (P : A -> Prop) (l l' : list A) : Prop :=
  exists front rest, l' = front ++ rest /\ Forall2 R l front /\ Forall P rest.

(** An auction row as [createListing] inserts it, after writes of the
    services. *)
Definition born (a' : AuctionRow) : Prop :=
  exists a,
    a_current_bid a = Some (a_starting_price a)
    /\ a_bid_count a = Some 0%Z
    /\ a_winning_bidder_id a = None
    /\ a_reserve_price a = None
    /\ a_status a = "active"%string
    /\ touched a a'.

(** [y] passes the two amount checks of [placeBid] on current bid [x]. *)
Definition raises (x y : Q) : Prop :=
  le64 (number y) (number x) = false
  /\ lt64 (number y) (AuctionsService.leastBid_of x) = false.

(** Amounts each of which passes the amount checks on the one before. *)
Fixpoint spaced (l : list Q) : Prop :=
  match l with
  | [] => True
  | x :: r => match r with
              | [] => True
              | y :: _ => raises x y /\ spaced r
              end
  end.

(** What the update of [cancelAuction] does to a row. *)
Definition cancel_row (id : Id) (now : Time) (a : AuctionRow) : AuctionRow :=
  if String.eqb (a_id a) id && String.eqb (a_status a) "active"
  then set_status "cancelled" now a else a.

(** ** Further examples and predicates *)

(** The bids query of [cancelAuction] failing. *)
Definition bids_query_fails : Faults := fun k => Nat.eqb k 0.

(** Auction ["A1"] after a bid of 105 by ["u1"]. *)
Definition example_bid_db : DB :=
  fst (AuctionsService.placeBid no_faults 1 "b1" example_db "A1" "u1" 105 "USD").

(** No bid, extension or cancellation goes through on auction [id] of
    store [db], whatever the time, the arguments and the failures of the
    store, and none changes the store. *)
Definition refuses_all (db : DB) (id : Id) : Prop :=
  forall fl now,
    (forall bidId bidderId bidAmount currency,
        fst (AuctionsService.placeBid fl now bidId db id bidderId bidAmount currency)
        = db
        /\ is_ok (snd (AuctionsService.placeBid fl now bidId db id bidderId
                         bidAmount currency)) = false
        /\ (fl 0%nat = false ->
            snd (AuctionsService.placeBid fl now bidId db id bidderId bidAmount
                   currency) = Err AuctionNotActive))
    /\ (forall additionalMinutes,
           fst (AuctionsService.extendAuction fl now db id additionalMinutes) = db
           /\ is_ok (snd (AuctionsService.extendAuction fl now db id
                            additionalMinutes)) = false)
    /\ fst (AuctionsService.cancelAuction fl now db id) = db
    /\ is_ok (snd (AuctionsService.cancelAuction fl now db id)) = false.

(** From [db] to [db'], auction rows and bid rows stay in place, changed
    only by writes of the services, and rows are added at the end. *)
Definition history (db db' : DB) : Prop :=
  grows touched born (auctions db) (auctions db')
  /\ grows bid_kept (fun _ => True) (bids db) (bids db').

(** Every auction has its accepted amounts spaced by the increments. *)
Definition all_spaced (db : DB) : Prop :=
  Forall (fun a => spaced (a_starting_price a :: placed db (a_id a)))
         (auctions db).

(** Instants in ascending order; amounts in descending order. *)
Fixpoint ascending (l : list Z) : Prop :=
  match l with
  | [] => True
  | x :: r => Forall (fun y => (x <= y)%Z) r /\ ascending r
  end.

Fixpoint descending (l : list Q) : Prop :=
  match l with
  | [] => True
  | x :: r => Forall (fun y => y <= x) r /\ descending r
  end.

(** What [closeExpiredAuctions] selects, and what it writes to a row. *)
Definition listing_expired (now : Time) (l : ListingRow) : bool :=
  String.eqb (l_listing_type l) "auction" && String.eqb (l_status l) "active"
  && match l_auction_end l with Some e => (e <? now)%Z | None => false end.

Definition expire_row (now : Time) (l : ListingRow) : ListingRow :=
  if listing_expired now l then set_listing_status_at "expired" now l else l.

(** A store with one dated listing, ["L9"], whose end is instant 1000. *)
Definition example_dated_db : DB :=
  mkDB [] [] [mkListing "L9" "seller" "auction" (Some 1000%Z) 100 "active" 0] [].

(** User [userId] has a bid on auction [a] in the table [bs]. *)
Definition has_bid_of (bs : list BidRow) (userId : Id) (a : AuctionRow) : bool :=
  existsb (String.eqb (a_id a))
          (map b_auction_id
               (filter (fun b => String.eqb (b_bidder_id b) userId) bs)).

(** ** Sellers and bidders *)

(** The seller of the listing that [placeBid] finds joined under [id]. *)
Definition seller_at (db : DB) (id : Id) : option Id :=
  option_map l_seller_id (hd_error (select_listings db id)).

Definition seller_of (db : DB) (a : AuctionRow) : option Id :=
  seller_at db (a_listing_id a).

(** From [db] to [db'] no row of auctions or bids is added or removed, the
    auctions keep their identifier and listing, the bids their auction and
    bidder, and the listings their seller. *)
Definition kin (db db' : DB) : Prop :=
  Forall2 (fun a a' => a_id a' = a_id a /\ a_listing_id a' = a_listing_id a)
          (auctions db) (auctions db')
  /\ Forall2 (fun b b' => b_auction_id b' = b_auction_id b
                          /\ b_bidder_id b' = b_bidder_id b)
             (bids db) (bids db')
  /\ (forall id, seller_at db' id = seller_at db id).

(** Every auction has its listing; no bid is by the seller of the listing
    of its auction; every bid is on an auction of the table. *)
Definition no_self_bid (db : DB) : Prop :=
  (forall a, In a (auctions db) -> seller_of db a <> None)
  /\ (forall b a, In b (bids db) -> In a (auctions db) ->
                  a_id a = b_auction_id b ->
                  seller_of db a <> Some (b_bidder_id b))
  /\ (forall b, In b (bids db) -> In (b_auction_id b) (map a_id (auctions db))).

(** No call that has passed the checks and not yet inserted is by the
    seller. *)
Definition no_self_call (db : DB) (calls : list Call) : Prop :=
  forall c a, In c calls -> c_phase c = Validated -> In a (auctions db) ->
              a_id a = c_auctionId c ->
              seller_of db a <> Some (c_bidderId c).

Definition guarded (s : Sys) : Prop :=
  no_self_bid (sys_db s) /\ no_self_call (sys_db s) (sys_calls s).



(** * Properties *)

(** ** Comparisons and row updates *)

Lemma Qle_bool_false_iff (a b : Q) : Qle_bool a b = false <-> b < a.
Proof.
  split; intro H.
  - apply Qnot_le_lt. intro L. apply Qle_bool_iff in L. congruence.
  - destruct (Qle_bool a b) eqn:E; [|reflexivity].
    apply Qle_bool_iff in E. exfalso. exact (Qlt_not_le _ _ H E).
Qed.

(** ** Rounding to the nearest double *)

Lemma pow2_pos e : 0 < 2 ^ e.
Proof. apply Qpower_0_lt. reflexivity. Qed.

Lemma pow2_add a b : 2 ^ (a + b) == 2 ^ a * 2 ^ b.
Proof. apply Qpower_plus. discriminate. Qed.

Lemma pow2_le a b : (a <= b)%Z -> 2 ^ a <= 2 ^ b.
Proof. intro H. apply Qpower_le_compat_l; [exact H | discriminate]. Qed.

Lemma pow2_Z a : (0 <= a)%Z -> inject_Z (2 ^ a) == 2 ^ a.
Proof. intro H. now rewrite Zpower_Qpower. Qed.

Lemma rne_bounds q :
  (Qfloor q <= round_half_even q <= Qfloor q + 1)%Z.
Proof.
  unfold round_half_even.
  destruct (Qcompare (q - inject_Z (Qfloor q)) (1 # 2)); [|lia|lia].
  destruct (Z.even (Qfloor q)); lia.
Qed.

Lemma rne_Z z q : q == inject_Z z -> round_half_even q = z.
Proof.
  intro H. unfold round_half_even. rewrite (Qfloor_comp _ _ H), Qfloor_Z.
  assert (E : Qcompare (q - inject_Z z) (1 # 2) = Lt).
  { change (q - inject_Z z < 1 # 2). rewrite H. lra. }
  now rewrite E.
Qed.

Lemma rne_mono q q' : q <= q' -> (round_half_even q <= round_half_even q')%Z.
Proof.
  intro H. pose proof (Qfloor_resp_le _ _ H) as Hf.
  destruct (Z.eq_dec (Qfloor q) (Qfloor q')) as [E|E].
  - unfold round_half_even. rewrite <- E.
    destruct (Qcompare_spec (q - inject_Z (Qfloor q)) (1 # 2)) as [H1|H1|H1];
      destruct (Qcompare_spec (q' - inject_Z (Qfloor q)) (1 # 2)) as [H2|H2|H2];
      try lia; try (destruct (Z.even (Qfloor q)); lia); exfalso; lra.
  - pose proof (rne_bounds q). pose proof (rne_bounds q'). lia.
Qed.

Lemma ilog2_spec q : 0 < q -> 2 ^ ilog2 q <= q /\ q < 2 ^ (ilog2 q + 1).
Proof.
  destruct q as [n d]. intro Hq.
  assert (Hn : (0 < n)%Z) by (unfold Qlt in Hq; simpl in Hq; lia).
  unfold ilog2. cbn [Qnum Qden].
  destruct (Z.log2_spec n Hn) as [Ha1 Ha2].
  destruct (Z.log2_spec (Zpos d) eq_refl) as [Hb1 Hb2].
  pose proof (Z.log2_nonneg n) as Ha0. pose proof (Z.log2_nonneg (Zpos d)) as Hb0.
  set (a := Z.log2 n) in *. set (b := Z.log2 (Zpos d)) in *.
  rewrite Zle_Qle, pow2_Z in Ha1, Hb1 by lia.
  rewrite Zlt_Qlt, pow2_Z in Ha2, Hb2 by lia.
  assert (Hd : 0 < inject_Z (Zpos d)) by reflexivity.
  assert (Hnd : n # d == inject_Z n / inject_Z (Zpos d)) by apply Qmake_Qdiv.
  destruct (Qle_bool (2 ^ (a - b)) (n # d)) eqn:E.
  - apply Qle_bool_iff in E. split; [exact E|].
    rewrite Hnd. apply Qlt_shift_div_r; [exact Hd|].
    apply Qlt_le_trans with (2 ^ Z.succ a); [exact Ha2|].
    replace (Z.succ a) with ((a - b + 1) + b)%Z by lia.
    rewrite pow2_add. apply Qmult_le_l; [apply pow2_pos | exact Hb1].
  - assert (E' : n # d < 2 ^ (a - b)).
    { apply Qnot_le_lt. intro L. apply Qle_bool_iff in L. congruence. }
    split.
    + rewrite Hnd. apply Qle_shift_div_l; [exact Hd|].
      apply Qle_trans with (2 ^ a); [|exact Ha1].
      replace a with ((a - b - 1) + Z.succ b)%Z at 2 by lia.
      rewrite pow2_add. apply Qmult_le_l; [apply pow2_pos|].
      now apply Qlt_le_weak.
    + now replace (a - b - 1 + 1)%Z with (a - b)%Z by lia.
Qed.

Lemma ilog2_mono x y : 0 < x -> x <= y -> (ilog2 x <= ilog2 y)%Z.
Proof.
  intros Hx Hxy.
  destruct (ilog2_spec x Hx) as [H1 _].
  destruct (ilog2_spec y (Qlt_le_trans _ _ _ Hx Hxy)) as [_ H2].
  destruct (Z_le_gt_dec (ilog2 x) (ilog2 y)) as [L|G]; [exact L|].
  exfalso. assert (H : 2 ^ (ilog2 y + 1) <= 2 ^ ilog2 x) by (apply pow2_le; lia).
  lra.
Qed.

Lemma magnitude64_nonneg a : 0 <= a -> 0 <= magnitude64 a.
Proof.
  intro H. unfold magnitude64.
  apply Qmult_le_0_compat; [|apply Qlt_le_weak, pow2_pos].
  change 0 with (inject_Z 0). rewrite <- Zle_Qle.
  rewrite <- (rne_Z 0 0) by reflexivity. apply rne_mono.
  apply Qle_shift_div_l; [apply pow2_pos | lra].
Qed.

Lemma magnitude64_mono x y : 0 < x -> x <= y -> magnitude64 x <= magnitude64 y.
Proof.
  intros Hx Hxy. pose proof (ilog2_mono x y Hx Hxy) as Hl.
  assert (Hy : 0 < y) by lra.
  destruct (ilog2_spec x Hx) as [_ Hux]. destruct (ilog2_spec y Hy) as [Hly _].
  unfold magnitude64.
  assert (He : (exponent64 x <= exponent64 y)%Z) by (unfold exponent64; lia).
  destruct (Z.eq_dec (exponent64 x) (exponent64 y)) as [E|E].
  - rewrite E. apply Qmult_le_compat_r; [|apply Qlt_le_weak, pow2_pos].
    rewrite <- Zle_Qle. apply rne_mono.
    apply Qmult_le_compat_r; [exact Hxy|].
    apply Qlt_le_weak, Qinv_lt_0_compat, pow2_pos.
  - apply Qle_trans with (2 ^ (exponent64 x + 53)).
    + rewrite (Z.add_comm (exponent64 x) 53), pow2_add.
      apply Qmult_le_compat_r; [|apply Qlt_le_weak, pow2_pos].
      change (2 ^ 53) with (inject_Z 9007199254740992). rewrite <- Zle_Qle.
      rewrite <- (rne_Z 9007199254740992 (inject_Z 9007199254740992)) by reflexivity.
      apply rne_mono. apply Qlt_le_weak. apply Qlt_shift_div_r; [apply pow2_pos|].
      change (inject_Z 9007199254740992) with (2 ^ 53). rewrite <- pow2_add.
      apply Qlt_le_trans with (2 ^ (ilog2 x + 1)); [exact Hux|].
      apply pow2_le. unfold exponent64. lia.
    + apply Qle_trans with (2 ^ (exponent64 y + 52)); [apply pow2_le; lia|].
      rewrite (Z.add_comm (exponent64 y) 52), pow2_add.
      apply Qmult_le_compat_r; [|apply Qlt_le_weak, pow2_pos].
      change (2 ^ 52) with (inject_Z 4503599627370496). rewrite <- Zle_Qle.
      rewrite <- (rne_Z 4503599627370496 (inject_Z 4503599627370496)) by reflexivity.
      apply rne_mono. apply Qle_shift_div_l; [apply pow2_pos|].
      change (inject_Z 4503599627370496) with (2 ^ 52). rewrite <- pow2_add.
      apply Qle_trans with (2 ^ ilog2 y); [|exact Hly].
      apply pow2_le. unfold exponent64 in *. lia.
Qed.

Lemma round64_mono x y : x <= y -> le64 (round64 x) (round64 y) = true.
Proof.
  intro Hxy. unfold round64.
  destruct (Qeq_bool x 0) eqn:Ex0; destruct (Qeq_bool y 0) eqn:Ey0;
    [ apply Qeq_bool_iff in Ex0; apply Qeq_bool_iff in Ey0
    | apply Qeq_bool_iff in Ex0; apply Qeq_bool_neq in Ey0
    | apply Qeq_bool_neq in Ex0; apply Qeq_bool_iff in Ey0
    | apply Qeq_bool_neq in Ex0; apply Qeq_bool_neq in Ey0 ].
  - reflexivity.
  - assert (Hy : 0 <= y) by lra. apply Qle_bool_iff in Hy. rewrite Hy.
    apply Qle_bool_iff in Hy.
    destruct (Qle_bool (2 ^ 1024) (magnitude64 y)); [reflexivity|].
    cbn [le64]. apply Qle_bool_iff. rewrite Qred_correct.
    now apply magnitude64_nonneg.
  - destruct (Qle_bool 0 x) eqn:Hx.
    { apply Qle_bool_iff in Hx. exfalso. apply Ex0. lra. }
    assert (Hnx : 0 <= - x) by lra.
    destruct (Qle_bool (2 ^ 1024) (magnitude64 (- x))); [reflexivity|].
    cbn [le64]. apply Qle_bool_iff. rewrite Qred_correct.
    pose proof (magnitude64_nonneg _ Hnx). lra.
  - destruct (Qle_bool 0 x) eqn:Hx; destruct (Qle_bool 0 y) eqn:Hy;
      try apply Qle_bool_iff in Hx; try apply Qle_bool_iff in Hy.
    + assert (Hx' : 0 < x).
      { apply Qnot_le_lt. intro L. apply Ex0. lra. }
      pose proof (magnitude64_mono x y Hx' Hxy) as Hm.
      destruct (Qle_bool (2 ^ 1024) (magnitude64 y)) eqn:Oy.
      * now destruct (Qle_bool (2 ^ 1024) (magnitude64 x)).
      * destruct (Qle_bool (2 ^ 1024) (magnitude64 x)) eqn:Ox.
        { apply Qle_bool_iff in Ox.
          assert (L : 2 ^ 1024 <= magnitude64 y) by lra.
          apply Qle_bool_iff in L. congruence. }
        cbn [le64]. apply Qle_bool_iff. now rewrite !Qred_correct.
    + exfalso. assert (L : 0 <= y) by lra. apply Qle_bool_iff in L. congruence.
    + assert (Hnx : 0 <= - x).
      { apply Qlt_le_weak. apply Qnot_le_lt. intro L.
        assert (L' : 0 <= x) by lra. apply Qle_bool_iff in L'. congruence. }
      destruct (Qle_bool (2 ^ 1024) (magnitude64 (- x))).
      * now destruct (Qle_bool (2 ^ 1024) (magnitude64 y)).
      * destruct (Qle_bool (2 ^ 1024) (magnitude64 y)); [reflexivity|].
        cbn [le64]. apply Qle_bool_iff. rewrite !Qred_correct.
        pose proof (magnitude64_nonneg _ Hnx).
        pose proof (magnitude64_nonneg _ Hy). lra.
    + assert (Hy' : 0 < - y).
      { apply Qnot_le_lt. intro L.
        assert (L' : 0 <= y) by lra. apply Qle_bool_iff in L'. congruence. }
      assert (Hyx : - y <= - x) by lra.
      pose proof (magnitude64_mono (- y) (- x) Hy' Hyx) as Hm.
      destruct (Qle_bool (2 ^ 1024) (magnitude64 (- x))) eqn:Ox;
        [now destruct (Qle_bool (2 ^ 1024) (magnitude64 (- y)))|].
      destruct (Qle_bool (2 ^ 1024) (magnitude64 (- y))) eqn:Oy.
      { apply Qle_bool_iff in Oy.
        assert (L : 2 ^ 1024 <= magnitude64 (- x)) by lra.
        apply Qle_bool_iff in L. congruence. }
      cbn [le64]. apply Qle_bool_iff. rewrite !Qred_correct. lra.
Qed.

Lemma Qred_inject_Z z : Qred (inject_Z z) = inject_Z z.
Proof.
  unfold Qred, inject_Z.
  pose proof (Z.ggcd_gcd z 1) as Hg.
  pose proof (Z.ggcd_correct_divisors z 1) as Hd.
  destruct (Z.ggcd z 1) as [g [a b]]. cbn [fst snd] in *.
  rewrite Z.gcd_1_r in Hg. subst g. destruct Hd as [Ha Hb].
  rewrite Z.mul_1_l in Ha, Hb. now subst.
Qed.

Lemma magnitude64_Z p :
  (0 < p < 2 ^ 53)%Z -> magnitude64 (inject_Z p) == inject_Z p.
Proof.
  intros [Hp0 Hp1].
  assert (Hq : 0 < inject_Z p) by (change 0 with (inject_Z 0); now rewrite <- Zlt_Qlt).
  destruct (ilog2_spec _ Hq) as [Hl Hu].
  assert (H1 : 1 <= inject_Z p)
    by (change 1 with (inject_Z 1); rewrite <- Zle_Qle; lia).
  assert (H53 : inject_Z p < 2 ^ 53).
  { change (2 ^ 53) with (inject_Z (2 ^ 53)). now rewrite <- Zlt_Qlt. }
  assert (L0 : (0 <= ilog2 (inject_Z p))%Z).
  { destruct (Z_le_gt_dec 0 (ilog2 (inject_Z p))) as [L|G]; [exact L|].
    exfalso. assert (H : 2 ^ (ilog2 (inject_Z p) + 1) <= 2 ^ 0) by (apply pow2_le; lia).
    change (2 ^ 0) with 1 in H. lra. }
  assert (L52 : (ilog2 (inject_Z p) < 53)%Z).
  { apply (Qpower_lt_compat_l_inv 2); [lra | reflexivity]. }
  unfold magnitude64, exponent64.
  rewrite Z.max_l by lia.
  set (k := (52 - ilog2 (inject_Z p))%Z).
  replace (ilog2 (inject_Z p) - 52)%Z with (- k)%Z by (unfold k; lia).
  assert (Hk : (0 <= k)%Z) by (unfold k; lia).
  assert (Hinv : 2 ^ (- k) * 2 ^ k == 1).
  { rewrite <- pow2_add. now replace (- k + k)%Z with 0%Z by lia. }
  assert (Hint : inject_Z p / 2 ^ (- k) == inject_Z (p * 2 ^ k)).
  { rewrite inject_Z_mult, pow2_Z by exact Hk.
    apply Qmult_inj_r with (2 ^ (- k)); [pose proof (pow2_pos (- k)); lra|].
    unfold Qdiv. rewrite <- !Qmult_assoc, (Qmult_comm (/ _)), Qmult_inv_r
      by (pose proof (pow2_pos (- k)); lra).
    rewrite (Qmult_comm (2 ^ k)), Hinv. reflexivity. }
  rewrite (rne_Z _ _ Hint), inject_Z_mult, pow2_Z by exact Hk.
  rewrite <- Qmult_assoc, (Qmult_comm (2 ^ k)), Hinv. apply Qmult_1_r.
Qed.

(** Integers below 2^53 in magnitude are doubles. *)
Lemma round64_Z n :
  (Z.abs n < 2 ^ 53)%Z -> round64 (inject_Z n) = Finite (inject_Z n).
Proof.
  intro H. unfold round64. destruct n as [|p|p].
  - reflexivity.
  - assert (Hm := magnitude64_Z (Zpos p) (conj eq_refl H)).
    replace (Qeq_bool (inject_Z (Z.pos p)) 0) with false by reflexivity.
    replace (Qle_bool 0 (inject_Z (Z.pos p))) with true by reflexivity.
    replace (Qle_bool (2 ^ 1024) (magnitude64 (inject_Z (Z.pos p)))) with false.
    + now rewrite (Qred_complete _ _ Hm), Qred_inject_Z.
    + symmetry. destruct (Qle_bool _ _) eqn:E; [|reflexivity].
      apply Qle_bool_iff in E. rewrite Hm in E. exfalso.
      assert (H53 : inject_Z (Z.pos p) < 2 ^ 53).
      { change (2 ^ 53) with (inject_Z (2 ^ 53)). now rewrite <- Zlt_Qlt. }
      assert (Hp : 2 ^ 53 <= 2 ^ 1024) by (apply pow2_le; lia). lra.
  - assert (Hm := magnitude64_Z (Zpos p) (conj eq_refl H)).
    replace (Qeq_bool (inject_Z (Z.neg p)) 0) with false by reflexivity.
    replace (Qle_bool 0 (inject_Z (Z.neg p))) with false by reflexivity.
    change (- inject_Z (Z.neg p)) with (inject_Z (Z.pos p)).
    replace (Qle_bool (2 ^ 1024) (magnitude64 (inject_Z (Z.pos p)))) with false.
    + rewrite Qred_opp, (Qred_complete _ _ Hm), Qred_inject_Z. reflexivity.
    + symmetry. destruct (Qle_bool _ _) eqn:E; [|reflexivity].
      apply Qle_bool_iff in E. rewrite Hm in E. exfalso.
      assert (H53 : inject_Z (Z.pos p) < 2 ^ 53).
      { change (2 ^ 53) with (inject_Z (2 ^ 53)). now rewrite <- Zlt_Qlt. }
      assert (Hp : 2 ^ 53 <= 2 ^ 1024) by (apply pow2_le; lia). lra.
Qed.

(** The nearest double keeps the order of the decimals. *)
Lemma number_le (x y : Q) : x <= y -> le64 (number x) (number y) = true.
Proof. apply round64_mono. Qed.

Lemma number_above (x y : Q) : le64 (number y) (number x) = false -> x < y.
Proof.
  intro H. apply Qnot_le_lt. intro L.
  rewrite (number_le y x L) in H. discriminate.
Qed.

Lemma number_below (x y : Q) : lt64 (number x) (number y) = true -> x < y.
Proof.
  intro H. apply number_above.
  pose proof (round64_mono y x) as M. unfold number in *.
  destruct (round64 x) as [a| | |], (round64 y) as [b| | |];
    cbn [lt64 le64] in *; try discriminate; try reflexivity.
  now apply negb_true_iff in H.
Qed.

(** ** The increment of [placeBid] *)

Lemma round64_not_NaN q : round64 q <> NaN.
Proof.
  unfold round64.
  destruct (Qeq_bool q 0); [discriminate|].
  destruct (Qle_bool 0 q).
  - destruct (Qle_bool (2 ^ 1024) (magnitude64 q)); discriminate.
  - destruct (Qle_bool (2 ^ 1024) (magnitude64 (- q))); discriminate.
Qed.

Lemma le64_refl_round q : le64 (round64 q) (round64 q) = true.
Proof. apply round64_mono, Qle_refl. Qed.

(** [x < y] fails when [x < z] fails for some [z] not below [y]. *)
Lemma lt64_false_le64 (x y z : Number) :
  lt64 x z = false -> le64 y z = true -> lt64 x y = false.
Proof.
  destruct x as [a| | |], y as [b| | |], z as [c| | |];
    cbn [lt64 le64]; intros H1 H2; try reflexivity; try discriminate.
  apply negb_false_iff in H1. apply negb_false_iff.
  apply Qle_bool_iff in H1, H2. apply Qle_bool_iff.
  now apply Qle_trans with c.
Qed.

Lemma Qmax_cases (a b : Q) : Qmax a b = a \/ Qmax a b = b.
Proof.
  unfold Qmax, GenericMinMax.gmax. destruct (a ?= b); auto.
Qed.

Lemma number_5_percent : exists d, number (5 # 100) = Finite d /\ 0 < d.
Proof. eexists. split; [vm_compute; reflexivity | reflexivity]. Qed.

Lemma number_1 : number 1 = Finite 1.
Proof. vm_compute. reflexivity. Qed.

Section Increment.
Variable cur : Q.
Let nc := number cur.
Let t := times64 nc (number (5 # 100)).
Let inc := Math_max t (number 1).

Lemma increment_cases : inc = t \/ inc = number 1.
Proof.
  unfold inc. rewrite number_1.
  destruct t as [a| | |]; cbn [Math_max]; auto.
  destruct (Qmax_cases a 1) as [E|E]; rewrite E; auto.
Qed.

Lemma increment_above :
  le64 (plus64 nc (number 1)) (plus64 nc inc) = true
  /\ le64 (plus64 nc t) (plus64 nc inc) = true.
Proof.
  unfold inc, t. rewrite number_1.
  destruct number_5_percent as [d [Ed Hd]]. rewrite Ed.
  pose proof (round64_not_NaN cur) as Hn. fold (number cur) in Hn. fold nc in Hn.
  destruct nc as [c| | |]; [| | |contradiction].
  - cbn [times64].
    pose proof (round64_not_NaN (c * d)) as Hp.
    destruct (round64 (c * d)) as [a| | |]; [| | |contradiction];
      cbn [Math_max plus64].
    + split; apply round64_mono.
      * apply Qplus_le_r. apply Q.le_max_r.
      * apply Qplus_le_r. apply Q.le_max_l.
    + pose proof (round64_not_NaN (c + 1)) as H1.
      destruct (round64 (c + 1)); [| | |contradiction]; split; reflexivity.
    + split; [apply le64_refl_round|].
      pose proof (round64_not_NaN (c + 1)) as H1.
      destruct (round64 (c + 1)); [| | |contradiction]; reflexivity.
  - cbn [times64 sign64].
    assert (E : (d ?= 0) = Gt) by (apply Qgt_alt; exact Hd).
    rewrite E. cbn [Math_max plus64]. split; reflexivity.
  - cbn [times64 sign64].
    assert (E : (d ?= 0) = Gt) by (apply Qgt_alt; exact Hd).
    rewrite E. cbn [Math_max plus64]. split; reflexivity.
Qed.

(** Not below the sum with the increment: not below the sum with 1 and not
    below the sum with the twentieth. *)
Lemma increment_iff (x : Number) :
  lt64 x (plus64 nc inc) = false
  <-> lt64 x (plus64 nc (number 1)) = false /\ lt64 x (plus64 nc t) = false.
Proof.
  split.
  - intro H. destruct increment_above as [H1 H2].
    split; [exact (lt64_false_le64 _ _ _ H H1) | exact (lt64_false_le64 _ _ _ H H2)].
  - intros [H1 H2]. destruct increment_cases as [E|E]; rewrite E; assumption.
Qed.
End Increment.

(** ** Nullable values and rows *)

Lemma or_else_cases (x : option Q) (d : Q) :
  or_else x d = d \/ (exists v, x = Some v /\ or_else x d = v /\ ~ v == 0).
Proof.
  destruct x as [v|]; simpl; [|now left].
  destruct (Qeq_bool v 0) eqn:E; [now left|].
  right. exists v. repeat split. now apply Qeq_bool_neq.
Qed.

Lemma string_eqb_neq (a b : string) : a <> b -> String.eqb a b = false.
Proof. intro H. now apply String.eqb_neq. Qed.

Lemma single_Some {A} (l : list A) (x : A) : single l = Some x -> l = [x].
Proof.
  destruct l as [|y [|z r]]; simpl; intro H; try discriminate.
  now inversion H.
Qed.

(** ** The checks of [placeBid] *)

Section Validation.
Variables (now : Time) (auction : AuctionRow) (listing : option ListingRow).
Variables (bidderId : Id) (bidAmount : Q).

Let cur := AuctionsService.currentBid_of auction.
Let inc := AuctionsService.minIncrement_of cur.
Let verdict :=
  AuctionsService.placeBid_validate now (auction, listing) bidderId bidAmount.

Let seller := is_seller listing bidderId.

Lemma seller_test :
  (match listing with
   | Some l => String.eqb (l_seller_id l) bidderId
   | None => false
   end) = true <-> seller.
Proof.
  unfold seller, is_seller. destruct listing as [l|].
  - rewrite String.eqb_eq. split.
    + intro H. now exists l.
    + intros [l' [E H]]. now inversion E; subst.
  - split; [discriminate | intros [l' [E _]]; discriminate].
Qed.

Lemma validate_not_active :
  a_status auction <> "active"%string -> verdict = Some AuctionNotActive.
Proof.
  intro H. unfold verdict, AuctionsService.placeBid_validate.
  now rewrite (string_eqb_neq _ _ H).
Qed.

Lemma validate_expired :
  a_status auction = "active"%string -> (a_auction_end auction < now)%Z ->
  verdict = Some AuctionExpired.
Proof.
  intros Ha He. unfold verdict, AuctionsService.placeBid_validate.
  rewrite Ha. simpl. apply Z.ltb_lt in He. now rewrite He.
Qed.

Lemma validate_seller :
  a_status auction = "active"%string -> (now <= a_auction_end auction)%Z ->
  seller -> verdict = Some SelfBidNotAllowed.
Proof.
  intros Ha He Hs. unfold verdict, AuctionsService.placeBid_validate.
  rewrite Ha. simpl. apply Z.ltb_ge in He. rewrite He.
  apply seller_test in Hs. now rewrite Hs.
Qed.

Lemma validate_amount :
  a_status auction = "active"%string -> (now <= a_auction_end auction)%Z ->
  ~ seller ->
  verdict =
    if le64 (number bidAmount) (number cur) then
      Some (BidTooLow (MustBeHigherThan (toFixed2 (number cur))))
    else if lt64 (number bidAmount) (plus64 (number cur) inc) then
      Some (BidTooLow (MustIncreaseBy (toFixed2 inc)))
    else None.
Proof.
  intros Ha He Hs. unfold verdict, AuctionsService.placeBid_validate.
  rewrite Ha. simpl. apply Z.ltb_ge in He. rewrite He.
  destruct (match listing with
            | Some l => String.eqb (l_seller_id l) bidderId
            | None => false
            end) eqn:E.
  - exfalso. apply Hs. now apply seller_test.
  - reflexivity.
Qed.

Lemma validate_admits_iff :
  a_status auction = "active"%string -> (now <= a_auction_end auction)%Z ->
  ~ seller ->
  (verdict = None <-> raises cur bidAmount).
Proof.
  intros Ha He Hs. rewrite (validate_amount Ha He Hs).
  unfold raises, AuctionsService.leastBid_of. fold inc.
  destruct (le64 (number bidAmount) (number cur)).
  - split; [discriminate | intros [H _]; discriminate].
  - destruct (lt64 (number bidAmount) (plus64 (number cur) inc)).
    + split; [discriminate | intros [_ H]; discriminate].
    + now split.
Qed.

End Validation.

(** A bid turned down by the checks leaves the store as it was. *)
Lemma placeBid_rejected fl now bidId db auctionId bidderId bidAmount currency s e :
  AuctionsService.placeBid_read fl db auctionId = Some s ->
  AuctionsService.placeBid_validate now s bidderId bidAmount = Some e ->
  AuctionsService.placeBid fl now bidId db auctionId bidderId bidAmount currency
  = (db, Err e).
Proof.
  intros Hr Hv. unfold AuctionsService.placeBid. now rewrite Hr, Hv.
Qed.

(** With the store answering, an admitted bid is accepted. *)
Lemma placeBid_admitted now bidId db auctionId bidderId bidAmount currency s :
  AuctionsService.placeBid_read no_faults db auctionId = Some s ->
  AuctionsService.placeBid_validate now s bidderId bidAmount = None ->
  is_ok (snd (AuctionsService.placeBid no_faults now bidId db auctionId bidderId
                bidAmount currency)) = true.
Proof.
  intros Hr Hv. unfold AuctionsService.placeBid. now rewrite Hr, Hv.
Qed.

(** [ListingsService.placeBid] has no increment: with the store answering,
    it accepts exactly the amounts that are, as numbers, above the current
    price. *)
Lemma listings_placeBid_accepts now db listingId userId amount listing :
  single (select_listings db listingId) = Some listing ->
  ListingsService.placeBid_validate now listing userId = None ->
  (is_ok (snd (ListingsService.placeBid no_faults now db listingId userId amount))
   = true
   <-> le64 (number amount)
            (number (or_else (option_map lb_amount
                                (top_by lb_amount (listing_bids_of db listingId)))
                             (l_price_amount listing))) = false).
Proof.
  intros Hs Hv. unfold ListingsService.placeBid. cbn [no_faults].
  rewrite Hs, Hv.
  destruct (le64 (number amount) _) eqn:E; cbn [snd is_ok].
  - split; discriminate.
  - now split.
Qed.

Lemma listings_placeBid_seller fl now db listingId userId amount listing :
  fl 0%nat = false ->
  single (select_listings db listingId) = Some listing ->
  l_listing_type listing = "auction"%string ->
  l_seller_id listing = userId ->
  ListingsService.placeBid fl now db listingId userId amount
  = (db, Err SelfBidNotAllowed).
Proof.
  intros H0 Hs Ht Hu. unfold ListingsService.placeBid. rewrite H0, Hs.
  unfold ListingsService.placeBid_validate. rewrite Ht. simpl.
  apply String.eqb_eq in Hu. now rewrite Hu.
Qed.

Lemma example_db_read :
  AuctionsService.placeBid_read no_faults example_db "A1"
  = Some (example_auction, Some example_listing).
Proof. reflexivity. Qed.

Lemma example_not_seller : ~ is_seller (Some example_listing) "u1".
Proof. intros [l [E H]]. inversion E; subst. discriminate. Qed.

(** C9, amended.  [AuctionsService.placeBid] checks, in this order and
    stopping at the first failure: the status is 'active' (AuctionNotActive);
    the end is not before now, so that a bid at the very instant of the end
    passes (AuctionExpired); the bidder is not the seller
    (SelfBidNotAllowed); the amount is above the current bid, then not below
    the current bid plus the increment (BidTooLow for both).  The two amount
    checks compare JavaScript numbers: the doubles nearest to the amounts,
    with the increment and the sum rounded in turn; an amount that is not
    above the current bid as a decimal fails the first of them.
    [ListingsService.placeBid] checks the listing type, then the seller,
    then the end. *)
Theorem placeBid_checks_in_order :
  forall now auction listing bidderId bidAmount,
    let cur := AuctionsService.currentBid_of auction in
    let inc := AuctionsService.minIncrement_of cur in
    let verdict :=
      AuctionsService.placeBid_validate now (auction, listing) bidderId bidAmount in
    (a_status auction <> "active"%string -> verdict = Some AuctionNotActive)
    /\ (a_status auction = "active"%string -> (a_auction_end auction < now)%Z ->
        verdict = Some AuctionExpired)
    /\ (a_status auction = "active"%string -> (now <= a_auction_end auction)%Z ->
        is_seller listing bidderId -> verdict = Some SelfBidNotAllowed)
    /\ (a_status auction = "active"%string -> (now <= a_auction_end auction)%Z ->
        ~ is_seller listing bidderId ->
        le64 (number bidAmount) (number cur) = true ->
        verdict = Some (BidTooLow (MustBeHigherThan (toFixed2 (number cur)))))
    /\ (a_status auction = "active"%string -> (now <= a_auction_end auction)%Z ->
        ~ is_seller listing bidderId -> bidAmount <= cur ->
        verdict = Some (BidTooLow (MustBeHigherThan (toFixed2 (number cur)))))
    /\ (a_status auction = "active"%string -> (now <= a_auction_end auction)%Z ->
        ~ is_seller listing bidderId ->
        le64 (number bidAmount) (number cur) = false ->
        lt64 (number bidAmount) (plus64 (number cur) inc) = true ->
        verdict = Some (BidTooLow (MustIncreaseBy (toFixed2 inc))))
    /\ (a_status auction = "active"%string -> (now <= a_auction_end auction)%Z ->
        ~ is_seller listing bidderId ->
        le64 (number bidAmount) (number cur) = false ->
        lt64 (number bidAmount) (plus64 (number cur) inc) = false ->
        verdict = None)
    /\ (forall l userId,
          let v := ListingsService.placeBid_validate now l userId in
          (l_listing_type l <> "auction"%string -> v = Some NotAnAuction)
          /\ (l_listing_type l = "auction"%string -> l_seller_id l = userId ->
              v = Some SelfBidNotAllowed)
          /\ (l_listing_type l = "auction"%string -> l_seller_id l <> userId ->
              (exists e, l_auction_end l = Some e /\ (e < now)%Z) ->
              v = Some AuctionExpired)
          /\ (l_listing_type l = "auction"%string -> l_seller_id l <> userId ->
              (forall e, l_auction_end l = Some e -> (now <= e)%Z) ->
              v = None)).
Proof.
  intros now auction listing bidderId bidAmount cur inc verdict.
  assert (Hv := validate_amount now auction listing bidderId bidAmount).
  fold cur inc verdict in Hv.
  split; [apply validate_not_active|].
  split; [apply validate_expired|].
  split; [apply validate_seller|].
  split; [intros Ha He Hs Hc; rewrite (Hv Ha He Hs), Hc; reflexivity|].
  split.
  { intros Ha He Hs Hc. rewrite (Hv Ha He Hs), (number_le _ _ Hc). reflexivity. }
  split; [intros Ha He Hs Hc Hi; rewrite (Hv Ha He Hs), Hc, Hi; reflexivity|].
  split; [intros Ha He Hs Hc Hi; rewrite (Hv Ha He Hs), Hc, Hi; reflexivity|].
  intros l userId v. unfold v. split; [|split; [|split]].
  - intro H. unfold ListingsService.placeBid_validate.
    now rewrite (string_eqb_neq _ _ H).
  - intros Ht Hs. unfold ListingsService.placeBid_validate.
    rewrite Ht. simpl. apply String.eqb_eq in Hs. now rewrite Hs.
  - intros Ht Hs [e [He Hlt]]. unfold ListingsService.placeBid_validate.
    rewrite Ht, He. simpl. rewrite (string_eqb_neq _ _ Hs).
    apply Z.ltb_lt in Hlt. now rewrite Hlt.
  - intros Ht Hs He. unfold ListingsService.placeBid_validate.
    rewrite Ht. simpl. rewrite (string_eqb_neq _ _ Hs).
    destruct (l_auction_end l) as [e|]; [|reflexivity].
    specialize (He e eq_refl). apply Z.ltb_ge in He. now rewrite He.
Qed.

(** At the instant of the end, [now < endTime] is violated and the bid is
    admitted all the same; and [ListingsService.placeBid] answers
    SelfBidNotAllowed to a seller bidding after the end. *)
Lemma placeBid_checks_in_order_counterexample :
  ~ (1000 < a_auction_end example_auction)%Z
  /\ AuctionsService.placeBid_validate 1000
       (example_auction, Some example_listing) "u1" 105 = None
  /\ is_ok (snd (AuctionsService.placeBid no_faults 1000 "b1" example_db "A1" "u1"
                   105 "USD")) = true
  /\ ListingsService.placeBid_validate 2000
       (mkListing "L1" "seller" "auction" (Some 1000%Z) 100 "active" 0) "seller"
     = Some SelfBidNotAllowed.
Proof.
  split; [simpl; lia|]. repeat split; reflexivity.
Qed.

(** C3, amended.  For a bid on an active auction whose end is not before
    now, by a bidder who is not the seller, and with the store answering:
    the bid is accepted if and only if, as JavaScript numbers, the amount is
    above [currentBid] and not below [currentBid + minIncrement], with
    [minIncrement = Math.max(currentBid * 0.05, 1)]; the amounts are the
    doubles nearest to the decimals, and the product and the sum are rounded
    to doubles in turn.  That is: the amount is above [currentBid], not below
    [currentBid + 1] and not below [currentBid + currentBid * 0.05], as
    numbers.  An accepted amount is above the current bid as a decimal, and
    an amount not above it is turned down.  The BidTooLow error
    carries [currentBid.toFixed(2)] when the amount is not above the
    current bid, and [minIncrement.toFixed(2)] otherwise; it does not carry
    [currentBid + minIncrement].  [ListingsService.placeBid] has no
    increment: it accepts exactly the amounts that are, as numbers, above
    the current price of the listing. *)
Theorem placeBid_minimum_increment :
  forall now bidId db auctionId bidderId bidAmount currency auction listing,
    AuctionsService.placeBid_read no_faults db auctionId = Some (auction, listing) ->
    a_status auction = "active"%string ->
    (now <= a_auction_end auction)%Z ->
    ~ is_seller listing bidderId ->
    let cur := AuctionsService.currentBid_of auction in
    let inc := Math_max (times64 (number cur) (number (5 # 100))) (number 1) in
    let least := plus64 (number cur) inc in
    let out := AuctionsService.placeBid no_faults now bidId db auctionId bidderId
                 bidAmount currency in
    (is_ok (snd out) = true
     <-> le64 (number bidAmount) (number cur) = false
         /\ lt64 (number bidAmount) least = false)
    /\ (is_ok (snd out) = true
        <-> le64 (number bidAmount) (number cur) = false
            /\ lt64 (number bidAmount) (plus64 (number cur) (number 1)) = false
            /\ lt64 (number bidAmount)
                    (plus64 (number cur)
                       (times64 (number cur) (number (5 # 100)))) = false)
    /\ (is_ok (snd out) = true -> cur < bidAmount)
    /\ (le64 (number bidAmount) (number cur) = true ->
        out = (db, Err (BidTooLow (MustBeHigherThan (toFixed2 (number cur))))))
    /\ (bidAmount <= cur ->
        out = (db, Err (BidTooLow (MustBeHigherThan (toFixed2 (number cur))))))
    /\ (le64 (number bidAmount) (number cur) = false ->
        lt64 (number bidAmount) least = true ->
        out = (db, Err (BidTooLow (MustIncreaseBy (toFixed2 inc)))))
    /\ (forall listingId userId amount l,
          single (select_listings db listingId) = Some l ->
          ListingsService.placeBid_validate now l userId = None ->
          let currentPrice :=
            or_else (option_map lb_amount
                       (top_by lb_amount (listing_bids_of db listingId)))
                    (l_price_amount l) in
          let res := snd (ListingsService.placeBid no_faults now db listingId
                            userId amount) in
          (is_ok res = true <-> le64 (number amount) (number currentPrice) = false)
          /\ (is_ok res = true -> currentPrice < amount)).
Proof.
  intros now bidId db auctionId bidderId bidAmount currency auction listing
         Hr Ha He Hs cur inc least out.
  pose proof (validate_admits_iff now auction listing bidderId bidAmount Ha He Hs)
    as Hiff.
  pose proof (validate_amount now auction listing bidderId bidAmount Ha He Hs)
    as Hv.
  fold cur in Hiff, Hv.
  change (AuctionsService.minIncrement_of cur) with inc in Hv.
  change (plus64 (number cur) inc) with least in Hv.
  change (raises cur bidAmount)
    with (le64 (number bidAmount) (number cur) = false
          /\ lt64 (number bidAmount) least = false) in Hiff.
  assert (Hlow : le64 (number bidAmount) (number cur) = true ->
                 out = (db, Err (BidTooLow (MustBeHigherThan
                                              (toFixed2 (number cur)))))).
  { intro Hc. rewrite Hc in Hv.
    unfold out. now apply placeBid_rejected with (s := (auction, listing)). }
  assert (Hmid : le64 (number bidAmount) (number cur) = false ->
                 lt64 (number bidAmount) least = true ->
                 out = (db, Err (BidTooLow (MustIncreaseBy (toFixed2 inc))))).
  { intros Hc Hi. rewrite Hc, Hi in Hv.
    unfold out. now apply placeBid_rejected with (s := (auction, listing)). }
  assert (Hacc : is_ok (snd out) = true
                 <-> le64 (number bidAmount) (number cur) = false
                     /\ lt64 (number bidAmount) least = false).
  { split.
    - intro Hok.
      destruct (le64 (number bidAmount) (number cur)) eqn:Hc.
      + rewrite (Hlow eq_refl) in Hok. discriminate.
      + destruct (lt64 (number bidAmount) least) eqn:Hi; [|now split].
        rewrite (Hmid eq_refl eq_refl) in Hok. discriminate.
    - intro H. apply Hiff in H. unfold out.
      now apply placeBid_admitted with (s := (auction, listing)). }
  split; [exact Hacc|].
  split.
  { rewrite Hacc. unfold least, inc.
    rewrite (increment_iff cur (number bidAmount)). tauto. }
  split; [intro Hok; apply Hacc in Hok; apply number_above; tauto|].
  split; [exact Hlow|].
  split; [intro Hc; apply Hlow; now apply number_le|].
  split; [exact Hmid|].
  intros listingId userId amount l Hl Hval currentPrice res.
  pose proof (listings_placeBid_accepts now db listingId userId amount l Hl Hval)
    as Hlist.
  fold currentPrice res in Hlist.
  split; [exact Hlist|].
  intro Hok. apply Hlist in Hok. now apply number_above.
Qed.

(** The theorem at auction ["A1"]: current bid 100, increment 5, bid 105. *)
Lemma placeBid_minimum_increment_witness :
  is_ok (snd (AuctionsService.placeBid no_faults 500 "b1" example_db "A1" "u1"
                105 "USD")) = true.
Proof.
  assert (He : (500 <= a_auction_end example_auction)%Z) by (simpl; lia).
  destruct (placeBid_minimum_increment 500 "b1" example_db "A1" "u1" 105 "USD"
              example_auction (Some example_listing) example_db_read eq_refl
              He example_not_seller) as [H _].
  apply H. split; vm_compute; reflexivity.
Defined.

(** A bid of 104 on a current bid of 100 is turned down with a message that
    carries 5.00, the increment, and not 105, the least acceptable amount.
    On a current bid of 20.6 the increment is 1.03 and the sum 21.63 as
    decimals, and a bid of 21.63 is turned down, with 1.03 in the message:
    the sum of the doubles is above the double of 21.63.  On a current bid
    of 10^15 the increment is 5 * 10^13, and the amount one cent below the
    sum is accepted.  [ListingsService.placeBid] accepts 101 on a price of
    100. *)
Lemma placeBid_minimum_increment_counterexample :
  snd (AuctionsService.placeBid no_faults 500 "b1" example_db "A1" "u1" 104 "USD")
  = Err (BidTooLow (MustIncreaseBy (Fixed2 false 500)))
  /\ map AuctionsService.currentBid_of (select_auctions (example_priced_db (206 # 10)) "A1")
     = [206 # 10]
  /\ (206 # 10) + Qmax ((206 # 10) * (5 # 100)) 1 == 2163 # 100
  /\ snd (AuctionsService.placeBid no_faults 500 "b1" (example_priced_db (206 # 10))
            "A1" "u1" (2163 # 100) "USD")
     = Err (BidTooLow (MustIncreaseBy (Fixed2 false 103)))
  /\ map AuctionsService.currentBid_of
         (select_auctions (example_priced_db (10 ^ 15)) "A1")
     = [10 ^ 15]
  /\ 10 ^ 15 + Qmax (10 ^ 15 * (5 # 100)) 1 - (1 # 100)
     < 10 ^ 15 + Qmax (10 ^ 15 * (5 # 100)) 1
  /\ is_ok (snd (AuctionsService.placeBid no_faults 500 "b1"
                   (example_priced_db (10 ^ 15)) "A1" "u1"
                   (10 ^ 15 + Qmax (10 ^ 15 * (5 # 100)) 1 - (1 # 100)) "USD"))
     = true
  /\ map l_price_amount (select_listings example_db "L1") = [100]
  /\ is_ok (snd (ListingsService.placeBid no_faults 500 example_db "L1" "u1" 101))
     = true.
Proof.
  repeat split; vm_compute; reflexivity.
Qed.

(** C8, amended.  A bid by the seller of the auction's listing is turned
    down whatever the amount, and the store is left as it was; the error is
    SelfBidNotAllowed when the auction is active and its end is not before
    now, AuctionNotActive when it is not active, AuctionExpired when it is
    active and its end is before now.  [ListingsService.placeBid] answers
    SelfBidNotAllowed to the seller of an auction listing, whatever the
    amount. *)
Theorem seller_bid_rejected :
  forall fl now bidId db auctionId bidderId bidAmount currency auction listing,
    AuctionsService.placeBid_read fl db auctionId = Some (auction, listing) ->
    is_seller listing bidderId ->
    let out := AuctionsService.placeBid fl now bidId db auctionId bidderId
                 bidAmount currency in
    (a_status auction <> "active"%string -> out = (db, Err AuctionNotActive))
    /\ (a_status auction = "active"%string -> (a_auction_end auction < now)%Z ->
        out = (db, Err AuctionExpired))
    /\ (a_status auction = "active"%string -> (now <= a_auction_end auction)%Z ->
        out = (db, Err SelfBidNotAllowed))
    /\ (forall listingId l,
          fl 0%nat = false ->
          single (select_listings db listingId) = Some l ->
          l_listing_type l = "auction"%string ->
          l_seller_id l = bidderId ->
          ListingsService.placeBid fl now db listingId bidderId bidAmount
          = (db, Err SelfBidNotAllowed)).
Proof.
  intros fl now bidId db auctionId bidderId bidAmount currency auction listing
         Hr Hs out.
  split; [|split; [|split]].
  - intro H. unfold out.
    apply placeBid_rejected with (s := (auction, listing)); [exact Hr|].
    now apply validate_not_active.
  - intros Ha He. unfold out.
    apply placeBid_rejected with (s := (auction, listing)); [exact Hr|].
    now apply validate_expired.
  - intros Ha He. unfold out.
    apply placeBid_rejected with (s := (auction, listing)); [exact Hr|].
    now apply validate_seller.
  - intros listingId l. apply listings_placeBid_seller.
Qed.

Lemma example_is_seller : is_seller (Some example_listing) "seller".
Proof. exists example_listing. split; reflexivity. Qed.

(** The theorem at auction ["A1"], for a large amount offered by the seller. *)
Lemma seller_bid_rejected_witness :
  AuctionsService.placeBid no_faults 500 "b9" example_db "A1" "seller" 1000000 "USD"
  = (example_db, Err SelfBidNotAllowed).
Proof.
  destruct (seller_bid_rejected no_faults 500 "b9" example_db "A1" "seller"
              1000000 "USD" example_auction (Some example_listing)
              example_db_read example_is_seller) as [_ [_ [H _]]].
  apply H; [reflexivity | simpl; lia].
Defined.

(** After the end of the auction the seller's bid is answered with
    AuctionExpired. *)
Lemma seller_bid_rejected_counterexample :
  option_map (fun s => option_map l_seller_id (snd s))
    (AuctionsService.placeBid_read no_faults example_db "A1")
  = Some (Some "seller"%string)
  /\ snd (AuctionsService.placeBid no_faults 2000 "b9" example_db "A1" "seller"
            500 "USD")
     = Err AuctionExpired
  /\ Err (A := BidRow) AuctionExpired <> Err SelfBidNotAllowed.
Proof.
  split; [reflexivity|]. split; [reflexivity|]. discriminate.
Qed.

(** ** Updates by identifier *)

Lemma filter_map_update (id : Id) (f : AuctionRow -> AuctionRow)
    (l : list AuctionRow) :
  (forall a, a_id (f a) = a_id a) ->
  filter (fun a => String.eqb (a_id a) id)
         (map (fun a => if String.eqb (a_id a) id then f a else a) l)
  = map f (filter (fun a => String.eqb (a_id a) id) l).
Proof.
  intro Hid. induction l as [|a l IH]; [reflexivity|].
  simpl. destruct (String.eqb (a_id a) id) eqn:E.
  - rewrite Hid, E. simpl. now rewrite IH.
  - rewrite E. exact IH.
Qed.

Lemma filter_map_update_other (id id' : Id) (f : AuctionRow -> AuctionRow)
    (l : list AuctionRow) :
  (forall a, a_id (f a) = a_id a) -> id <> id' ->
  filter (fun a => String.eqb (a_id a) id')
         (map (fun a => if String.eqb (a_id a) id then f a else a) l)
  = filter (fun a => String.eqb (a_id a) id') l.
Proof.
  intros Hid Hne. induction l as [|a l IH]; [reflexivity|].
  simpl. destruct (String.eqb (a_id a) id) eqn:E.
  - rewrite Hid. apply String.eqb_eq in E.
    assert (E' : String.eqb (a_id a) id' = false)
      by (apply String.eqb_neq; congruence).
    rewrite E'. exact IH.
  - destruct (String.eqb (a_id a) id'); [now rewrite IH | exact IH].
Qed.

Lemma select_update_same db id f :
  (forall a, a_id (f a) = a_id a) ->
  select_auctions (update_auctions db id f) id = map f (select_auctions db id).
Proof. intro H. unfold select_auctions. simpl. now apply filter_map_update. Qed.

Lemma select_update_other db id id' f :
  (forall a, a_id (f a) = a_id a) -> id <> id' ->
  select_auctions (update_auctions db id f) id' = select_auctions db id'.
Proof.
  intros H Hne. unfold select_auctions. simpl.
  now apply filter_map_update_other.
Qed.

Lemma single_map {A B} (f : A -> B) (l : list A) :
  single (map f l) = option_map f (single l).
Proof. destruct l as [|x [|y r]]; reflexivity. Qed.

(** ** [extendAuction] *)

(** The new end for a whole number of minutes: the sum is exact. *)
Lemma newEndTime_of_Z (currentEnd m : Z) :
  (Z.abs (m * 60000) < 2 ^ 53)%Z ->
  AuctionsService.newEndTime_of currentEnd (Finite (inject_Z m))
  = round64 (inject_Z (currentEnd + m * 60000)).
Proof.
  intro Hm. unfold AuctionsService.newEndTime_of.
  cbn [times64].
  change (inject_Z m * 60000) with (inject_Z (m * 60000)).
  rewrite (round64_Z _ Hm). cbn [plus64].
  unfold Qplus. cbn [Qnum Qden inject_Z].
  now rewrite !Z.mul_1_r.
Qed.

Lemma TimeClip_Z (s : Z) :
  (Z.abs s <= 8640000000000000)%Z -> TimeClip (round64 (inject_Z s)) = Some s.
Proof.
  intro Hs. rewrite round64_Z by lia. unfold TimeClip.
  assert (E : Qle_bool (Qabs (inject_Z s)) 8640000000000000 = true).
  { apply Qle_bool_iff. change (Qabs (inject_Z s)) with (inject_Z (Z.abs s)).
    change 8640000000000000 with (inject_Z 8640000000000000).
    now rewrite <- Zle_Qle. }
  rewrite E, Qfloor_Z, Qceiling_Z. now destruct (Qle_bool 0 (inject_Z s)).
Qed.

Lemma TimeClip_beyond (s : Z) :
  (8640000000000000 < Z.abs s)%Z -> TimeClip (round64 (inject_Z s)) = None.
Proof.
  intro Hs.
  destruct (round64 (inject_Z s)) as [q| | |] eqn:E; try reflexivity.
  unfold TimeClip.
  destruct (Qle_bool (Qabs q) 8640000000000000) eqn:L; [|reflexivity].
  exfalso. apply Qle_bool_iff in L.
  destruct (Z_lt_le_dec s 0) as [Hneg|Hpos].
  - assert (Hle : inject_Z s <= inject_Z (-8640000000000001))
      by (rewrite <- Zle_Qle; lia).
    apply round64_mono in Hle. rewrite E, round64_Z in Hle by (vm_compute; reflexivity).
    cbn [le64] in Hle. apply Qle_bool_iff in Hle.
    assert (Ha := Qle_Qabs (- q)). rewrite Qabs_opp in Ha.
    change (inject_Z (-8640000000000001)) with (- 8640000000000001) in Hle. lra.
  - assert (Hle : inject_Z 8640000000000001 <= inject_Z s)
      by (rewrite <- Zle_Qle; lia).
    apply round64_mono in Hle. rewrite E, round64_Z in Hle by (vm_compute; reflexivity).
    cbn [le64] in Hle. apply Qle_bool_iff in Hle.
    assert (Ha := Qle_Qabs q).
    change (inject_Z 8640000000000001) with 8640000000000001 in Hle. lra.
Qed.

(** C10, amended.  On an existing auction, [extendAuction] fails when the
    status is not 'active' and fails when [additionalMinutes] is, as a
    number, above 1440.  Otherwise the new end is the Date of
    [currentEnd + additionalMinutes * 60000]: when that is an Invalid Date,
    [toISOString()] throws a RangeError and the store is left as it was;
    when it is a Date, the store answering, the end is set to it and the
    current bid, the bid count and the status are left as they were.  For a
    whole number [m] of minutes with [|m * 60000| < 2^53] and a stored end
    within the range of Date, the new end is the previous end plus
    [m * 60000] milliseconds when that is within 8.64e15 milliseconds of the
    epoch, and an Invalid Date otherwise. *)
Theorem extendAuction_spec :
  forall fl now db auctionId additionalMinutes auction,
    fl 0%nat = false ->
    single (select_auctions db auctionId) = Some auction ->
    let out := AuctionsService.extendAuction fl now db auctionId additionalMinutes in
    let newEndTime :=
      TimeClip (AuctionsService.newEndTime_of (a_auction_end auction)
                  additionalMinutes) in
    (a_status auction <> "active"%string ->
     out = (db, Err OnlyActiveCanBeExtended))
    /\ (a_status auction = "active"%string ->
        lt64 (Finite 1440) additionalMinutes = true ->
        out = (db, Err (ExtensionTooLong 1440)))
    /\ (a_status auction = "active"%string ->
        lt64 (Finite 1440) additionalMinutes = false ->
        newEndTime = None ->
        out = (db, Err InvalidTimeValue))
    /\ (a_status auction = "active"%string ->
        lt64 (Finite 1440) additionalMinutes = false ->
        fl 1%nat = false ->
        forall e, newEndTime = Some e ->
        exists auction',
          snd out = Ok auction'
          /\ single (select_auctions (fst out) auctionId) = Some auction'
          /\ a_auction_end auction' = e
          /\ a_current_bid auction' = a_current_bid auction
          /\ a_bid_count auction' = a_bid_count auction
          /\ a_status auction' = a_status auction
          /\ bids (fst out) = bids db
          /\ (forall id', id' <> auctionId ->
                select_auctions (fst out) id' = select_auctions db id'))
    /\ (forall m : Z,
          additionalMinutes = Finite (inject_Z m) ->
          (Z.abs (m * 60000) < 2 ^ 53)%Z ->
          (Z.abs (a_auction_end auction) <= 8640000000000000)%Z ->
          (lt64 (Finite 1440) additionalMinutes = true <-> (1440 < m)%Z)
          /\ ((Z.abs (a_auction_end auction + m * 60000) <= 8640000000000000)%Z ->
              newEndTime = Some (a_auction_end auction + m * 60000)%Z)
          /\ ((8640000000000000 < Z.abs (a_auction_end auction + m * 60000))%Z ->
              newEndTime = None)).
Proof.
  intros fl now db auctionId additionalMinutes auction H0 Hsel out newEndTime.
  unfold out, AuctionsService.extendAuction. rewrite H0, Hsel.
  fold newEndTime.
  split; [|split; [|split; [|split]]].
  - intro Hs. now rewrite (string_eqb_neq _ _ Hs).
  - intros Hs Hm. rewrite Hs. cbn [String.eqb negb].
    replace (String.eqb "active" "active") with true by reflexivity.
    cbn [negb]. change (inject_Z (24 * 60)) with 1440. now rewrite Hm.
  - intros Hs Hm He. rewrite Hs.
    replace (String.eqb "active" "active") with true by reflexivity.
    cbn [negb]. change (inject_Z (24 * 60)) with 1440. now rewrite Hm, He.
  - intros Hs Hm H1 e He. rewrite Hs.
    replace (String.eqb "active" "active") with true by reflexivity.
    cbn [negb]. change (inject_Z (24 * 60)) with 1440. rewrite Hm, He, H1.
    exists (set_auction_end e now auction).
    cbn [fst snd]. rewrite select_update_same by reflexivity.
    rewrite single_map, Hsel. simpl.
    repeat (split; [first [reflexivity | exact Hs]|]).
    intros id' Hne. apply select_update_other; [reflexivity | congruence].
  - intros m Em Hm _. subst additionalMinutes. split; [|split].
    + cbn [lt64]. rewrite negb_true_iff, Qle_bool_false_iff.
      change 1440 with (inject_Z 1440). now rewrite <- Zlt_Qlt.
    + intro Hr. unfold newEndTime. rewrite newEndTime_of_Z by exact Hm.
      now apply TimeClip_Z.
    + intro Hr. unfold newEndTime. rewrite newEndTime_of_Z by exact Hm.
      now apply TimeClip_beyond.
Qed.

(** The theorem at auction ["A1"], extended by 30 minutes at instant 500. *)
Lemma extendAuction_spec_witness :
  exists auction',
    snd (AuctionsService.extendAuction no_faults 500 example_db "A1" (Finite 30))
    = Ok auction'
    /\ a_auction_end auction' = (1000 + 30 * 60000)%Z.
Proof.
  destruct (extendAuction_spec no_faults 500 example_db "A1" (Finite 30)
              example_auction eq_refl eq_refl) as [_ [_ [_ [H _]]]].
  destruct (H eq_refl eq_refl eq_refl (1000 + 30 * 60000)%Z eq_refl)
    as [a' [Hr [_ [He _]]]].
  exists a'. split; [exact Hr | exact He].
Defined.

(** On auction ["A1"], of end 1000: [-200000000000] minutes pass the cap
    and give an Invalid Date, so that the call throws a RangeError and the
    end stays where it was; [NaN] minutes do the same; and a hundred
    thousandth of a minute, 0.6 milliseconds, leaves the end at 1000. *)
Lemma extendAuction_spec_counterexample :
  map a_auction_end (select_auctions example_db "A1") = [1000%Z]
  /\ map a_status (select_auctions example_db "A1") = ["active"%string]
  /\ AuctionsService.extendAuction no_faults 500 example_db "A1"
       (Finite (-200000000000))
     = (example_db, Err InvalidTimeValue)
  /\ AuctionsService.extendAuction no_faults 500 example_db "A1" NaN
     = (example_db, Err InvalidTimeValue)
  /\ (exists auction',
        snd (AuctionsService.extendAuction no_faults 500 example_db "A1"
               (number (1 # 100000))) = Ok auction'
        /\ a_auction_end auction' = 1000%Z).
Proof.
  split; [reflexivity|]. split; [reflexivity|].
  split; [vm_compute; reflexivity|]. split; [vm_compute; reflexivity|].
  eexists. split; vm_compute; reflexivity.
Qed.

(** ** The highest bid *)

Lemma top_by_None {A} (key : A -> Q) (l : list A) :
  top_by key l = None <-> l = [].
Proof.
  destruct l as [|x r]; simpl; [tauto|].
  split; [|discriminate].
  destruct (top_by key r) as [y|]; [|discriminate].
  destruct (Qle_bool (key y) (key x)); discriminate.
Qed.

Lemma top_by_In {A} (key : A -> Q) (l : list A) (x : A) :
  top_by key l = Some x -> In x l.
Proof.
  revert x. induction l as [|y r IH]; simpl; intros x H; [discriminate|].
  destruct (top_by key r) as [z|].
  - destruct (Qle_bool (key z) (key y)); inversion H; subst; auto.
  - inversion H. now left.
Qed.

Lemma top_by_max {A} (key : A -> Q) (l : list A) (x : A) :
  top_by key l = Some x -> forall y, In y l -> key y <= key x.
Proof.
  revert x. induction l as [|z r IH]; simpl; intros x H y Hy; [contradiction|].
  destruct (top_by key r) as [t|] eqn:E.
  - destruct (Qle_bool (key t) (key z)) eqn:L; injection H as Hx; subst x.
    + apply Qle_bool_iff in L. destruct Hy as [Hy|Hy]; [subst y; apply Qle_refl|].
      apply Qle_trans with (key t); [now apply IH | exact L].
    + destruct Hy as [Hy|Hy]; [subst y|now apply IH].
      apply Qlt_le_weak. now apply (Qle_bool_false_iff (key t) (key z)).
  - injection H as Hx; subst x. apply top_by_None in E. subst r.
    destruct Hy as [Hy|[]]. subst y. apply Qle_refl.
Qed.


(** ** Marking bids *)

Lemma mark_auction_id hid b : b_auction_id (mark hid b) = b_auction_id b.
Proof. unfold mark. now destruct (String.eqb (b_id b) hid). Qed.

Lemma mark_id hid b : b_id (mark hid b) = b_id b.
Proof. unfold mark. now destruct (String.eqb (b_id b) hid). Qed.

Lemma mark_amount hid b : b_bid_amount (mark hid b) = b_bid_amount b.
Proof. unfold mark. now destruct (String.eqb (b_id b) hid). Qed.



Lemma update_bids_mark db hid :
  update_bids db hid set_is_winning
  = mkDB (auctions db) (map (mark hid) (bids db)) (listings db) (listing_bids db).
Proof. reflexivity. Qed.

Lemma filter_map_auction_id (g : BidRow -> BidRow) (id : Id) (l : list BidRow) :
  (forall b, b_auction_id (g b) = b_auction_id b) ->
  filter (fun b => String.eqb (b_auction_id b) id) (map g l)
  = map g (filter (fun b => String.eqb (b_auction_id b) id) l).
Proof.
  intro H. induction l as [|b r IH]; [reflexivity|].
  simpl. rewrite H. destruct (String.eqb (b_auction_id b) id); simpl; now rewrite IH.
Qed.

Lemma bids_of_mark db hid id :
  bids_of (update_bids db hid set_is_winning) id = map (mark hid) (bids_of db id).
Proof.
  unfold bids_of. rewrite update_bids_mark. simpl.
  apply filter_map_auction_id. intro b. apply mark_auction_id.
Qed.

(** ** [endAuction] *)

Ltac case_split :=
  repeat match goal with
         | |- context [if ?c then _ else _] => destruct c eqn:?
         | |- context [match ?x with Some _ => _ | None => _ end] =>
             destruct x eqn:?
         end.

Lemma updateData_id hb now a :
  a_id (AuctionsService.endAuction_updateData hb now a) = a_id a.
Proof. now destruct hb. Qed.

(** What [endAuction] can do to the tables, whatever fails. *)
Lemma endAuction_shape fl now db id :
  let d := fst (AuctionsService.endAuction fl now db id) in
  (auctions d = auctions db
   \/ exists hb,
        auctions d
        = map (fun a => if String.eqb (a_id a) id
                        then AuctionsService.endAuction_updateData hb now a
                        else a) (auctions db))
  /\ (bids d = bids db \/ exists hid, bids d = map (mark hid) (bids db))
  /\ listing_bids d = listing_bids db.
Proof.
  unfold AuctionsService.endAuction.
  case_split; simpl; (split; [|split]);
    first [ reflexivity
          | left; reflexivity
          | right; exists None; reflexivity
          | right;
            match goal with
            | H : top_by _ _ = Some ?b |- _ => exists (Some b); reflexivity
            end
          | right;
            match goal with
            | H : top_by _ _ = Some ?b |- _ => exists (b_id b); reflexivity
            end ].
Qed.

Lemma endAuction_select_other fl now db id id' :
  id <> id' ->
  select_auctions (fst (AuctionsService.endAuction fl now db id)) id'
  = select_auctions db id'.
Proof.
  intro Hne. destruct (endAuction_shape fl now db id) as [[H|[hb H]] _];
    unfold select_auctions; rewrite H; [reflexivity|].
  apply filter_map_update_other; [|exact Hne].
  intro a. apply updateData_id.
Qed.

Lemma endAuction_bids_of fl now db id id' :
  bids_of (fst (AuctionsService.endAuction fl now db id)) id' = bids_of db id'
  \/ exists hid,
       bids_of (fst (AuctionsService.endAuction fl now db id)) id'
       = map (mark hid) (bids_of db id').
Proof.
  destruct (endAuction_shape fl now db id) as [_ [[H|[hid H]] _]];
    unfold bids_of; rewrite H; [now left|].
  right. exists hid. apply filter_map_auction_id. intro b. apply mark_auction_id.
Qed.

Lemma endAuction_no_bids_of fl now db id id' :
  bids_of db id' = [] ->
  bids_of (fst (AuctionsService.endAuction fl now db id)) id' = [].
Proof.
  intro H. destruct (endAuction_bids_of fl now db id id') as [E|[hid E]];
    rewrite E, H; reflexivity.
Qed.

(** [endAuction] on an auction without bids. *)
Lemma endAuction_without_bids fl now db id a :
  fl 4%nat = false ->
  bids_of db id = [] ->
  single (select_auctions db id) = Some a ->
  AuctionsService.endAuction fl now db id
  = (update_auctions db id (set_status "ended" now), Ok (set_status "ended" now a)).
Proof.
  intros H4 Hb Hs. unfold AuctionsService.endAuction.
  rewrite Hb. simpl. replace (if fl 0%nat then None else None) with (@None BidRow)
    by now destruct (fl 0%nat).
  now rewrite H4, Hs.
Qed.

(** [endAuction] on an auction with bids, the store answering. *)
Lemma endAuction_with_bids now db id a hb :
  top_by b_bid_amount (bids_of db id) = Some hb ->
  single (select_auctions db id) = Some a ->
  AuctionsService.endAuction no_faults now db id
  = (update_auctions
       (update_listings (update_bids db (b_id hb) set_is_winning)
          (a_listing_id a) (set_listing_status "sold"))
       id (AuctionsService.endAuction_updateData (Some hb) now),
     Ok (AuctionsService.endAuction_updateData (Some hb) now a)).
Proof.
  intros Ht Hs. unfold AuctionsService.endAuction. simpl. rewrite Ht.
  change (select_auctions (update_bids db (b_id hb) set_is_winning) id)
    with (select_auctions db id).
  rewrite Hs.
  change (select_auctions
            (update_listings (update_bids db (b_id hb) set_is_winning)
               (a_listing_id a) (set_listing_status "sold")) id)
    with (select_auctions db id).
  now rewrite Hs.
Qed.

Lemma single_select_update db id f a :
  (forall x, a_id (f x) = a_id x) ->
  single (select_auctions db id) = Some a ->
  single (select_auctions (update_auctions db id f) id) = Some (f a).
Proof.
  intros Hf Hs. rewrite select_update_same by exact Hf.
  now rewrite single_map, Hs.
Qed.

Lemma mark_self hb : b_is_winning (mark (b_id hb) hb) = true.
Proof. unfold mark. now rewrite String.eqb_refl. Qed.

(** C5, amended.  [endAuction] does not consult the reserve price.  On an
    auction whose reserve price is set and above every bid, it closes the
    auction with status 'ended'; when there is a bid, the bidder of a bid
    of greatest amount becomes [winning_bidder_id] and that bid is marked
    [is_winning]; when there is none, no winner is set. *)
Theorem endAuction_ignores_reserve :
  forall now db auctionId auction r,
    single (select_auctions db auctionId) = Some auction ->
    a_reserve_price auction = Some r ->
    (forall b, In b (bids_of db auctionId) -> b_bid_amount b < r) ->
    let out := AuctionsService.endAuction no_faults now db auctionId in
    exists auction',
      snd out = Ok auction'
      /\ single (select_auctions (fst out) auctionId) = Some auction'
      /\ a_status auction' = "ended"%string
      /\ a_reserve_price auction' = Some r
      /\ match top_by b_bid_amount (bids_of db auctionId) with
         | Some hb =>
             (forall b, In b (bids_of db auctionId) ->
                        b_bid_amount b <= b_bid_amount hb)
             /\ a_winning_bidder_id auction' = Some (b_bidder_id hb)
             /\ exists b', In b' (bids_of (fst out) auctionId)
                           /\ b_id b' = b_id hb /\ b_is_winning b' = true
         | None =>
             bids_of db auctionId = []
             /\ a_winning_bidder_id auction' = a_winning_bidder_id auction
             /\ bids (fst out) = bids db
         end.
Proof.
  intros now db id a r Hs Hr _ out. unfold out.
  destruct (top_by b_bid_amount (bids_of db id)) as [hb|] eqn:Ht.
  - rewrite (endAuction_with_bids now db id a hb Ht Hs).
    exists (AuctionsService.endAuction_updateData (Some hb) now a).
    split; [reflexivity|]. split.
    { cbn [fst]. apply single_select_update; [|exact Hs].
      intro x. apply updateData_id. }
    split; [reflexivity|]. split; [exact Hr|]. split.
    { now apply top_by_max. }
    split; [reflexivity|].
    exists (mark (b_id hb) hb). split; [|split].
    + cbn [fst].
      change (In (mark (b_id hb) hb)
                 (bids_of (update_bids db (b_id hb) set_is_winning) id)).
      rewrite bids_of_mark. apply in_map. now apply top_by_In in Ht.
    + apply mark_id.
    + apply mark_self.
  - apply top_by_None in Ht.
    rewrite (endAuction_without_bids no_faults now db id a eq_refl Ht Hs).
    exists (set_status "ended" now a).
    split; [reflexivity|]. split.
    { cbn [fst]. now apply single_select_update. }
    split; [reflexivity|]. split; [exact Hr|]. now repeat split.
Qed.

(** The theorem at the auction with reserve 200 and one bid of 105. *)
Lemma endAuction_ignores_reserve_witness :
  exists auction',
    snd (AuctionsService.endAuction no_faults 2000 example_reserve_db "A1")
    = Ok auction'
    /\ a_status auction' = "ended"%string.
Proof.
  assert (Hb : forall b, In b (bids_of example_reserve_db "A1") ->
                         b_bid_amount b < 200).
  { intros b [Hb|[]]. subst b. reflexivity. }
  destruct (endAuction_ignores_reserve 2000 example_reserve_db "A1"
              (mkAuction "A1" "L1" 1000 100 (Some 105) (Some 1%Z) None
                         (Some 200) "active" 1)
              200 eq_refl eq_refl Hb) as [a' [H1 [_ [H2 _]]]].
  exists a'. split; [exact H1 | exact H2].
Defined.

(** With a reserve of 200 above the only bid of 105, [endAuction] makes the
    bidder the winner and marks the bid. *)
Lemma endAuction_ignores_reserve_counterexample :
  let d := fst (AuctionsService.endAuction no_faults 2000 example_reserve_db "A1") in
  map a_reserve_price (select_auctions example_reserve_db "A1") = [Some 200]
  /\ map b_bid_amount (bids_of example_reserve_db "A1") = [105]
  /\ map a_status (select_auctions d "A1") = ["ended"%string]
  /\ map a_winning_bidder_id (select_auctions d "A1") = [Some "u1"%string]
  /\ map b_is_winning (bids_of d "A1") = [true].
Proof. repeat split; reflexivity. Qed.

(** ** [checkAndEndExpiredAuctions] *)

Section Sweep.
Variables (fle : Id -> Faults) (now : Time) (id : Id) (a : AuctionRow).
Hypothesis update_ok : fle id 4%nat = false.

Let step (d : DB) (x : AuctionRow) : DB :=
  fst (AuctionsService.endAuction (fle (a_id x)) now d (a_id x)).

Let untouched (d : DB) : Prop := single (select_auctions d id) = Some a.
Let closed (d : DB) : Prop :=
  single (select_auctions d id) = Some (set_status "ended" now a).

Lemma sweep_step d x :
  untouched d \/ closed d -> bids_of d id = [] ->
  (untouched (step d x) \/ closed (step d x))
  /\ bids_of (step d x) id = []
  /\ (closed d \/ a_id x = id -> closed (step d x)).
Proof.
  intros Hs Hb. unfold step.
  destruct (String.eqb (a_id x) id) eqn:E.
  - apply String.eqb_eq in E. rewrite E.
    assert (Hc : closed (fst (AuctionsService.endAuction (fle id) now d id))
                 /\ bids_of (fst (AuctionsService.endAuction (fle id) now d id)) id
                    = []).
    { destruct Hs as [Hs|Hs].
      - rewrite (endAuction_without_bids (fle id) now d id a update_ok Hb Hs).
        split; [|exact Hb]. unfold closed. cbn [fst].
        now apply single_select_update.
      - rewrite (endAuction_without_bids (fle id) now d id _ update_ok Hb Hs).
        split; [|exact Hb]. unfold closed. cbn [fst].
        now apply (single_select_update d id (set_status "ended" now)
                     (set_status "ended" now a)). }
    destruct Hc as [Hc Hb']. auto.
  - apply String.eqb_neq in E.
    assert (Hsel : select_auctions
                     (fst (AuctionsService.endAuction (fle (a_id x)) now d (a_id x)))
                     id = select_auctions d id)
      by now apply endAuction_select_other.
    unfold untouched, closed in *. rewrite Hsel.
    split; [exact Hs|]. split; [now apply endAuction_no_bids_of|].
    intros [H|H]; [exact H | contradiction].
Qed.

Lemma sweep_fold l : forall d,
  untouched d \/ closed d -> bids_of d id = [] ->
  closed d \/ (exists x, In x l /\ a_id x = id) ->
  closed (fold_left step l d) /\ bids_of (fold_left step l d) id = [].
Proof.
  induction l as [|x l IH]; intros d Hs Hb Hc.
  - simpl. split; [|exact Hb].
    destruct Hc as [Hc|[x [[] _]]]. exact Hc.
  - simpl. destruct (sweep_step d x Hs Hb) as [Hs' [Hb' Hc']].
    apply IH; [exact Hs' | exact Hb' |].
    destruct Hc as [Hc|[y [[Hy|Hy] Hid]]].
    + left. apply Hc'. now left.
    + left. apply Hc'. right. now subst y.
    + right. now exists y.
Qed.

End Sweep.

(** C7, amended.  An active auction whose end is before now and which has
    no bid is put by the sweep in status 'ended' (not 'cancelled'); its
    [winning_bidder_id] is left as it was and it still has no bid, hence no
    winning bid. *)
Theorem sweep_ends_auction_without_bids :
  forall fl fle now db auction,
    fl 0%nat = false ->
    fle (a_id auction) 4%nat = false ->
    single (select_auctions db (a_id auction)) = Some auction ->
    a_status auction = "active"%string ->
    (a_auction_end auction < now)%Z ->
    bids_of db (a_id auction) = [] ->
    let db' := AuctionsService.checkAndEndExpiredAuctions fl fle now db in
    exists auction',
      single (select_auctions db' (a_id auction)) = Some auction'
      /\ a_status auction' = "ended"%string
      /\ a_status auction' <> "cancelled"%string
      /\ a_winning_bidder_id auction' = a_winning_bidder_id auction
      /\ bids_of db' (a_id auction) = [].
Proof.
  intros fl fle now db a H0 H4 Hs Ha He Hb db'.
  exists (set_status "ended" now a).
  assert (Hin : In a (filter (AuctionsService.expired_active now) (auctions db))).
  { apply filter_In. split.
    - apply single_Some in Hs.
      assert (Hi : In a (select_auctions db (a_id a))) by (rewrite Hs; now left).
      unfold select_auctions in Hi. now apply filter_In in Hi.
    - unfold AuctionsService.expired_active. rewrite Ha. simpl.
      now apply Z.ltb_lt. }
  unfold db', AuctionsService.checkAndEndExpiredAuctions. rewrite H0.
  destruct (sweep_fold fle now (a_id a) a H4
              (filter (AuctionsService.expired_active now) (auctions db)) db)
    as [Hc Hb'].
  - now left.
  - exact Hb.
  - right. exists a. now split.
  - split; [exact Hc|]. split; [reflexivity|]. split; [discriminate|].
    split; [reflexivity | exact Hb'].
Qed.

(** The theorem at auction ["A1"], swept at instant 2000. *)
Lemma sweep_ends_auction_without_bids_witness :
  exists auction',
    single (select_auctions
              (AuctionsService.checkAndEndExpiredAuctions no_faults
                 (fun _ => no_faults) 2000 example_db) "A1") = Some auction'
    /\ a_status auction' = "ended"%string.
Proof.
  assert (He : (a_auction_end example_auction < 2000)%Z) by (simpl; lia).
  destruct (sweep_ends_auction_without_bids no_faults (fun _ => no_faults) 2000
              example_db example_auction eq_refl eq_refl eq_refl eq_refl He
              eq_refl) as [a' [H1 [H2 _]]].
  exists a'. split; [exact H1 | exact H2].
Defined.

(** The expired auction ["A1"] without bids ends in status 'ended'. *)
Lemma sweep_ends_auction_without_bids_counterexample :
  let db' := AuctionsService.checkAndEndExpiredAuctions no_faults
               (fun _ => no_faults) 2000 example_db in
  bids_of example_db "A1" = []
  /\ map a_status (select_auctions example_db "A1") = ["active"%string]
  /\ map a_status (select_auctions db' "A1") = ["ended"%string]
  /\ map a_status (select_auctions db' "A1") <> ["cancelled"%string].
Proof.
  repeat split; try reflexivity. discriminate.
Qed.

(** ** Calling [endAuction] again *)

















(** ** The two writes of [placeBid] *)

Lemma placeBid_read_Some fl db auctionId a listing :
  AuctionsService.placeBid_read fl db auctionId = Some (a, listing) ->
  fl 0%nat = false /\ single (select_auctions db auctionId) = Some a.
Proof.
  unfold AuctionsService.placeBid_read. destruct (fl 0%nat); [discriminate|].
  destruct (single (select_auctions db auctionId)) as [x|]; [|discriminate].
  intro H. injection H as H _. now subst.
Qed.

(** C2, amended.  The insert of the bid and the update of the auction are
    two separate writes, without rollback; each takes effect when its own
    store call goes through.  When both do, [placeBid] returns the bid, the
    row is in [bids] and the auction carries the new [current_bid] and
    [bid_count].  When the update fails, [placeBid] returns an error and the
    bid row inserted before stays.  When the insert fails, the auction is
    updated all the same ('updating auction only'), no row being added. *)
Theorem placeBid_two_writes :
  forall fl now bidId db auctionId bidderId bidAmount currency auction listing,
    AuctionsService.placeBid_read fl db auctionId = Some (auction, listing) ->
    AuctionsService.placeBid_validate now (auction, listing) bidderId bidAmount
    = None ->
    let out := AuctionsService.placeBid fl now bidId db auctionId bidderId
                 bidAmount currency in
    let bid := mkBid bidId auctionId bidderId bidAmount
                     (if String.eqb currency "" then "USD" else currency)
                     now false in
    let auction' :=
      set_bid_state bidAmount (or_else_Z (a_bid_count auction) 0 + 1) now auction in
    (fl 1%nat = false -> fl 2%nat = false ->
     snd out = Ok bid
     /\ bids (fst out) = bids db ++ [bid]
     /\ single (select_auctions (fst out) auctionId) = Some auction')
    /\ (fl 1%nat = false -> fl 2%nat = true ->
        snd out = Err (FailedToPlaceBid UpdateAuctionFailed)
        /\ bids (fst out) = bids db ++ [bid]
        /\ auctions (fst out) = auctions db)
    /\ (fl 1%nat = true -> fl 2%nat = false ->
        bids (fst out) = bids db
        /\ single (select_auctions (fst out) auctionId) = Some auction')
    /\ (fl 1%nat = true -> fl 2%nat = true ->
        out = (db, Err (FailedToPlaceBid UpdateAuctionFailed))).
Proof.
  intros fl now bidId db auctionId bidderId bidAmount currency auction listing
         Hr Hv out bid auction'.
  destruct (placeBid_read_Some fl db auctionId auction listing Hr) as [_ Hs].
  unfold out, AuctionsService.placeBid. rewrite Hr, Hv.
  unfold AuctionsService.placeBid_insert, AuctionsService.placeBid_update.
  destruct (fl 1%nat), (fl 2%nat); cbn [fst snd];
    (split; [|split; [|split]]); intros H1 H2; try discriminate.
  - reflexivity.
  - split; [reflexivity|].
    apply (single_select_update db auctionId
             (set_bid_state bidAmount (or_else_Z (a_bid_count auction) 0 + 1) now)
             auction); [reflexivity | exact Hs].
  - repeat split; reflexivity.
  - split; [reflexivity|]. split; [reflexivity|].
    apply (single_select_update (insert_bid db bid) auctionId
             (set_bid_state bidAmount (or_else_Z (a_bid_count auction) 0 + 1) now)
             auction); [reflexivity | exact Hs].
Qed.

(** The theorem at a bid of 105 on auction ["A1"], both writes going
    through. *)
Lemma placeBid_two_writes_witness :
  snd (AuctionsService.placeBid no_faults 500 "b1" example_db "A1" "u1" 105 "USD")
  = Ok (mkBid "b1" "A1" "u1" 105 "USD" 500 false).
Proof.
  destruct (placeBid_two_writes no_faults 500 "b1" example_db "A1" "u1" 105 "USD"
              example_auction (Some example_listing) example_db_read eq_refl)
    as [H _].
  destruct (H eq_refl eq_refl) as [Hok _]. exact Hok.
Defined.

(** When the insert fails, [placeBid] answers with an error and the auction
    counts one bid although no row was inserted; when the update fails,
    [placeBid] answers with an error, the row is inserted and the auction
    still counts no bid. *)
Lemma placeBid_two_writes_counterexample :
  (let out := AuctionsService.placeBid insert_fails 500 "b1" example_db "A1" "u1"
                105 "USD" in
   is_ok (snd out) = false
   /\ bids_of (fst out) "A1" = []
   /\ map a_bid_count (select_auctions (fst out) "A1") = [Some 1%Z]
   /\ map a_current_bid (select_auctions (fst out) "A1") = [Some 105])
  /\ (let out := AuctionsService.placeBid update_fails 500 "b1" example_db "A1"
                   "u1" 105 "USD" in
      is_ok (snd out) = false
      /\ map b_bid_amount (bids_of (fst out) "A1") = [105]
      /\ map a_bid_count (select_auctions (fst out) "A1") = [Some 0%Z]
      /\ map a_current_bid (select_auctions (fst out) "A1") = [Some 100]).
Proof. repeat split; reflexivity. Qed.

(** ** Operations that leave the bidding state alone *)

Lemma Forall2_map_right {A} (R : A -> A -> Prop) (g : A -> A) (l : list A) :
  (forall x, R x (g x)) -> Forall2 R l (map g l).
Proof. intro H. induction l; simpl; constructor; auto. Qed.

Lemma Forall2_same {A} (R : A -> A -> Prop) (l : list A) :
  (forall x, R x x) -> Forall2 R l l.
Proof. intro H. induction l; constructor; auto. Qed.

Lemma Forall2_compose {A} (R : A -> A -> Prop) (l1 l2 l3 : list A) :
  (forall x y z, R x y -> R y z -> R x z) ->
  Forall2 R l1 l2 -> Forall2 R l2 l3 -> Forall2 R l1 l3.
Proof.
  intros Ht H12. revert l3. induction H12; intros l3 H23; inversion H23; subst;
    constructor; eauto.
Qed.

Lemma same_bid_state_refl a : same_bid_state a a.
Proof. repeat split. Qed.

Lemma same_offer_refl b : same_offer b b.
Proof. split; reflexivity. Qed.

Lemma same_bid_state_trans a b c :
  same_bid_state a b -> same_bid_state b c -> same_bid_state a c.
Proof.
  unfold same_bid_state, same_identity.
  intros [[H1 H2] [H3 H4]] [[G1 G2] [G3 G4]]. repeat split; congruence.
Qed.

Lemma same_offer_trans a b c : same_offer a b -> same_offer b c -> same_offer a c.
Proof. unfold same_offer. intros [H1 H2] [G1 G2]. split; congruence. Qed.

Lemma frame_refl db : frame db db.
Proof.
  split; apply Forall2_same;
    [apply same_bid_state_refl | apply same_offer_refl].
Qed.

Lemma frame_trans d1 d2 d3 : frame d1 d2 -> frame d2 d3 -> frame d1 d3.
Proof.
  intros [A1 B1] [A2 B2]. split.
  - exact (Forall2_compose _ _ _ _ same_bid_state_trans A1 A2).
  - exact (Forall2_compose _ _ _ _ same_offer_trans B1 B2).
Qed.

Lemma frame_same_tables db db' :
  auctions db' = auctions db -> bids db' = bids db -> frame db db'.
Proof.
  intros Ha Hb. unfold frame. rewrite Ha, Hb. apply frame_refl.
Qed.

Lemma frame_map_auctions db db' (g : AuctionRow -> AuctionRow) :
  (forall a, same_bid_state a (g a)) ->
  auctions db' = map g (auctions db) -> bids db' = bids db -> frame db db'.
Proof.
  intros Hg Ha Hb. unfold frame. rewrite Ha, Hb. split.
  - now apply Forall2_map_right.
  - apply Forall2_same. apply same_offer_refl.
Qed.

Lemma same_offer_mark hid b : same_offer b (mark hid b).
Proof. split; [apply mark_auction_id | apply mark_amount]. Qed.

Lemma updateData_same_bid_state hb now id a :
  same_bid_state a
    (if String.eqb (a_id a) id
     then AuctionsService.endAuction_updateData hb now a else a).
Proof.
  destruct (String.eqb (a_id a) id); [|apply same_bid_state_refl].
  destruct hb; repeat split.
Qed.

Lemma endAuction_frame fl now db id :
  frame db (fst (AuctionsService.endAuction fl now db id)).
Proof.
  destruct (endAuction_shape fl now db id) as [Ha [Hb _]]. split.
  - destruct Ha as [Ha|[hb Ha]]; rewrite Ha.
    + apply Forall2_same. apply same_bid_state_refl.
    + apply Forall2_map_right. intro a. apply updateData_same_bid_state.
  - destruct Hb as [Hb|[hid Hb]]; rewrite Hb.
    + apply Forall2_same. apply same_offer_refl.
    + apply Forall2_map_right. intro b. apply same_offer_mark.
Qed.

Lemma extendAuction_frame fl now db id m :
  frame db (fst (AuctionsService.extendAuction fl now db id m)).
Proof.
  unfold AuctionsService.extendAuction.
  case_split; cbn [fst]; try apply frame_refl.
  eapply frame_map_auctions; [|reflexivity|reflexivity].
  intro x. cbv beta. destruct (String.eqb (a_id x) id); repeat split.
Qed.

Lemma cancelAuction_frame fl now db id :
  frame db (fst (AuctionsService.cancelAuction fl now db id)).
Proof.
  unfold AuctionsService.cancelAuction.
  case_split; cbn [fst]; try apply frame_refl.
  eapply frame_map_auctions; [|reflexivity|reflexivity].
  intro x. cbv beta.
  destruct (String.eqb (a_id x) id && String.eqb (a_status x) "active");
    repeat split.
Qed.

Lemma endAuction_fold_frame (fle : Id -> Faults) now (l : list AuctionRow) :
  forall d0 d,
    frame d0 d ->
    frame d0 (fold_left
                (fun d auction =>
                   fst (AuctionsService.endAuction (fle (a_id auction)) now d
                          (a_id auction))) l d).
Proof.
  induction l as [|x l IH]; intros d0 d H; [exact H|].
  simpl. apply IH. eapply frame_trans; [exact H|]. apply endAuction_frame.
Qed.

Lemma checkAndEndExpiredAuctions_frame fl fle now db :
  frame db (AuctionsService.checkAndEndExpiredAuctions fl fle now db).
Proof.
  unfold AuctionsService.checkAndEndExpiredAuctions.
  destruct (fl 0%nat); [apply frame_refl|].
  apply endAuction_fold_frame. apply frame_refl.
Qed.

Lemma listings_placeBid_frame fl now db listingId userId amount :
  frame db (fst (ListingsService.placeBid fl now db listingId userId amount)).
Proof.
  unfold ListingsService.placeBid.
  case_split; cbn [fst]; try apply frame_refl;
    apply frame_same_tables; reflexivity.
Qed.

Lemma closeExpiredAuctions_frame fl fu now db :
  frame db (ListingsService.closeExpiredAuctions fl fu now db).
Proof.
  unfold ListingsService.closeExpiredAuctions.
  destruct (fl 0%nat); [apply frame_refl|].
  match goal with |- context [fold_left _ ?l _] => generalize l end.
  intro l. apply frame_same_tables.
  - generalize db. induction l as [|x l IH]; intro d; [reflexivity|].
    simpl. rewrite IH. now destruct (fu (l_id x)).
  - generalize db. induction l as [|x l IH]; intro d; [reflexivity|].
    simpl. rewrite IH. now destruct (fu (l_id x)).
Qed.

(** ** The invariant of all schedules *)

Lemma Forall2_In_right {A} (R : A -> A -> Prop) (l l' : list A) (y : A) :
  Forall2 R l l' -> In y l' -> exists x, In x l /\ R x y.
Proof.
  induction 1 as [|x x' l l' Hx _ IH]; intro Hy; [contradiction|].
  destruct Hy as [Hy|Hy].
  - subst. exists x. split; [now left | exact Hx].
  - destruct (IH Hy) as [z [Hz Hr]]. exists z. split; [now right | exact Hr].
Qed.

Lemma Forall2_Forall {A} (R : A -> A -> Prop) (P : A -> Prop) (l l' : list A) :
  (forall x y, R x y -> P x -> P y) ->
  Forall2 R l l' -> Forall P l -> Forall P l'.
Proof.
  intros H. induction 1; intro Hf; inversion Hf; subst; constructor; eauto.
Qed.

Lemma same_identity_ids (l l' : list AuctionRow) :
  Forall2 same_identity l l' -> map a_id l' = map a_id l.
Proof.
  induction 1 as [|x y l l' [Hid _] _ IH]; [reflexivity|].
  simpl. now rewrite Hid, IH.
Qed.

Lemma same_bid_state_identity (l l' : list AuctionRow) :
  Forall2 same_bid_state l l' -> Forall2 same_identity l l'.
Proof. induction 1 as [|x y l l' [H _] _ IH]; constructor; auto. Qed.

Lemma price_ok_same a a' : same_bid_state a a' -> price_ok a -> price_ok a'.
Proof.
  intros [[_ Hs] [Hc Hn]] [c [n [H1 [H2 H3]]]]. exists c, n.
  rewrite Hs, Hc, Hn. now repeat split.
Qed.

Lemma call_ok_identity db db' c :
  Forall2 same_identity (auctions db) (auctions db') ->
  call_ok db c -> call_ok db' c.
Proof.
  intros Hf Hc Hpend. destruct (Hc Hpend) as [Hs [Hin Hp]].
  split; [exact Hs|]. split; [now rewrite (same_identity_ids _ _ Hf)|].
  intros a' Ha' Hid.
  destruct (Forall2_In_right _ _ _ a' Hf Ha') as [a [Ha [Hi Hst]]].
  rewrite Hst. apply Hp; [exact Ha | congruence].
Qed.

Lemma safe_frame s db' : frame (sys_db s) db' -> safe s -> safe (with_db s db').
Proof.
  intros [Ha _] [Hp Hc]. split; simpl.
  - exact (Forall2_Forall _ _ _ _ price_ok_same Ha Hp).
  - apply Forall_forall. intros c Hin. rewrite Forall_forall in Hc.
    apply (call_ok_identity (sys_db s)); [|now apply Hc].
    now apply same_bid_state_identity.
Qed.

(** Creating a listing adds at most one auction row, with no bid. *)
Lemma createListing_tables fl now listingId auctionId dto db :
  let db' := fst (ListingsService.createListing fl now listingId auctionId dto db) in
  bids db' = bids db
  /\ (auctions db' = auctions db
      \/ exists e p,
           auctions db'
           = auctions db
             ++ [mkAuction auctionId listingId e p (Some p) (Some 0%Z) None None
                           "active" now]).
Proof.
  unfold ListingsService.createListing.
  case_split; cbn [fst]; (split; [reflexivity|]);
    first [ left; reflexivity | right; eexists; eexists; reflexivity ].
Qed.

Lemma id_not_in_use db listingId auctionId :
  id_in_use db listingId auctionId = false ->
  ~ In auctionId (map a_id (auctions db)).
Proof.
  unfold id_in_use. intros H Hin. apply orb_false_iff in H. destruct H as [H _].
  apply in_map_iff in Hin. destruct Hin as [a [Hid Ha]].
  assert (E : existsb (fun a => String.eqb (a_id a) auctionId) (auctions db) = true).
  { apply existsb_exists. exists a. split; [exact Ha|]. now apply String.eqb_eq. }
  congruence.
Qed.

Lemma safe_create fl now listingId auctionId dto s :
  safe s -> safe (exec (CreateListing fl now listingId auctionId dto) s).
Proof.
  intros [Hp Hc]. cbn [exec].
  destruct (id_in_use (sys_db s) listingId auctionId) eqn:Hu; [now split|].
  apply id_not_in_use in Hu.
  unfold safe, with_db. cbn [sys_db sys_calls].
  destruct (createListing_tables fl now listingId auctionId dto (sys_db s))
    as [_ [Ha|[e [p Ha]]]].
  - split; [now rewrite Ha|].
    apply Forall_forall. intros c Hin. rewrite Forall_forall in Hc.
    specialize (Hc c Hin). unfold call_ok in *. now rewrite Ha.
  - split.
    + rewrite Ha. apply Forall_app. split; [exact Hp|].
      constructor; [|constructor].
      exists p, 0%Z. simpl. repeat split; try reflexivity; try lia.
      apply Qle_refl.
    + apply Forall_forall. intros c Hin. rewrite Forall_forall in Hc.
      intro Hpend. destruct (Hc c Hin Hpend) as [Hs [Hi Hq]]. rewrite Ha.
      split; [exact Hs|].
      split; [rewrite map_app; apply in_or_app; now left|].
      intros a Hin' Hid. apply in_app_or in Hin'.
      destruct Hin' as [Hin'|[Hin'|[]]]; [now apply Hq|].
      subst a. simpl in Hid. exfalso. apply Hu. now rewrite Hid.
Qed.

Lemma raises_above (x y : Q) : raises x y -> x < y.
Proof. intros [H _]. now apply number_above. Qed.

Lemma validate_None_raises now a l b x :
  AuctionsService.placeBid_validate now (a, l) b x = None ->
  raises (AuctionsService.currentBid_of a) x.
Proof.
  unfold AuctionsService.placeBid_validate, raises, AuctionsService.leastBid_of.
  destruct (negb (String.eqb (a_status a) "active")); [discriminate|].
  destruct (a_auction_end a <? now)%Z; [discriminate|].
  destruct (match l with
            | Some l0 => String.eqb (l_seller_id l0) b
            | None => false
            end); [discriminate|].
  destruct (le64 _ _); [discriminate|].
  destruct (lt64 _ _); [discriminate|].
  now split.
Qed.

Lemma validate_None_above now a l b x :
  AuctionsService.placeBid_validate now (a, l) b x = None ->
  AuctionsService.currentBid_of a < x.
Proof. intro H. apply raises_above. exact (validate_None_raises _ _ _ _ _ H). Qed.

Lemma currentBid_of_ge a :
  price_ok a -> a_starting_price a <= AuctionsService.currentBid_of a.
Proof.
  intros [c [n [Hc [_ [Hle _]]]]]. unfold AuctionsService.currentBid_of.
  destruct (or_else_cases (a_current_bid a) (a_starting_price a))
    as [E|[v [Hv [E _]]]]; rewrite E; [apply Qle_refl|].
  rewrite Hc in Hv. injection Hv as <-. exact Hle.
Qed.

Lemma single_select_In db id a :
  single (select_auctions db id) = Some a ->
  In a (auctions db) /\ a_id a = id
  /\ (forall a', In a' (auctions db) -> a_id a' = id -> a' = a).
Proof.
  intro H. apply single_Some in H.
  assert (Hin : forall x, In x (select_auctions db id) <->
                          In x (auctions db) /\ String.eqb (a_id x) id = true)
    by (intro x; apply filter_In).
  rewrite H in Hin. split; [|split].
  - apply (Hin a). now left.
  - apply String.eqb_eq. apply (Hin a). now left.
  - intros a' Ha' Hid.
    assert (Hx : In a' [a]) by (apply Hin; split; [exact Ha' | now apply String.eqb_eq]).
    destruct Hx as [Hx|[]]. now subst.
Qed.

Lemma or_else_Z_nonneg x : (forall n, x = Some n -> (0 <= n)%Z) ->
  (0 <= or_else_Z x 0)%Z.
Proof.
  intro H. destruct x as [n|]; simpl; [|lia].
  destruct (Z.eqb n 0); [lia | now apply H].
Qed.

Lemma call_ok_finished db aid b x cur t snap r :
  call_ok db (mkCall aid b x cur t snap (Finished r)).
Proof. intro H. discriminate. Qed.

Lemma safe_read fl now auctionId bidderId bidAmount currency s :
  safe s -> safe (exec (BidRead fl now auctionId bidderId bidAmount currency) s).
Proof.
  intros [Hp Hc]. cbn [exec].
  destruct (negb (PlaceBidDto_valid bidAmount)); [now split|].
  destruct (AuctionsService.placeBid_read fl (sys_db s) auctionId)
    as [[a l]|] eqn:Hr.
  - destruct (AuctionsService.placeBid_validate now (a, l) bidderId bidAmount)
      as [err|] eqn:Hv; split; cbn [sys_db sys_calls]; try exact Hp;
      apply Forall_app; (split; [exact Hc|]); (constructor; [|constructor]).
    + apply call_ok_finished.
    + intros _. cbn [c_auction c_auctionId c_bidAmount fst].
      destruct (placeBid_read_Some _ _ _ _ _ Hr) as [_ Hs].
      destruct (single_select_In _ _ _ Hs) as [Hin [Hid Huniq]].
      rewrite Forall_forall in Hp. pose proof (Hp a Hin) as Hpa.
      split; [|split].
      * exists a. split; [reflexivity|].
        apply or_else_Z_nonneg. intros n Hn.
        destruct Hpa as [c [n' [_ [Hn' [_ [H0 _]]]]]]. congruence.
      * apply in_map_iff. now exists a.
      * intros a' Ha' Hid'. rewrite (Huniq a' Ha' Hid').
        apply Qle_lt_trans with (AuctionsService.currentBid_of a);
          [now apply currentBid_of_ge|].
        now apply validate_None_above with (now := now) (l := l) (b := bidderId).
  - split; cbn [sys_db sys_calls]; [exact Hp|].
    apply Forall_app. split; [exact Hc|]. constructor; [|constructor].
    apply call_ok_finished.
Qed.

Lemma Forall_set_nth {A} (P : A -> Prop) (f : A -> A) (k : nat) (l : list A) :
  Forall P l -> (forall x, nth_error l k = Some x -> P (f x)) ->
  Forall P (set_nth k f l).
Proof.
  revert k. induction l as [|y l IH]; intros k Hf Hk;
    [destruct k; constructor|].
  inversion Hf; subst. destruct k as [|k]; simpl.
  - constructor; [|assumption]. now apply Hk.
  - constructor; [assumption|]. apply IH; [assumption|].
    intros x Hx. now apply Hk.
Qed.

Lemma safe_insert k fl bidId s :
  safe s -> safe (exec (BidInsert k fl bidId) s).
Proof.
  intros [Hp Hc]. cbn [exec].
  destruct (nth_error (sys_calls s) k) as [[aid b x cur t snap ph]|] eqn:Hk;
    [|now split].
  destruct ph; try now split.
  assert (Hck : call_ok (sys_db s) (mkCall aid b x cur t snap Validated)).
  { rewrite Forall_forall in Hc. apply Hc. now apply nth_error_In with k. }
  unfold AuctionsService.placeBid_insert.
  destruct (fl 1%nat); split; cbn [sys_db sys_calls]; try exact Hp;
    apply Forall_set_nth;
    try (intros c Hc'; rewrite Hc' in Hk; injection Hk as ->;
         intros _; exact (Hck eq_refl));
    exact Hc.
Qed.

Lemma set_bid_state_identity x n now id a :
  same_identity a (if String.eqb (a_id a) id then set_bid_state x n now a else a).
Proof. destruct (String.eqb (a_id a) id); split; reflexivity. Qed.

Lemma safe_update k fl now s :
  safe s -> safe (exec (BidUpdate k fl now) s).
Proof.
  intros [Hp Hc]. cbn [exec].
  destruct (nth_error (sys_calls s) k) as [[aid b x cur t snap ph]|] eqn:Hk;
    [|now split].
  destruct snap as [a|]; [|now split]. destruct ph; try now split.
  assert (Hck : call_ok (sys_db s) (mkCall aid b x cur t (Some a) (Inserted bid))).
  { rewrite Forall_forall in Hc. apply Hc. now apply nth_error_In with k. }
  destruct (Hck eq_refl) as [[a0 [Ha0 Hn]] [_ Hlt]].
  cbn [c_auction c_auctionId c_bidAmount] in Ha0, Hn, Hlt.
  injection Ha0 as <-.
  unfold AuctionsService.placeBid_update.
  destruct (fl 2%nat); split; cbn [sys_db sys_calls]; try exact Hp.
  - apply Forall_set_nth; [exact Hc|]. intros c _ Hpend. discriminate.
  - cbn [update_auctions auctions]. apply Forall_forall.
    intros a' Ha'. apply in_map_iff in Ha'. destruct Ha' as [r [Hr Hin]].
    rewrite Forall_forall in Hp.
    destruct (String.eqb (a_id r) aid) eqn:E; subst a'; [|now apply Hp].
    apply String.eqb_eq in E.
    exists x, (or_else_Z (a_bid_count a) 0 + 1)%Z. cbn.
    repeat split; try lia.
    apply Qlt_le_weak. now apply Hlt.
  - apply Forall_set_nth; [|intros c _ Hpend; discriminate].
    apply Forall_forall. intros c Hin. rewrite Forall_forall in Hc.
    apply (call_ok_identity (sys_db s)); [|now apply Hc].
    cbn [update_auctions auctions]. apply Forall2_map_right.
    intro r. apply set_bid_state_identity.
Qed.

(** [placeBid] is its three phases run one after the other. *)
Lemma nth_error_snoc {A} (l : list A) (c : A) :
  nth_error (l ++ [c]) (List.length l) = Some c.
Proof. induction l; simpl; auto. Qed.

Lemma nth_error_at_length {A} (l : list A) :
  nth_error l (List.length l) = None.
Proof. induction l; simpl; auto. Qed.

Lemma set_nth_snoc {A} (f : A -> A) (l : list A) (c : A) :
  set_nth (List.length l) f (l ++ [c]) = l ++ [f c].
Proof. induction l; simpl; [reflexivity | now rewrite IHl]. Qed.

Lemma PlaceBid_phases fl now bidId auctionId bidderId bidAmount currency s :
  exec (PlaceBid fl now bidId auctionId bidderId bidAmount currency) s
  = exec (BidUpdate (List.length (sys_calls s)) fl now)
      (exec (BidInsert (List.length (sys_calls s)) fl bidId)
         (exec (BidRead fl now auctionId bidderId bidAmount currency) s)).
Proof.
  destruct s as [db calls]. cbn [exec sys_db sys_calls].
  destruct (negb (PlaceBidDto_valid bidAmount)).
  - cbn [exec sys_db sys_calls]. now rewrite !nth_error_at_length.
  - unfold AuctionsService.placeBid.
    destruct (AuctionsService.placeBid_read fl db auctionId) as [[a l]|].
    + destruct (AuctionsService.placeBid_validate now (a, l) bidderId bidAmount).
      * repeat (cbn [exec sys_db sys_calls option_map fst];
                rewrite nth_error_snoc).
        reflexivity.
      * cbn [exec sys_db sys_calls option_map fst]. rewrite nth_error_snoc.
        destruct (AuctionsService.placeBid_insert fl now bidId db auctionId
                    bidderId bidAmount currency) as [db1 bid].
        cbn [exec sys_db sys_calls]. rewrite set_nth_snoc.
        unfold set_phase at 1.
        cbn [c_auctionId c_bidderId c_bidAmount c_currency c_auction].
        rewrite nth_error_snoc.
        destruct (AuctionsService.placeBid_update fl now db1 auctionId bidAmount a)
          as [db2 updated].
        rewrite set_nth_snoc. now destruct updated.
    + repeat (cbn [exec sys_db sys_calls option_map]; rewrite nth_error_snoc).
      reflexivity.
Qed.

Lemma exec_safe e s : safe s -> safe (exec e s).
Proof.
  intro H. destruct e.
  - now apply safe_create.
  - now apply safe_read.
  - now apply safe_insert.
  - now apply safe_update.
  - rewrite PlaceBid_phases. now apply safe_update, safe_insert, safe_read.
  - apply safe_frame; [apply endAuction_frame | exact H].
  - apply safe_frame; [apply extendAuction_frame | exact H].
  - apply safe_frame; [apply cancelAuction_frame | exact H].
  - apply safe_frame; [apply checkAndEndExpiredAuctions_frame | exact H].
  - apply safe_frame; [apply listings_placeBid_frame | exact H].
  - apply safe_frame; [apply closeExpiredAuctions_frame | exact H].
Qed.

Lemma run_safe evs : forall s, safe s -> safe (run evs s).
Proof.
  induction evs as [|e evs IH]; intros s H; [exact H|].
  simpl. apply IH. now apply exec_safe.
Qed.

Lemma init_safe : safe init.
Proof. split; constructor. Qed.

(** ** The invariant of schedules without interleaving *)

Lemma Forall2_Forall_to {A} (R : A -> A -> Prop) (P Q : A -> Prop)
    (l l' : list A) :
  (forall x y, R x y -> P x -> Q y) ->
  Forall2 R l l' -> Forall P l -> Forall Q l'.
Proof.
  intros H. induction 1; intro Hf; inversion Hf; subst; constructor; eauto.
Qed.

Lemma placed_same_offers (l l' : list BidRow) id :
  Forall2 same_offer l l' ->
  map b_bid_amount (filter (fun b => String.eqb (b_auction_id b) id) l')
  = map b_bid_amount (filter (fun b => String.eqb (b_auction_id b) id) l).
Proof.
  induction 1 as [|b b' l l' [Ha Hm] _ IH]; [reflexivity|].
  simpl. rewrite Ha. destruct (String.eqb (b_auction_id b) id); simpl;
    now rewrite ?Hm, IH.
Qed.

Lemma placed_frame db db' id : frame db db' -> placed db' id = placed db id.
Proof. intros [_ Hb]. unfold placed, bids_of. now apply placed_same_offers. Qed.

Lemma ledger_ok_frame db db' a a' :
  frame db db' -> same_bid_state a a' -> ledger_ok db a -> ledger_ok db' a'.
Proof.
  intros Hf [[Hid Hs] [Hc Hn]]. unfold ledger_ok.
  now rewrite Hid, Hs, Hc, Hn, (placed_frame db db' (a_id a) Hf).
Qed.

Lemma settled_frame db db' : frame db db' -> settled db -> settled db'.
Proof.
  intros Hf [Hl Hb]. pose proof Hf as [Ha Hbids]. split.
  - apply (Forall2_Forall_to same_bid_state (ledger_ok db) (ledger_ok db')
             (auctions db) (auctions db')); [|exact Ha | exact Hl].
    intros x y Hxy. now apply ledger_ok_frame.
  - intros b' Hb'.
    destruct (Forall2_In_right _ _ _ b' Hbids Hb') as [b [Hin [Haid _]]].
    rewrite (same_identity_ids _ _ (same_bid_state_identity _ _ Ha)), Haid.
    now apply Hb.
Qed.

Lemma ledger_ok_bids db db' a :
  bids db' = bids db -> ledger_ok db a -> ledger_ok db' a.
Proof. intro H. unfold ledger_ok, placed, bids_of. now rewrite H. Qed.

Lemma no_bids_of db id :
  (forall b, In b (bids db) -> b_auction_id b <> id) -> bids_of db id = [].
Proof.
  unfold bids_of. induction (bids db) as [|b l IH]; intro H; [reflexivity|].
  simpl. rewrite (string_eqb_neq _ _ (H b (or_introl eq_refl))).
  apply IH. intros x Hx. apply H. now right.
Qed.

Lemma settled_create fl now listingId auctionId dto db :
  id_in_use db listingId auctionId = false ->
  settled db ->
  settled (fst (ListingsService.createListing fl now listingId auctionId dto db)).
Proof.
  intros Hu [Hl Hb]. apply id_not_in_use in Hu.
  destruct (createListing_tables fl now listingId auctionId dto db)
    as [Hbids [Ha|[e [p Ha]]]]; split.
  - rewrite Ha. apply Forall_forall. intros a Hin. rewrite Forall_forall in Hl.
    apply (ledger_ok_bids db); [exact Hbids | now apply Hl].
  - rewrite Hbids, Ha. exact Hb.
  - rewrite Ha. apply Forall_app. split.
    + apply Forall_forall. intros a Hin. rewrite Forall_forall in Hl.
      apply (ledger_ok_bids db); [exact Hbids | now apply Hl].
    + constructor; [|constructor]. unfold ledger_ok, placed. cbn [a_id].
      assert (E : bids_of (fst (ListingsService.createListing fl now listingId
                                  auctionId dto db)) auctionId = []).
      { apply no_bids_of. rewrite Hbids. intros b Hin Heq.
        apply Hu. rewrite <- Heq. now apply Hb. }
      rewrite E. simpl. repeat split. constructor.
  - rewrite Hbids, Ha. intros b Hin. rewrite map_app. apply in_or_app.
    left. now apply Hb.
Qed.

Lemma strictly_increasing_snoc (l : list Q) (d x : Q) :
  strictly_increasing l -> (l <> [] -> last l d < x) ->
  strictly_increasing (l ++ [x]).
Proof.
  induction l as [|y r IH]; intros Hs Hl; [exact I|].
  destruct r as [|z r'].
  - simpl. split; [|exact I]. apply Hl. discriminate.
  - destruct Hs as [Hyz Hs]. split; [exact Hyz|].
    apply IH; [exact Hs|]. intros _. apply Hl. discriminate.
Qed.

Lemma last_In_or_default (l : list Q) (d : Q) :
  (l = [] /\ last l d = d) \/ (l <> [] /\ In (last l d) l).
Proof.
  induction l as [|y r IH]; [now left|]. right. split; [discriminate|].
  destruct r as [|z r']; [now left|].
  destruct IH as [[E _]|[_ Hin]]; [discriminate|]. right. exact Hin.
Qed.

Lemma or_else_Z_Some v : or_else_Z (Some v) 0 = v.
Proof. simpl. destruct (Z.eqb v 0) eqn:E; [|reflexivity]. apply Z.eqb_eq in E. lia. Qed.

Lemma or_else_positive c d : 0 < c -> or_else (Some c) d = c.
Proof.
  intro H. simpl. destruct (Qeq_bool c 0) eqn:E; [|reflexivity].
  apply Qeq_bool_eq in E. rewrite E in H. exfalso. exact (Qlt_irrefl 0 H).
Qed.

Lemma or_else_same c : or_else (Some c) c = c.
Proof. simpl. now destruct (Qeq_bool c 0). Qed.

(** The current bid that [placeBid] reads is the stored one. *)
Lemma ledger_currentBid db a :
  ledger_ok db a ->
  AuctionsService.currentBid_of a = last (placed db (a_id a)) (a_starting_price a)
  /\ a_starting_price a <= AuctionsService.currentBid_of a.
Proof.
  intros [_ [Hall [_ Hc]]]. unfold AuctionsService.currentBid_of. rewrite Hc.
  destruct (last_In_or_default (placed db (a_id a)) (a_starting_price a))
    as [[_ E]|[_ Hin]].
  - rewrite E, or_else_same. split; [reflexivity | apply Qle_refl].
  - rewrite Forall_forall in Hall. destruct (Hall _ Hin) as [Hs H0].
    rewrite (or_else_positive _ _ H0). split; [reflexivity|].
    now apply Qlt_le_weak.
Qed.

Lemma placeBid_accepted fl now bidId db auctionId bidderId bidAmount currency a l :
  AuctionsService.placeBid_read fl db auctionId = Some (a, l) ->
  AuctionsService.placeBid_validate now (a, l) bidderId bidAmount = None ->
  fl 1%nat = false -> fl 2%nat = false ->
  AuctionsService.placeBid fl now bidId db auctionId bidderId bidAmount currency
  = (update_auctions
       (insert_bid db
          (mkBid bidId auctionId bidderId bidAmount
                 (if String.eqb currency "" then "USD" else currency) now false))
       auctionId
       (set_bid_state bidAmount (or_else_Z (a_bid_count a) 0 + 1) now),
     Ok (mkBid bidId auctionId bidderId bidAmount
               (if String.eqb currency "" then "USD" else currency) now false)).
Proof.
  intros Hr Hv H1 H2. unfold AuctionsService.placeBid. rewrite Hr, Hv.
  unfold AuctionsService.placeBid_insert, AuctionsService.placeBid_update.
  now rewrite H1, H2.
Qed.

Lemma placed_after_bid db bid auctionId f id :
  placed (update_auctions (insert_bid db bid) auctionId f) id
  = placed db id
    ++ (if String.eqb (b_auction_id bid) id then [b_bid_amount bid] else []).
Proof.
  unfold placed, bids_of. cbn [update_auctions insert_bid bids].
  rewrite filter_app, map_app. simpl.
  now destruct (String.eqb (b_auction_id bid) id).
Qed.

Lemma number_cent : exists d, number (1 # 100) = Finite d /\ 0 < d.
Proof. eexists. split; [vm_compute; reflexivity | reflexivity]. Qed.

Lemma DTO_positive x : PlaceBidDto_valid x = true -> 0 < x.
Proof.
  unfold PlaceBidDto_valid. intro H.
  apply Qnot_le_lt. intro L. apply number_le in L.
  destruct number_cent as [d [Ec Hd]]. rewrite Ec in H.
  change (number 0) with (Finite 0) in L.
  destruct (number x) as [q| | |].
  - cbn [le64] in H, L. apply Qle_bool_iff in H, L. lra.
  - exact (diff_false_true L).
  - exact (diff_false_true H).
  - exact (diff_false_true H).
Qed.

Lemma settled_placeBid fl now bidId db auctionId bidderId bidAmount currency :
  fl 1%nat = false -> fl 2%nat = false ->
  PlaceBidDto_valid bidAmount = true ->
  settled db ->
  settled (fst (AuctionsService.placeBid fl now bidId db auctionId bidderId
                  bidAmount currency)).
Proof.
  intros H1 H2 Hdto Hset.
  destruct (AuctionsService.placeBid_read fl db auctionId) as [[a l]|] eqn:Hr.
  2:{ unfold AuctionsService.placeBid. now rewrite Hr. }
  destruct (AuctionsService.placeBid_validate now (a, l) bidderId bidAmount)
    as [err|] eqn:Hv.
  { now rewrite (placeBid_rejected fl now bidId db auctionId bidderId bidAmount
                   currency (a, l) err Hr Hv). }
  rewrite (placeBid_accepted fl now bidId db auctionId bidderId bidAmount currency
             a l Hr Hv H1 H2).
  cbn [fst]. destruct Hset as [Hl Hb].
  destruct (placeBid_read_Some _ _ _ _ _ Hr) as [_ Hs].
  destruct (single_select_In _ _ _ Hs) as [Hin [Hid Huniq]].
  rewrite Forall_forall in Hl. pose proof (Hl a Hin) as Hla.
  destruct (ledger_currentBid db a Hla) as [Hcur Hge].
  pose proof (validate_None_above now a l bidderId bidAmount Hv) as Hlt.
  destruct Hla as [Hsi [Hall [Hcnt Hc]]].
  split.
  - cbn [update_auctions auctions]. apply Forall_forall.
    intros r' Hr'. apply in_map_iff in Hr'. destruct Hr' as [r [Eq Hrin]].
    destruct (String.eqb (a_id r) auctionId) eqn:E.
    + apply String.eqb_eq in E. rewrite (Huniq r Hrin E) in Eq. subst r'.
      unfold ledger_ok. cbn [set_bid_state a_id a_starting_price a_bid_count
                             a_current_bid].
      rewrite placed_after_bid. cbn [b_auction_id b_bid_amount].
      rewrite Hid, String.eqb_refl. rewrite Hid in *.
      split; [|split; [|split]].
      * apply strictly_increasing_snoc with (d := a_starting_price a);
          [exact Hsi|]. intros _. now rewrite <- Hcur.
      * apply Forall_app. split; [exact Hall|]. constructor; [|constructor].
        split; [|now apply DTO_positive].
        now apply Qle_lt_trans with (AuctionsService.currentBid_of a).
      * rewrite Hcnt, or_else_Z_Some, length_app. simpl. f_equal. lia.
      * now rewrite last_last.
    + subst r'. pose proof (Hl r Hrin) as Hlr. unfold ledger_ok in *.
      rewrite placed_after_bid. cbn [b_auction_id].
      apply String.eqb_neq in E.
      assert (E' : String.eqb auctionId (a_id r) = false)
        by (apply String.eqb_neq; congruence).
      rewrite E', app_nil_r. exact Hlr.
  - cbn [update_auctions insert_bid bids auctions]. intros b Hbin.
    rewrite map_map.
    assert (Hids : map (fun x => a_id (if String.eqb (a_id x) auctionId
                                       then set_bid_state bidAmount
                                              (or_else_Z (a_bid_count a) 0 + 1) now x
                                       else x)) (auctions db)
                   = map a_id (auctions db)).
    { apply map_ext. intro x. now destruct (String.eqb (a_id x) auctionId). }
    rewrite Hids. apply in_app_or in Hbin. destruct Hbin as [Hbin|[Hbin|[]]].
    + now apply Hb.
    + subst b. cbn [b_auction_id]. apply in_map_iff.
      exists a. split; [exact Hid | exact Hin].
Qed.

Lemma exec_settled e s :
  sequential_event e = true -> settled (sys_db s) -> settled (sys_db (exec e s)).
Proof.
  intros Hseq H. destruct e; try discriminate; cbn [exec].
  - destruct (id_in_use (sys_db s) listingId auctionId) eqn:Hu; [exact H|].
    cbn [with_db sys_db]. now apply settled_create.
  - destruct (negb (PlaceBidDto_valid bidAmount)) eqn:Hd; [exact H|].
    apply negb_false_iff in Hd. cbn [sequential_event] in Hseq.
    apply andb_true_iff in Hseq. destruct Hseq as [F1 F2].
    apply negb_true_iff in F1, F2.
    pose proof (settled_placeBid fl now bidId (sys_db s) auctionId bidderId
                  bidAmount currency F1 F2 Hd H) as Hp.
    destruct (AuctionsService.placeBid fl now bidId (sys_db s) auctionId bidderId
                bidAmount currency) as [db' r].
    exact Hp.
  - apply (settled_frame (sys_db s)); [apply endAuction_frame | exact H].
  - apply (settled_frame (sys_db s)); [apply extendAuction_frame | exact H].
  - apply (settled_frame (sys_db s)); [apply cancelAuction_frame | exact H].
  - apply (settled_frame (sys_db s));
      [apply checkAndEndExpiredAuctions_frame | exact H].
  - apply (settled_frame (sys_db s)); [apply listings_placeBid_frame | exact H].
  - apply (settled_frame (sys_db s)); [apply closeExpiredAuctions_frame | exact H].
Qed.

Lemma run_settled evs : forall s,
  sequential evs = true -> settled (sys_db s) -> settled (sys_db (run evs s)).
Proof.
  induction evs as [|e evs IH]; intros s Hseq H; [exact H|].
  simpl in Hseq. apply andb_true_iff in Hseq. destruct Hseq as [He Hevs].
  simpl. apply IH; [exact Hevs|]. now apply exec_settled.
Qed.

Lemma init_settled : settled (sys_db init).
Proof. split; [constructor | intros b []]. Qed.

(** ** The current bid and the count *)

Lemma max_amount_head y r m : max_amount (y :: r) = Some m -> y <= m.
Proof.
  simpl. destruct (max_amount r) as [m'|]; intro H; injection H as <-.
  - apply Q.le_max_l.
  - apply Qle_refl.
Qed.

Lemma max_of_increasing (l : list Q) (d : Q) :
  strictly_increasing l -> l <> [] ->
  exists m, max_amount l = Some m /\ m == last l d.
Proof.
  induction l as [|y r IH]; intros Hs Hne; [contradiction|].
  destruct r as [|z r'].
  - exists y. split; reflexivity.
  - destruct Hs as [Hyz Hs].
    destruct (IH Hs) as [m [Hm Hlast]]; [discriminate|].
    exists (Qmax y m). split.
    + change (max_amount (y :: z :: r')) with
        (match max_amount (z :: r') with
         | Some m => Some (Qmax y m)
         | None => Some y
         end).
      now rewrite Hm.
    + change (last (y :: z :: r') d) with (last (z :: r') d).
      rewrite <- Hlast. apply Q.max_r.
      apply Qlt_le_weak. apply Qlt_le_trans with z; [exact Hyz|].
      now apply max_amount_head with r'.
Qed.

(** C1, amended.  [placeBid] has no conditional update and no retry: its
    update writes the new [current_bid] and the count read earlier plus
    one, whatever is stored by then.  In every schedule in which no
    [placeBid] is interleaved with another call and the writes of [placeBid]
    go through, the amounts of the bids of an auction are strictly
    increasing in the order of their insertion and [bid_count] is the
    number of its bids: no accepted bid is lost from the totals. *)
Theorem totals_without_interleaving :
  (forall fl now db auctionId bidAmount snapshot r,
      fl 2%nat = false ->
      In r (select_auctions
              (fst (AuctionsService.placeBid_update fl now db auctionId bidAmount
                      snapshot)) auctionId) ->
      a_current_bid r = Some bidAmount
      /\ a_bid_count r = Some (or_else_Z (a_bid_count snapshot) 0 + 1)%Z)
  /\ (forall evs a,
        sequential evs = true ->
        In a (auctions (sys_db (run evs init))) ->
        strictly_increasing (placed (sys_db (run evs init)) (a_id a))
        /\ a_bid_count a
           = Some (Z.of_nat
                     (List.length (bids_of (sys_db (run evs init)) (a_id a))))).
Proof.
  split.
  - intros fl now db auctionId bidAmount snapshot r H2 Hin.
    unfold AuctionsService.placeBid_update in Hin. rewrite H2 in Hin.
    cbn [fst] in Hin. rewrite select_update_same in Hin by reflexivity.
    apply in_map_iff in Hin. destruct Hin as [r0 [Hr0 _]]. subst r.
    split; reflexivity.
  - intros evs a Hseq Hin.
    destruct (run_settled evs init Hseq init_settled) as [Hl _].
    rewrite Forall_forall in Hl. destruct (Hl a Hin) as [Hsi [_ [Hcnt _]]].
    split; [exact Hsi|]. rewrite Hcnt. unfold placed. now rewrite length_map.
Qed.

(** The theorem after three bids placed in turn on auction ["A1"]. *)
Lemma totals_without_interleaving_witness :
  a_bid_count (mkAuction "A1" "L1" 1000 100 (Some 117) (Some 3%Z) None None
                         "active" 3)
  = Some (Z.of_nat (List.length (bids_of (sys_db (run example_in_turn init)) "A1"))).
Proof.
  assert (Hin : In (mkAuction "A1" "L1" 1000 100 (Some 117) (Some 3%Z) None None
                              "active" 3)
                   (auctions (sys_db (run example_in_turn init))))
    by (vm_compute; left; reflexivity).
  destruct totals_without_interleaving as [_ Hseq].
  destruct (Hseq example_in_turn _ eq_refl Hin) as [_ H].
  exact H.
Defined.

(** Two calls read the same current bid of 105 and both are accepted; the
    auction then counts 2 bids while 3 rows are in [bids]. *)
Lemma totals_without_interleaving_counterexample :
  let s := run example_race init in
  observed_currentBid s 1 = Some 105
  /\ observed_currentBid s 2 = Some 105
  /\ option_map is_ok (answer s 1) = Some true
  /\ option_map is_ok (answer s 2) = Some true
  /\ map a_bid_count (select_auctions (sys_db s) "A1") = [Some 2%Z]
  /\ List.length (bids_of (sys_db s) "A1") = 3%nat.
Proof. repeat split; reflexivity. Qed.

(** C4, amended.  In every reachable state, whatever the interleaving and
    the failures of the store, the current bid of every auction is at least
    its starting price, and it is the starting price when the count is 0.
    In the schedules in which no [placeBid] is interleaved with another
    call and the writes of [placeBid] go through, the current bid is the
    greatest amount bid on the auction, or the starting price when there is
    no bid. *)
Theorem currentBid_invariant :
  forall evs a,
    In a (auctions (sys_db (run evs init))) ->
    (exists c,
        a_current_bid a = Some c
        /\ a_starting_price a <= c
        /\ a_starting_price a <= AuctionsService.currentBid_of a
        /\ (a_bid_count a = Some 0%Z -> c = a_starting_price a))
    /\ (sequential evs = true ->
        exists c,
          a_current_bid a = Some c
          /\ c == match max_amount (placed (sys_db (run evs init)) (a_id a)) with
                  | Some m => m
                  | None => a_starting_price a
                  end).
Proof.
  intros evs a Hin. split.
  - destruct (run_safe evs init init_safe) as [Hp _].
    rewrite Forall_forall in Hp. pose proof (Hp a Hin) as Hpa.
    pose proof (currentBid_of_ge a Hpa) as Hge.
    destruct Hpa as [c [n [Hc [Hn [Hle [_ H0]]]]]].
    exists c. repeat split; try assumption.
    intro E. apply H0. congruence.
  - intro Hseq. destruct (run_settled evs init Hseq init_settled) as [Hl _].
    rewrite Forall_forall in Hl. destruct (Hl a Hin) as [Hsi [_ [_ Hc]]].
    exists (last (placed (sys_db (run evs init)) (a_id a)) (a_starting_price a)).
    split; [exact Hc|].
    destruct (placed (sys_db (run evs init)) (a_id a)) as [|x r] eqn:E.
    + reflexivity.
    + destruct (max_of_increasing (x :: r) (a_starting_price a) Hsi)
        as [m [Hm Hlast]]; [discriminate|].
      rewrite Hm. now symmetry.
Qed.

(** The theorem after three bids placed in turn on auction ["A1"]. *)
Lemma currentBid_invariant_witness :
  exists c,
    a_current_bid (mkAuction "A1" "L1" 1000 100 (Some 117) (Some 3%Z) None None
                             "active" 3) = Some c
    /\ 100 <= c.
Proof.
  assert (Hin : In (mkAuction "A1" "L1" 1000 100 (Some 117) (Some 3%Z) None None
                              "active" 3)
                   (auctions (sys_db (run example_in_turn init))))
    by (vm_compute; left; reflexivity).
  destruct (currentBid_invariant example_in_turn _ Hin) as [[c [Hc [Hle _]]] _].
  exists c. split; [exact Hc | exact Hle].
Defined.

(** After the two interleaved calls the current bid is 111 although a bid
    of 116 was accepted and inserted. *)
Lemma currentBid_invariant_counterexample :
  let s := run example_race init in
  map a_current_bid (select_auctions (sys_db s) "A1") = [Some 111]
  /\ placed (sys_db s) "A1" = [105; 116; 111]
  /\ max_amount (placed (sys_db s) "A1") = Some 116
  /\ ~ 111 == 116.
Proof.
  split; [reflexivity|]. split; [reflexivity|]. split; [reflexivity|].
  intro H. discriminate.
Qed.

(** * Further properties *)

(** ** [cancelAuction] *)

Lemma filter_map_same_id (g : AuctionRow -> AuctionRow) (id : Id)
    (l : list AuctionRow) :
  (forall a, a_id (g a) = a_id a) ->
  filter (fun a => String.eqb (a_id a) id) (map g l)
  = map g (filter (fun a => String.eqb (a_id a) id) l).
Proof.
  intro H. induction l as [|a r IH]; [reflexivity|].
  simpl. rewrite H. destruct (String.eqb (a_id a) id); simpl; now rewrite IH.
Qed.

Lemma filter_map_elsewhere (g : AuctionRow -> AuctionRow) (id id' : Id)
    (l : list AuctionRow) :
  (forall a, a_id (g a) = a_id a) ->
  (forall a, a_id a <> id -> g a = a) ->
  id <> id' ->
  filter (fun a => String.eqb (a_id a) id') (map g l)
  = filter (fun a => String.eqb (a_id a) id') l.
Proof.
  intros Hid Hg Hne. induction l as [|a r IH]; [reflexivity|].
  simpl. rewrite Hid. destruct (String.eqb (a_id a) id') eqn:E; [|exact IH].
  apply String.eqb_eq in E. rewrite Hg by congruence. now rewrite IH.
Qed.

Lemma filter_both {A} (p q : A -> bool) (l : list A) :
  filter (fun x => p x && q x) l = filter q (filter p l).
Proof.
  induction l as [|x r IH]; [reflexivity|].
  simpl. destruct (p x); simpl; [|exact IH].
  destruct (q x); now rewrite IH.
Qed.

Lemma cancel_row_id id now a : a_id (cancel_row id now a) = a_id a.
Proof.
  unfold cancel_row.
  now destruct (String.eqb (a_id a) id && String.eqb (a_status a) "active").
Qed.

(** The update of [cancelAuction], when the bids query found nothing or
    failed. *)
Lemma cancelAuction_update fl now db id a :
  fl 1%nat = false ->
  (fl 0%nat = true \/ bids_of db id = []) ->
  single (select_auctions db id) = Some a ->
  AuctionsService.cancelAuction fl now db id
  = if String.eqb (a_status a) "active"
    then (mkDB (map (cancel_row id now) (auctions db)) (bids db) (listings db)
               (listing_bids db),
          Ok (set_status "cancelled" now a))
    else (db, Err FailedToCancelAuction).
Proof.
  intros H1 Hb Hs. unfold AuctionsService.cancelAuction.
  assert (Hcheck : match (if fl 0%nat then None
                          else Some (firstn 1 (bids_of db id))) with
                   | Some l => (0 <? List.length l)%nat
                   | None => false
                   end = false).
  { destruct (fl 0%nat); [reflexivity|].
    destruct Hb as [Hb|Hb]; [discriminate|]. now rewrite Hb. }
  rewrite Hcheck, H1.
  rewrite (filter_both (fun a => String.eqb (a_id a) id)
             (fun a => String.eqb (a_status a) "active")).
  fold (select_auctions db id). rewrite (single_Some _ _ Hs). simpl.
  destruct (String.eqb (a_status a) "active"); reflexivity.
Qed.

(** X1.  On an existing auction and with the store answering,
    [cancelAuction] refuses when the auction has a bid, fails when the
    status is not 'active', and otherwise sets the status to 'cancelled'
    and leaves the bidding state, the end, the bids and the other auctions
    as they were. *)
Theorem cancelAuction_spec :
  forall now db auctionId auction,
    single (select_auctions db auctionId) = Some auction ->
    let out := AuctionsService.cancelAuction no_faults now db auctionId in
    (bids_of db auctionId <> [] -> out = (db, Err CannotCancelWithBids))
    /\ (bids_of db auctionId = [] -> a_status auction <> "active"%string ->
        out = (db, Err FailedToCancelAuction))
    /\ (bids_of db auctionId = [] -> a_status auction = "active"%string ->
        snd out = Ok (set_status "cancelled" now auction)
        /\ single (select_auctions (fst out) auctionId)
           = Some (set_status "cancelled" now auction)
        /\ bids (fst out) = bids db
        /\ listings (fst out) = listings db
        /\ (forall id', id' <> auctionId ->
              select_auctions (fst out) id' = select_auctions db id')).
Proof.
  intros now db id a Hs out. split; [|split].
  - intro Hne. unfold out, AuctionsService.cancelAuction. cbn [no_faults].
    destruct (bids_of db id) as [|b r]; [contradiction|]. reflexivity.
  - intros Hb Hst. unfold out.
    rewrite (cancelAuction_update no_faults now db id a eq_refl (or_intror Hb) Hs).
    now rewrite (string_eqb_neq _ _ Hst).
  - intros Hb Hst. unfold out.
    rewrite (cancelAuction_update no_faults now db id a eq_refl (or_intror Hb) Hs).
    rewrite Hst, String.eqb_refl. cbn [fst snd].
    split; [reflexivity|]. split.
    + unfold select_auctions at 1. cbn [auctions].
      rewrite filter_map_same_id by (intro x; apply cancel_row_id).
      fold (select_auctions db id). rewrite (single_Some _ _ Hs). simpl.
      unfold cancel_row.
      destruct (single_select_In _ _ _ Hs) as [_ [Hid _]].
      now rewrite Hid, String.eqb_refl, Hst.
    + split; [reflexivity|]. split; [reflexivity|].
      intros id' Hne. unfold select_auctions. cbn [auctions].
      apply filter_map_elsewhere with (id := id);
        [intro x; apply cancel_row_id | | congruence].
      intros x Hx. unfold cancel_row. now rewrite (string_eqb_neq _ _ Hx).
Qed.

(** The theorem at auction ["A1"], which has no bid. *)
Lemma cancelAuction_spec_witness :
  snd (AuctionsService.cancelAuction no_faults 500 example_db "A1")
  = Ok (set_status "cancelled" 500 example_auction).
Proof.
  destruct (cancelAuction_spec 500 example_db "A1" example_auction eq_refl)
    as [_ [_ H]].
  destruct (H eq_refl eq_refl) as [Hok _]. exact Hok.
Defined.

(** X2.  When the bids query of [cancelAuction] comes back with an error,
    the check for existing bids is skipped: an active auction is cancelled
    whatever bids it has, and its bids stay in the table. *)
Theorem cancelAuction_despite_bids :
  forall fl now db auctionId auction,
    fl 0%nat = true -> fl 1%nat = false ->
    single (select_auctions db auctionId) = Some auction ->
    a_status auction = "active"%string ->
    let out := AuctionsService.cancelAuction fl now db auctionId in
    snd out = Ok (set_status "cancelled" now auction)
    /\ single (select_auctions (fst out) auctionId)
       = Some (set_status "cancelled" now auction)
    /\ bids_of (fst out) auctionId = bids_of db auctionId.
Proof.
  intros fl now db id a H0 H1 Hs Hst out. unfold out.
  rewrite (cancelAuction_update fl now db id a H1 (or_introl H0) Hs).
  rewrite Hst, String.eqb_refl. cbn [fst snd].
  split; [reflexivity|]. split; [|reflexivity].
  unfold select_auctions at 1. cbn [auctions].
  rewrite filter_map_same_id by (intro x; apply cancel_row_id).
  fold (select_auctions db id). rewrite (single_Some _ _ Hs). simpl.
  unfold cancel_row.
  destruct (single_select_In _ _ _ Hs) as [_ [Hid _]].
  now rewrite Hid, String.eqb_refl, Hst.
Qed.

(** The theorem at auction ["A1"] after a bid of 105. *)
Lemma cancelAuction_despite_bids_witness :
  List.length (bids_of example_bid_db "A1") = 1%nat
  /\ map a_status
       (select_auctions
          (fst (AuctionsService.cancelAuction bids_query_fails 500 example_bid_db
                  "A1")) "A1")
     = ["cancelled"%string].
Proof.
  split; [reflexivity|].
  destruct (cancelAuction_despite_bids bids_query_fails 500 example_bid_db "A1"
              (mkAuction "A1" "L1" 1000 100 (Some 105) (Some 1%Z) None None
                         "active" 1)
              eq_refl eq_refl eq_refl eq_refl) as [_ [H _]].
  apply single_Some in H. rewrite H. reflexivity.
Defined.

(** ** Closed auctions *)

Lemma not_active_refuses_all db id a :
  single (select_auctions db id) = Some a ->
  a_status a <> "active"%string ->
  refuses_all db id.
Proof.
  intros Hs Hst fl now. split; [|split; [|split]].
  - intros bidId bidderId bidAmount currency.
    unfold AuctionsService.placeBid, AuctionsService.placeBid_read.
    destruct (fl 0%nat); [repeat split; discriminate|].
    rewrite Hs. unfold AuctionsService.placeBid_validate.
    rewrite (string_eqb_neq _ _ Hst). now repeat split.
  - intro m. unfold AuctionsService.extendAuction.
    destruct (fl 0%nat); [now split|].
    rewrite Hs, (string_eqb_neq _ _ Hst). now split.
  - unfold AuctionsService.cancelAuction.
    rewrite (filter_both (fun a => String.eqb (a_id a) id)
               (fun a => String.eqb (a_status a) "active")).
    fold (select_auctions db id). rewrite (single_Some _ _ Hs). simpl.
    rewrite (string_eqb_neq _ _ Hst). simpl. now case_split.
  - unfold AuctionsService.cancelAuction.
    rewrite (filter_both (fun a => String.eqb (a_id a) id)
               (fun a => String.eqb (a_status a) "active")).
    fold (select_auctions db id). rewrite (single_Some _ _ Hs). simpl.
    rewrite (string_eqb_neq _ _ Hst). simpl. now case_split.
Qed.

(** X3.  Once [endAuction] or [cancelAuction] has succeeded on an auction,
    every later [placeBid], [extendAuction] and [cancelAuction] on it
    fails and leaves the store unchanged, whatever its arguments;
    [placeBid] answers AuctionNotActive when its read goes through. *)
Theorem closed_auction_refuses_all :
  forall fl now db auctionId auction,
    single (select_auctions db auctionId) = Some auction ->
    (is_ok (snd (AuctionsService.endAuction fl now db auctionId)) = true ->
     refuses_all (fst (AuctionsService.endAuction fl now db auctionId)) auctionId)
    /\ (is_ok (snd (AuctionsService.cancelAuction fl now db auctionId)) = true ->
        refuses_all (fst (AuctionsService.cancelAuction fl now db auctionId))
          auctionId).
Proof.
  intros fl now db id a0 Hs0. split.
  - unfold AuctionsService.endAuction.
    set (hb := if fl 0%nat then None else top_by b_bid_amount (bids_of db id)).
    set (db1 := match hb with Some _ => _ | None => _ end).
    destruct (fl 4%nat); [discriminate|].
    destruct (single (select_auctions db1 id)) as [a|] eqn:Hs; [|discriminate].
    intros _. cbn [fst].
    apply not_active_refuses_all
      with (a := AuctionsService.endAuction_updateData hb now a).
    + apply single_select_update; [intro x; apply updateData_id | exact Hs].
    + destruct hb; discriminate.
  - unfold AuctionsService.cancelAuction.
    rewrite (filter_both (fun a => String.eqb (a_id a) id)
               (fun a => String.eqb (a_status a) "active")).
    fold (select_auctions db id). rewrite (single_Some _ _ Hs0).
    cbn [filter].
    destruct (String.eqb (a_status a0) "active") eqn:Hst;
      [|cbn [single]; case_split; discriminate].
    cbn [single]. case_split; try discriminate. intros _. cbn [fst].
    apply not_active_refuses_all with (a := set_status "cancelled" now a0);
      [|discriminate].
    unfold select_auctions. cbn [auctions].
    change (fun a => if String.eqb (a_id a) id && String.eqb (a_status a) "active"
                     then set_status "cancelled" now a else a)
      with (cancel_row id now).
    rewrite filter_map_same_id by (intro x; apply cancel_row_id).
    fold (select_auctions db id). rewrite (single_Some _ _ Hs0). simpl.
    unfold cancel_row.
    destruct (single_select_In _ _ _ Hs0) as [_ [Hid _]].
    now rewrite Hid, String.eqb_refl, Hst.
Qed.

(** The theorem at auction ["A1"] after [endAuction]: a bid of 1000 is
    refused. *)
Lemma closed_auction_refuses_all_witness :
  snd (AuctionsService.placeBid no_faults 20 "b9"
         (fst (AuctionsService.endAuction no_faults 10 example_db "A1")) "A1" "u1"
         1000 "USD")
  = Err AuctionNotActive.
Proof.
  destruct (closed_auction_refuses_all no_faults 10 example_db "A1" example_auction
              eq_refl) as [H _].
  destruct (H eq_refl no_faults 20%Z) as [Hbid _].
  destruct (Hbid "b9"%string "u1"%string 1000 "USD"%string) as [_ [_ Hr]].
  exact (Hr eq_refl).
Defined.

(** ** Histories of rows *)

Lemma touched_trans a b c : touched a b -> touched b c -> touched a c.
Proof.
  intros Hab Hbc. induction Hbc.
  - exact Hab.
  - now apply touched_bid.
  - now apply touched_end.
  - now apply touched_winner.
  - now apply touched_cancel.
  - now apply touched_extend.
Qed.

Lemma bid_kept_refl b : bid_kept b b.
Proof. unfold bid_kept. tauto. Qed.

Lemma bid_kept_trans a b c : bid_kept a b -> bid_kept b c -> bid_kept a c.
Proof.
  unfold bid_kept.
  intros [A1 [A2 [A3 [A4 [A5 [A6 A7]]]]]] [B1 [B2 [B3 [B4 [B5 [B6 B7]]]]]].
  repeat split; try congruence. auto.
Qed.

Lemma bid_kept_mark hid b : bid_kept b (mark hid b).
Proof.
  unfold bid_kept, mark. destruct (String.eqb (b_id b) hid); simpl; tauto.
Qed.

Lemma Forall2_map_right_In {A} (R : A -> A -> Prop) (g : A -> A) (l : list A) :
  (forall x, In x l -> R x (g x)) -> Forall2 R l (map g l).
Proof.
  induction l as [|x r IH]; intro H; simpl; constructor.
  - apply H. now left.
  - apply IH. intros y Hy. apply H. now right.
Qed.

Lemma grows_same {A} (R : A -> A -> Prop) (P : A -> Prop) (l l' : list A) :
  (forall x, R x x) -> l' = l -> grows R P l l'.
Proof.
  intros Hr ->. exists l, []. split; [now rewrite app_nil_r|].
  split; [now apply Forall2_same | constructor].
Qed.

Lemma grows_related {A} (R : A -> A -> Prop) (P : A -> Prop) (l l' : list A) :
  Forall2 R l l' -> grows R P l l'.
Proof.
  intro H. exists l', []. split; [now rewrite app_nil_r|].
  split; [exact H | constructor].
Qed.

Lemma grows_more {A} (R : A -> A -> Prop) (P : A -> Prop) (l l' rest : list A) :
  (forall x, R x x) -> Forall P rest -> l' = l ++ rest -> grows R P l l'.
Proof.
  intros Hr Hp ->. exists l, rest. split; [reflexivity|].
  split; [now apply Forall2_same | exact Hp].
Qed.

Lemma grows_trans {A} (R : A -> A -> Prop) (P : A -> Prop) (l1 l2 l3 : list A) :
  (forall x y z, R x y -> R y z -> R x z) ->
  (forall x y, P x -> R x y -> P y) ->
  grows R P l1 l2 -> grows R P l2 l3 -> grows R P l1 l3.
Proof.
  intros Ht Hp [f1 [r1 [E1 [H1 P1]]]] [f2 [r2 [E2 [H2 P2]]]]. subst l2.
  apply Forall2_app_inv_l in H2. destruct H2 as [f2a [f2b [Ha [Hb E]]]].
  subst f2. exists f2a, (f2b ++ r2). split; [|split].
  - now rewrite E2, app_assoc.
  - exact (Forall2_compose R _ _ _ Ht H1 Ha).
  - apply Forall_app. split; [|exact P2].
    exact (Forall2_Forall_to R P P r1 f2b (fun x y r p => Hp x y p r) Hb P1).
Qed.

Lemma born_touched a b : born a -> touched a b -> born b.
Proof.
  intros [a0 [H1 [H2 [H3 [H4 [H5 H6]]]]]] Hab. exists a0.
  repeat split; try assumption. now apply touched_trans with a.
Qed.

Lemma history_refl db : history db db.
Proof.
  split; apply grows_same; try reflexivity;
    [apply touched_none | apply bid_kept_refl].
Qed.

Lemma history_trans d1 d2 d3 : history d1 d2 -> history d2 d3 -> history d1 d3.
Proof.
  intros [A1 B1] [A2 B2]. split.
  - exact (grows_trans touched born _ _ _ touched_trans born_touched A1 A2).
  - exact (grows_trans bid_kept (fun _ => True) _ _ _ bid_kept_trans
             (fun _ _ _ _ => I) B1 B2).
Qed.

Lemma history_same_tables db db' :
  auctions db' = auctions db -> bids db' = bids db -> history db db'.
Proof.
  intros Ha Hb. split; apply grows_same; try assumption;
    [apply touched_none | apply bid_kept_refl].
Qed.

Lemma updateData_touched hb now id a :
  touched a (if String.eqb (a_id a) id
             then AuctionsService.endAuction_updateData hb now a else a).
Proof.
  destruct (String.eqb (a_id a) id); [|apply touched_none].
  destruct hb as [h|]; simpl.
  - apply touched_winner; [|reflexivity]. apply touched_end, touched_none.
  - apply touched_end, touched_none.
Qed.

Lemma endAuction_history fl now db id :
  history db (fst (AuctionsService.endAuction fl now db id)).
Proof.
  destruct (endAuction_shape fl now db id) as [Ha [Hb _]]. split.
  - destruct Ha as [Ha|[hb Ha]]; rewrite Ha.
    + apply grows_same; [apply touched_none | reflexivity].
    + apply grows_related, Forall2_map_right. intro a. apply updateData_touched.
  - destruct Hb as [Hb|[hid Hb]]; rewrite Hb.
    + apply grows_same; [apply bid_kept_refl | reflexivity].
    + apply grows_related, Forall2_map_right. intro b. apply bid_kept_mark.
Qed.

Lemma extendAuction_history fl now db id m :
  history db (fst (AuctionsService.extendAuction fl now db id m)).
Proof.
  unfold AuctionsService.extendAuction.
  destruct (if fl 0%nat then None else single (select_auctions db id))
    as [a|] eqn:Hr; [|apply history_refl].
  destruct (negb (String.eqb (a_status a) "active")) eqn:Hst;
    [apply history_refl|].
  destruct (lt64 _ m); [apply history_refl|].
  destruct (TimeClip _) as [e|]; [|apply history_refl].
  destruct (fl 1%nat); [apply history_refl|].
  destruct (fl 0%nat); [discriminate|].
  rewrite Hr. cbn [fst]. split; [|apply grows_same; [apply bid_kept_refl | reflexivity]].
  apply grows_related. cbn [update_auctions auctions].
  apply Forall2_map_right_In. intros x Hx.
  destruct (String.eqb (a_id x) id) eqn:E; [|apply touched_none].
  apply String.eqb_eq in E.
  destruct (single_select_In _ _ _ Hr) as [_ [_ Huniq]].
  rewrite (Huniq x Hx E).
  apply touched_extend; [apply touched_none|].
  apply negb_false_iff in Hst. now apply String.eqb_eq.
Qed.

Lemma cancelAuction_history fl now db id :
  history db (fst (AuctionsService.cancelAuction fl now db id)).
Proof.
  unfold AuctionsService.cancelAuction.
  case_split; cbn [fst]; try apply history_refl.
  split; [|apply grows_same; [apply bid_kept_refl | reflexivity]].
  apply grows_related. cbn [auctions]. apply Forall2_map_right. intro x.
  destruct (String.eqb (a_id x) id && String.eqb (a_status x) "active") eqn:E;
    [|apply touched_none].
  apply touched_cancel; [apply touched_none|].
  apply andb_true_iff in E. destruct E as [_ E]. now apply String.eqb_eq.
Qed.

Lemma endAuction_fold_history (fle : Id -> Faults) now (l : list AuctionRow) :
  forall d0 d,
    history d0 d ->
    history d0 (fold_left
                  (fun d auction =>
                     fst (AuctionsService.endAuction (fle (a_id auction)) now d
                            (a_id auction))) l d).
Proof.
  induction l as [|x l IH]; intros d0 d H; [exact H|].
  simpl. apply IH. eapply history_trans; [exact H|]. apply endAuction_history.
Qed.

Lemma checkAndEndExpiredAuctions_history fl fle now db :
  history db (AuctionsService.checkAndEndExpiredAuctions fl fle now db).
Proof.
  unfold AuctionsService.checkAndEndExpiredAuctions.
  destruct (fl 0%nat); [apply history_refl|].
  apply endAuction_fold_history. apply history_refl.
Qed.

Lemma frame_tables_history db db' :
  auctions db' = auctions db /\ bids db' = bids db -> history db db'.
Proof. intros [Ha Hb]. now apply history_same_tables. Qed.

Lemma listings_placeBid_tables fl now db listingId userId amount :
  auctions (fst (ListingsService.placeBid fl now db listingId userId amount))
  = auctions db
  /\ bids (fst (ListingsService.placeBid fl now db listingId userId amount))
     = bids db.
Proof.
  unfold ListingsService.placeBid. case_split; cbn [fst]; split; reflexivity.
Qed.

Lemma closeExpiredAuctions_tables fl fu now db :
  auctions (ListingsService.closeExpiredAuctions fl fu now db) = auctions db
  /\ bids (ListingsService.closeExpiredAuctions fl fu now db) = bids db.
Proof.
  unfold ListingsService.closeExpiredAuctions.
  destruct (fl 0%nat); [split; reflexivity|].
  match goal with |- context [fold_left _ ?l _] => generalize l end.
  intro l. generalize db. induction l as [|x l IH]; intro d; [split; reflexivity|].
  simpl. destruct (IH (if fu (l_id x) then d
                       else update_listings d (l_id x)
                              (set_listing_status_at "expired" now))) as [Ha Hb].
  rewrite Ha, Hb. now destruct (fu (l_id x)).
Qed.

Lemma createListing_history fl now listingId auctionId dto db :
  history db (fst (ListingsService.createListing fl now listingId auctionId dto db)).
Proof.
  destruct (createListing_tables fl now listingId auctionId dto db)
    as [Hb [Ha|[e [p Ha]]]]; split.
  - apply grows_same; [apply touched_none | exact Ha].
  - apply grows_same; [apply bid_kept_refl | exact Hb].
  - eapply grows_more; [apply touched_none | | exact Ha].
    constructor; [|constructor].
    eexists. repeat split; [..|apply touched_none]; reflexivity.
  - apply grows_same; [apply bid_kept_refl | exact Hb].
Qed.

Lemma read_history fl now auctionId bidderId bidAmount currency s :
  history (sys_db s)
    (sys_db (exec (BidRead fl now auctionId bidderId bidAmount currency) s)).
Proof. cbn [exec]. case_split; apply history_refl. Qed.

Lemma insert_history k fl bidId s :
  history (sys_db s) (sys_db (exec (BidInsert k fl bidId) s)).
Proof.
  cbn [exec].
  destruct (nth_error (sys_calls s) k) as [[aid b x cur t snap ph]|];
    [|apply history_refl].
  destruct ph; try apply history_refl.
  unfold AuctionsService.placeBid_insert.
  destruct (fl 1%nat); [apply history_refl|]. cbn [sys_db].
  split; [apply grows_same; [apply touched_none | reflexivity]|].
  eapply grows_more; [apply bid_kept_refl | | reflexivity].
  constructor; [exact I | constructor].
Qed.

Lemma update_history k fl now s :
  history (sys_db s) (sys_db (exec (BidUpdate k fl now) s)).
Proof.
  cbn [exec].
  destruct (nth_error (sys_calls s) k) as [[aid b x cur t snap ph]|];
    [|apply history_refl].
  destruct snap as [a|]; [|apply history_refl].
  destruct ph; try apply history_refl.
  unfold AuctionsService.placeBid_update.
  destruct (fl 2%nat); [apply history_refl|]. cbn [sys_db].
  split; [|apply grows_same; [apply bid_kept_refl | reflexivity]].
  apply grows_related. cbn [update_auctions auctions].
  apply Forall2_map_right. intro r.
  destruct (String.eqb (a_id r) aid); [|apply touched_none].
  apply touched_bid, touched_none.
Qed.

Lemma exec_history e s : history (sys_db s) (sys_db (exec e s)).
Proof.
  destruct e.
  - cbn [exec]. destruct (id_in_use (sys_db s) listingId auctionId);
      [apply history_refl|]. apply createListing_history.
  - apply read_history.
  - apply insert_history.
  - apply update_history.
  - rewrite PlaceBid_phases.
    eapply history_trans; [apply read_history|].
    eapply history_trans; [apply insert_history | apply update_history].
  - apply endAuction_history.
  - apply extendAuction_history.
  - apply cancelAuction_history.
  - apply checkAndEndExpiredAuctions_history.
  - apply frame_tables_history, listings_placeBid_tables.
  - apply frame_tables_history, closeExpiredAuctions_tables.
Qed.

Lemma run_history evs : forall s, history (sys_db s) (sys_db (run evs s)).
Proof.
  induction evs as [|e evs IH]; intro s; [apply history_refl|].
  simpl. eapply history_trans; [apply exec_history | apply IH].
Qed.

Lemma touched_keeps a a' :
  touched a a' ->
  a_id a' = a_id a /\ a_listing_id a' = a_listing_id a
  /\ a_starting_price a' = a_starting_price a
  /\ a_reserve_price a' = a_reserve_price a
  /\ (a_status a <> "active"%string -> a_status a' <> "active"%string)
  /\ (a_status a = "ended"%string -> a_status a' = "ended"%string).
Proof.
  induction 1 as [|b x n t _ IH|b t _ IH|b w _ IH Hst|b t _ IH Hst|b e t _ IH Hst].
  - tauto.
  - exact IH.
  - destruct IH as [H1 [H2 [H3 [H4 _]]]]. repeat split; try assumption.
    discriminate.
  - exact IH.
  - destruct IH as [H1 [H2 [H3 [H4 [H5 H6]]]]]. repeat split; try assumption.
    + intros Hn _. now apply H5.
    + intro He. rewrite (H6 He) in Hst. discriminate.
  - exact IH.
Qed.

Lemma Forall2_nth_error {A} (R : A -> A -> Prop) (l l' : list A) k x :
  Forall2 R l l' -> nth_error l k = Some x ->
  exists y, nth_error l' k = Some y /\ R x y.
Proof.
  intro H. revert k. induction H as [|a b l l' Hab _ IH]; intros k Hk.
  - destruct k; discriminate.
  - destruct k as [|k]; simpl in *.
    + injection Hk as <-. now exists b.
    + now apply IH.
Qed.

Lemma grows_nth_error {A} (R : A -> A -> Prop) P (l l' : list A) k x :
  grows R P l l' -> nth_error l k = Some x ->
  exists y, nth_error l' k = Some y /\ R x y.
Proof.
  intros [front [rest [E [H _]]]] Hk.
  destruct (Forall2_nth_error R l front k x H Hk) as [y [Hy Hr]].
  exists y. split; [|exact Hr]. subst l'.
  rewrite nth_error_app1; [exact Hy|].
  apply nth_error_Some. congruence.
Qed.

(** X4.  Whatever is run from a state, under any interleaving and any
    failure of the store, an auction row stays at its place in the table
    with the same [id], [listing_id], [starting_price] and [reserve_price];
    an auction that is not 'active' never becomes 'active' again, and an
    'ended' auction stays 'ended'. *)
Theorem auction_rows_persist :
  forall evs s k a,
    nth_error (auctions (sys_db s)) k = Some a ->
    exists a',
      nth_error (auctions (sys_db (run evs s))) k = Some a'
      /\ a_id a' = a_id a
      /\ a_listing_id a' = a_listing_id a
      /\ a_starting_price a' = a_starting_price a
      /\ a_reserve_price a' = a_reserve_price a
      /\ (a_status a <> "active"%string -> a_status a' <> "active"%string)
      /\ (a_status a = "ended"%string -> a_status a' = "ended"%string).
Proof.
  intros evs s k a Hk. destruct (run_history evs s) as [Ha _].
  destruct (grows_nth_error _ _ _ _ k a Ha Hk) as [a' [Hk' Ht]].
  exists a'. split; [exact Hk'|]. now apply touched_keeps.
Qed.

(** The theorem at auction ["A1"], through the schedule of the two
    interleaved bids. *)
Lemma auction_rows_persist_witness :
  exists a',
    nth_error (auctions (sys_db (run example_race init))) 0 = Some a'
    /\ a_starting_price a' = 100.
Proof.
  destruct (auction_rows_persist (tl example_race) example_created 0 example_auction
              eq_refl) as [a' [Hk [_ [_ [Hp _]]]]].
  exists a'. split; [exact Hk | exact Hp].
Defined.

(** X5.  Whatever is run from a state, a bid row stays at its place in the
    table with the same [id], auction, bidder, amount, currency and time;
    only [is_winning] can change, and it is never cleared. *)
Theorem bid_rows_persist :
  forall evs s k b,
    nth_error (bids (sys_db s)) k = Some b ->
    exists b',
      nth_error (bids (sys_db (run evs s))) k = Some b'
      /\ b_id b' = b_id b /\ b_auction_id b' = b_auction_id b
      /\ b_bidder_id b' = b_bidder_id b /\ b_bid_amount b' = b_bid_amount b
      /\ b_bid_currency b' = b_bid_currency b /\ b_bid_time b' = b_bid_time b
      /\ (b_is_winning b = true -> b_is_winning b' = true).
Proof.
  intros evs s k b Hk. destruct (run_history evs s) as [_ Hb].
  destruct (grows_nth_error _ _ _ _ k b Hb Hk) as [b' [Hk' Hr]].
  exists b'. split; [exact Hk' | exact Hr].
Qed.

(** The theorem at the bid of 105, through an [endAuction]. *)
Lemma bid_rows_persist_witness :
  exists b',
    nth_error (bids (fst (AuctionsService.endAuction no_faults 10 example_bid_db
                            "A1"))) 0 = Some b'
    /\ b_bid_amount b' = 105.
Proof.
  destruct (bid_rows_persist [EndAuction no_faults 10 "A1"]
              (mkSys example_bid_db []) 0
              (mkBid "b1" "A1" "u1" 105 "USD" 1 false) eq_refl)
    as [b' [Hk [_ [_ [_ [Ha _]]]]]].
  exists b'. split; [exact Hk | exact Ha].
Defined.

Lemma born_facts a :
  born a ->
  (a_status a = "active"%string \/ a_status a = "ended"%string
   \/ a_status a = "cancelled"%string)
  /\ (a_winning_bidder_id a <> None -> a_status a = "ended"%string)
  /\ a_reserve_price a = None.
Proof.
  intros [a0 [_ [_ [Hw [Hr [Hs Ht]]]]]].
  induction Ht as [|b x n t _ IH|b t _ IH|b w _ IH Hst|b t _ IH Hst|b e t _ IH Hst].
  - split; [now left|]. split; [intro H; contradiction | exact Hr].
  - exact IH.
  - destruct IH as [_ [_ H3]].
    split; [right; now left|]. split; [reflexivity | exact H3].
  - destruct IH as [H1 [_ H3]].
    split; [exact H1|]. split; [intros _; exact Hst | exact H3].
  - destruct IH as [_ [H2 H3]].
    split; [right; now right|]. split; [|exact H3].
    cbn. intro Hn. specialize (H2 Hn). rewrite H2 in Hst. discriminate.
  - exact IH.
Qed.

(** X6.  In every state reached from the empty store, under any
    interleaving and any failure of the store, the status of an auction is
    'active', 'ended' or 'cancelled'; [winning_bidder_id] is set only on
    'ended' auctions; and [reserve_price] is never set. *)
Theorem auction_status_invariant :
  forall evs a,
    In a (auctions (sys_db (run evs init))) ->
    (a_status a = "active"%string \/ a_status a = "ended"%string
     \/ a_status a = "cancelled"%string)
    /\ (a_winning_bidder_id a <> None -> a_status a = "ended"%string)
    /\ a_reserve_price a = None.
Proof.
  intros evs a Hin. apply born_facts.
  destruct (run_history evs init) as [[front [rest [E [Hf Hp]]]] _].
  inversion Hf; subst. rewrite E in Hin. simpl in Hin.
  rewrite Forall_forall in Hp. now apply Hp.
Qed.

(** The theorem after the schedule in which a bid is written across the
    end of auction ["A1"]. *)
Lemma auction_status_invariant_witness :
  a_status (mkAuction "A1" "L1" 1000 100 (Some 111) (Some 2%Z) (Some "u2"%string)
                      None "ended" 5)
  = "ended"%string.
Proof.
  assert (Hin : In (mkAuction "A1" "L1" 1000 100 (Some 111) (Some 2%Z)
                              (Some "u2"%string) None "ended" 5)
                   (auctions (sys_db (run example_bid_across_end init))))
    by (vm_compute; left; reflexivity).
  destruct (auction_status_invariant example_bid_across_end _ Hin) as [_ [H _]].
  apply H. discriminate.
Defined.

(** ** The increments between accepted bids *)

Lemma spaced_snoc (l : list Q) (d x : Q) :
  spaced l ->
  (l <> [] -> raises (last l d) x) ->
  spaced (l ++ [x]).
Proof.
  induction l as [|y r IH]; intros Hs Hl; [exact I|].
  destruct r as [|z r'].
  - simpl. split; [|exact I]. apply Hl. discriminate.
  - destruct Hs as [Hyz Hs]. split; [exact Hyz|].
    apply IH; [exact Hs|]. intros _. apply Hl. discriminate.
Qed.

Lemma last_cons_default (l : list Q) (x d : Q) : last (x :: l) d = last l x.
Proof.
  revert x d. induction l as [|y r IH]; intros x d; [reflexivity|].
  change (last (x :: y :: r) d) with (last (y :: r) d).
  now rewrite !IH.
Qed.

Lemma all_spaced_frame db db' : frame db db' -> all_spaced db -> all_spaced db'.
Proof.
  intros Hf Hs. pose proof Hf as [Ha _].
  apply (Forall2_Forall_to same_bid_state
           (fun a => spaced (a_starting_price a :: placed db (a_id a)))
           (fun a => spaced (a_starting_price a :: placed db' (a_id a)))
           (auctions db) (auctions db')); [|exact Ha | exact Hs].
  intros x y [[Hid Hst] _] Hx.
  now rewrite Hid, Hst, (placed_frame db db' (a_id x) Hf).
Qed.

Lemma all_spaced_create fl now listingId auctionId dto db :
  id_in_use db listingId auctionId = false ->
  settled db -> all_spaced db ->
  all_spaced (fst (ListingsService.createListing fl now listingId auctionId dto db)).
Proof.
  intros Hu [_ Hb] Hs. apply id_not_in_use in Hu. unfold all_spaced.
  assert (Hplaced : forall id,
             placed (fst (ListingsService.createListing fl now listingId
                            auctionId dto db)) id = placed db id).
  { intro id. unfold placed, bids_of.
    now destruct (createListing_tables fl now listingId auctionId dto db)
      as [-> _]. }
  destruct (createListing_tables fl now listingId auctionId dto db)
    as [_ [Ha|[e [p Ha]]]]; rewrite Ha.
  - apply Forall_forall. intros a Hin. rewrite Hplaced.
    unfold all_spaced in Hs. rewrite Forall_forall in Hs. now apply Hs.
  - apply Forall_app. split.
    + apply Forall_forall. intros a Hin. rewrite Hplaced.
      unfold all_spaced in Hs. rewrite Forall_forall in Hs. now apply Hs.
    + constructor; [|constructor]. rewrite Hplaced. cbn [a_id].
      unfold placed. rewrite no_bids_of; [exact I|].
      intros b Hin Heq. apply Hu. rewrite <- Heq. now apply Hb.
Qed.

Lemma all_spaced_placeBid fl now bidId db auctionId bidderId bidAmount currency :
  fl 1%nat = false -> fl 2%nat = false ->
  settled db -> all_spaced db ->
  all_spaced (fst (AuctionsService.placeBid fl now bidId db auctionId bidderId
                     bidAmount currency)).
Proof.
  intros H1 H2 Hset Hsp.
  destruct (AuctionsService.placeBid_read fl db auctionId) as [[a l]|] eqn:Hr.
  2:{ unfold AuctionsService.placeBid. now rewrite Hr. }
  destruct (AuctionsService.placeBid_validate now (a, l) bidderId bidAmount)
    as [err|] eqn:Hv.
  { now rewrite (placeBid_rejected fl now bidId db auctionId bidderId bidAmount
                   currency (a, l) err Hr Hv). }
  rewrite (placeBid_accepted fl now bidId db auctionId bidderId bidAmount currency
             a l Hr Hv H1 H2).
  cbn [fst]. destruct Hset as [Hl _].
  destruct (placeBid_read_Some _ _ _ _ _ Hr) as [_ Hs].
  destruct (single_select_In _ _ _ Hs) as [Hin [Hid Huniq]].
  rewrite Forall_forall in Hl. pose proof (Hl a Hin) as Hla.
  destruct (ledger_currentBid db a Hla) as [Hcur _].
  pose proof (validate_None_raises now a l bidderId bidAmount Hv) as Hge.
  unfold all_spaced in *. cbn [update_auctions auctions].
  rewrite Forall_forall in Hsp. apply Forall_forall.
  intros r' Hr'. apply in_map_iff in Hr'. destruct Hr' as [r [Eq Hrin]].
  assert (Hidr : a_id r' = a_id r /\ a_starting_price r' = a_starting_price r).
  { subst r'. now destruct (String.eqb (a_id r) auctionId). }
  destruct Hidr as [Hidr Hstr].
  rewrite Hidr, Hstr, placed_after_bid. cbn [b_auction_id b_bid_amount].
  destruct (String.eqb auctionId (a_id r)) eqn:E.
  - apply String.eqb_eq in E.
    assert (Hra : r = a) by (apply Huniq; [exact Hrin | congruence]).
    subst r.
    change (spaced ((a_starting_price a :: placed db (a_id a)) ++ [bidAmount])).
    apply spaced_snoc with (d := 0); [now apply Hsp|].
    intros _. rewrite last_cons_default, <- Hcur. exact Hge.
  - rewrite app_nil_r. now apply Hsp.
Qed.

Lemma exec_spaced e s :
  sequential_event e = true ->
  settled (sys_db s) -> all_spaced (sys_db s) -> all_spaced (sys_db (exec e s)).
Proof.
  intros Hseq Hset H. destruct e; try discriminate; cbn [exec].
  - destruct (id_in_use (sys_db s) listingId auctionId) eqn:Hu; [exact H|].
    cbn [with_db sys_db]. now apply all_spaced_create.
  - destruct (negb (PlaceBidDto_valid bidAmount)) eqn:Hd; [exact H|].
    cbn [sequential_event] in Hseq.
    apply andb_true_iff in Hseq. destruct Hseq as [F1 F2].
    apply negb_true_iff in F1, F2.
    pose proof (all_spaced_placeBid fl now bidId (sys_db s) auctionId bidderId
                  bidAmount currency F1 F2 Hset H) as Hp.
    destruct (AuctionsService.placeBid fl now bidId (sys_db s) auctionId bidderId
                bidAmount currency) as [db' r].
    exact Hp.
  - apply (all_spaced_frame (sys_db s)); [apply endAuction_frame | exact H].
  - apply (all_spaced_frame (sys_db s)); [apply extendAuction_frame | exact H].
  - apply (all_spaced_frame (sys_db s)); [apply cancelAuction_frame | exact H].
  - apply (all_spaced_frame (sys_db s));
      [apply checkAndEndExpiredAuctions_frame | exact H].
  - apply (all_spaced_frame (sys_db s)); [apply listings_placeBid_frame | exact H].
  - apply (all_spaced_frame (sys_db s)); [apply closeExpiredAuctions_frame | exact H].
Qed.

Lemma run_spaced evs : forall s,
  sequential evs = true ->
  settled (sys_db s) -> all_spaced (sys_db s) -> all_spaced (sys_db (run evs s)).
Proof.
  induction evs as [|e evs IH]; intros s Hseq Hset H; [exact H|].
  simpl in Hseq. apply andb_true_iff in Hseq. destruct Hseq as [He Hevs].
  simpl. apply IH; [exact Hevs | now apply exec_settled | now apply exec_spaced].
Qed.

(** X7.  In every schedule without interleaving in which the writes of
    [placeBid] go through, each bid of an auction has passed the two amount
    checks of [placeBid] on the bid before it, and the first bid on the
    starting price: as JavaScript numbers, it is above the amount before it
    and not below that amount plus [Math.max(previous * 0.05, 1)]. *)
Theorem bids_spaced_by_increment :
  forall evs a,
    sequential evs = true ->
    In a (auctions (sys_db (run evs init))) ->
    spaced (a_starting_price a :: placed (sys_db (run evs init)) (a_id a)).
Proof.
  intros evs a Hseq Hin.
  assert (H : all_spaced (sys_db (run evs init))).
  { apply run_spaced; [exact Hseq | apply init_settled | constructor]. }
  unfold all_spaced in H. rewrite Forall_forall in H. now apply H.
Qed.

(** The theorem after three bids placed in turn on auction ["A1"]:
    100, then 105, 111 and 117. *)
Lemma bids_spaced_by_increment_witness :
  spaced [100; 105; 111; 117].
Proof.
  assert (Hin : In (mkAuction "A1" "L1" 1000 100 (Some 117) (Some 3%Z) None None
                              "active" 3)
                   (auctions (sys_db (run example_in_turn init))))
    by (vm_compute; left; reflexivity).
  exact (bids_spaced_by_increment example_in_turn _ eq_refl Hin).
Defined.

(** ** [extendAuction] and the deadline of [placeBid] *)

Lemma extendAuction_done fl now db id m a e :
  fl 0%nat = false -> fl 1%nat = false ->
  single (select_auctions db id) = Some a ->
  a_status a = "active"%string -> lt64 (Finite 1440) m = false ->
  TimeClip (AuctionsService.newEndTime_of (a_auction_end a) m) = Some e ->
  AuctionsService.extendAuction fl now db id m
  = (update_auctions db id (set_auction_end e now),
     Ok (set_auction_end e now a)).
Proof.
  intros H0 H1 Hs Hst Hm He. unfold AuctionsService.extendAuction.
  rewrite H0, Hs, Hst.
  replace (String.eqb "active" "active") with true by reflexivity.
  cbn [negb]. change (inject_Z (24 * 60)) with 1440.
  now rewrite Hm, He, H1.
Qed.

Lemma extendAuction_invalid fl now db id m a :
  fl 0%nat = false ->
  single (select_auctions db id) = Some a ->
  a_status a = "active"%string -> lt64 (Finite 1440) m = false ->
  TimeClip (AuctionsService.newEndTime_of (a_auction_end a) m) = None ->
  AuctionsService.extendAuction fl now db id m = (db, Err InvalidTimeValue).
Proof.
  intros H0 Hs Hst Hm He. unfold AuctionsService.extendAuction.
  rewrite H0, Hs, Hst.
  replace (String.eqb "active" "active") with true by reflexivity.
  cbn [negb]. change (inject_Z (24 * 60)) with 1440.
  now rewrite Hm, He.
Qed.

(** On an active auction, [placeBid] answers AuctionExpired exactly when the
    end read is before now. *)
Lemma placeBid_expired_iff fl now bidId db id bidderId bidAmount currency a l :
  AuctionsService.placeBid_read fl db id = Some (a, l) ->
  a_status a = "active"%string ->
  (snd (AuctionsService.placeBid fl now bidId db id bidderId bidAmount currency)
   = Err AuctionExpired
   <-> (a_auction_end a < now)%Z).
Proof.
  intros Hr Ha. destruct (a_auction_end a <? now)%Z eqn:E.
  - pose proof E as E'. apply Z.ltb_lt in E'.
    rewrite (placeBid_rejected fl now bidId db id bidderId bidAmount currency
               (a, l) AuctionExpired Hr (validate_expired now a l bidderId
                                           bidAmount Ha E')).
    now split.
  - pose proof E as E'. apply Z.ltb_ge in E'.
    split; [|lia]. intro H. exfalso. revert H.
    unfold AuctionsService.placeBid. rewrite Hr.
    unfold AuctionsService.placeBid_validate. rewrite Ha, E. simpl.
    unfold AuctionsService.placeBid_insert, AuctionsService.placeBid_update.
    case_split; simpl; discriminate.
Qed.

(** X8.  [extendAuction] looks neither at the clock nor at the sign of
    [additionalMinutes]: on an active auction, whether its end has passed
    or not, and for any number of minutes that is not above 1440, it moves
    the end to the Date of [currentEnd + additionalMinutes * 60000],
    forwards or backwards, and leaves it where it was when that is an
    Invalid Date; from then on [placeBid] answers AuctionExpired exactly
    when the end so set is before the instant of the bid.  For a whole
    number [m] of minutes with [|m * 60000| < 2^53] and a stored end within
    the range of Date, the end so set is the previous end plus [m * 60000]
    milliseconds, when that is within 8.64e15 milliseconds of the epoch. *)
Theorem extendAuction_moves_deadline :
  forall fl now db auctionId additionalMinutes auction,
    fl 0%nat = false -> fl 1%nat = false ->
    single (select_auctions db auctionId) = Some auction ->
    a_status auction = "active"%string ->
    lt64 (Finite 1440) additionalMinutes = false ->
    let db' := fst (AuctionsService.extendAuction fl now db auctionId
                      additionalMinutes) in
    let newEnd :=
      match TimeClip (AuctionsService.newEndTime_of (a_auction_end auction)
                        additionalMinutes) with
      | Some e => e
      | None => a_auction_end auction
      end in
    (forall fl' now' bidId bidderId bidAmount currency,
        fl' 0%nat = false ->
        (snd (AuctionsService.placeBid fl' now' bidId db' auctionId bidderId
                bidAmount currency) = Err AuctionExpired
         <-> (newEnd < now')%Z))
    /\ (forall m : Z,
          additionalMinutes = Finite (inject_Z m) ->
          (Z.abs (m * 60000) < 2 ^ 53)%Z ->
          (Z.abs (a_auction_end auction) <= 8640000000000000)%Z ->
          (Z.abs (a_auction_end auction + m * 60000) <= 8640000000000000)%Z ->
          newEnd = (a_auction_end auction + m * 60000)%Z).
Proof.
  intros fl now db id m a H0 H1 Hs Ha Hm db' newEnd.
  split.
  - intros fl' now' bidId bidderId bidAmount currency H0'.
    unfold db', newEnd.
    destruct (TimeClip (AuctionsService.newEndTime_of (a_auction_end a) m))
      as [e|] eqn:He.
    + rewrite (extendAuction_done fl now db id m a e H0 H1 Hs Ha Hm He).
      cbn [fst].
      assert (Hs' : single (select_auctions
                              (update_auctions db id (set_auction_end e now)) id)
                    = Some (set_auction_end e now a)).
      { apply (single_select_update db id (set_auction_end e now) a);
          [reflexivity | exact Hs]. }
      apply (placeBid_expired_iff fl' now' bidId _ id bidderId bidAmount currency
               (set_auction_end e now a)
               (hd_error (select_listings
                            (update_auctions db id (set_auction_end e now))
                            (a_listing_id (set_auction_end e now a))))).
      * unfold AuctionsService.placeBid_read. now rewrite H0', Hs'.
      * exact Ha.
    + rewrite (extendAuction_invalid fl now db id m a H0 Hs Ha Hm He).
      cbn [fst].
      apply (placeBid_expired_iff fl' now' bidId db id bidderId bidAmount currency
               a (hd_error (select_listings db (a_listing_id a)))).
      * unfold AuctionsService.placeBid_read. now rewrite H0', Hs.
      * exact Ha.
  - intros k Ek Hk _ Hr. unfold newEnd. subst m.
    now rewrite newEndTime_of_Z, TimeClip_Z.
Qed.

(** Auction ["A1"], whose end 1000 has passed at instant 2000, is extended
    by 30 minutes; a bid at instant 2000 is then not answered with
    AuctionExpired. *)
Lemma extendAuction_moves_deadline_witness :
  snd (AuctionsService.placeBid no_faults 2000 "b1"
         (fst (AuctionsService.extendAuction no_faults 2000 example_db "A1"
                 (Finite 30)))
         "A1" "u1" 105 "USD") <> Err AuctionExpired.
Proof.
  intro H.
  destruct (extendAuction_moves_deadline no_faults 2000 example_db "A1"
              (Finite 30) example_auction eq_refl eq_refl eq_refl eq_refl
              eq_refl) as [Hiff _].
  apply (Hiff no_faults 2000%Z "b1"%string "u1"%string 105 "USD"%string eq_refl)
    in H.
  vm_compute in H. discriminate.
Defined.

(** ** What the sweep leaves behind *)

Lemma distinct_single db id a :
  NoDup (map a_id (auctions db)) -> In a (auctions db) -> a_id a = id ->
  single (select_auctions db id) = Some a.
Proof.
  unfold select_auctions. intros Hn Hin Hid.
  assert (E : filter (fun x => String.eqb (a_id x) id) (auctions db) = [a]);
    [|now rewrite E].
  induction (auctions db) as [|x r IH]; [contradiction|].
  simpl in Hn. apply NoDup_cons_iff in Hn. destruct Hn as [Hx Hr].
  simpl. destruct Hin as [Hin|Hin].
  - subst x. rewrite Hid, String.eqb_refl. f_equal.
    rewrite Hid in Hx. clear IH Hr.
    induction r as [|y r IH]; [reflexivity|].
    simpl. destruct (String.eqb (a_id y) id) eqn:E.
    + exfalso. apply Hx. apply String.eqb_eq in E. left. exact E.
    + apply IH. intro H. apply Hx. now right.
  - destruct (String.eqb (a_id x) id) eqn:E; [|now apply IH].
    exfalso. apply Hx. apply String.eqb_eq in E. rewrite E, <- Hid.
    now apply in_map.
Qed.

Lemma updateData_ended hb now a :
  a_status (AuctionsService.endAuction_updateData hb now a) = "ended"%string.
Proof. now destruct hb. Qed.

(** The auctions after an [endAuction] whose last update goes through. *)
Lemma endAuction_rows fl now db id a :
  fl 4%nat = false -> single (select_auctions db id) = Some a ->
  exists hb,
    auctions (fst (AuctionsService.endAuction fl now db id))
    = map (fun x => if String.eqb (a_id x) id
                    then AuctionsService.endAuction_updateData hb now x else x)
          (auctions db).
Proof.
  intros H4 Hs. unfold AuctionsService.endAuction. rewrite H4.
  exists (if fl 0%nat then None else top_by b_bid_amount (bids_of db id)).
  unfold select_auctions in Hs |- *.
  destruct (if fl 0%nat then None else top_by b_bid_amount (bids_of db id))
    as [hb|].
  - destruct (fl 1%nat), (fl 2%nat), (fl 3%nat);
      repeat (progress (cbn [fst auctions update_auctions update_bids
                             update_listings]; rewrite ?Hs));
      reflexivity.
  - now rewrite Hs.
Qed.

Lemma Forall2_chain {A} (R S T : A -> A -> Prop) (l1 l2 l3 : list A) :
  (forall x y z, R x y -> S y z -> T x z) ->
  Forall2 R l1 l2 -> Forall2 S l2 l3 -> Forall2 T l1 l3.
Proof.
  intros Ht H12. revert l3.
  induction H12 as [|x y l l' Hxy _ IH]; intros l3 H23; inversion H23; subst;
    constructor; [now apply (Ht x y) | now apply IH].
Qed.

Lemma Forall2_weaken_In {A} (R S : A -> A -> Prop) (l l' : list A) :
  (forall x y, In x l -> R x y -> S x y) -> Forall2 R l l' -> Forall2 S l l'.
Proof.
  intros H H2. induction H2 as [|x y l l' Hxy _ IH]; constructor.
  - apply H; [now left | exact Hxy].
  - apply IH. intros a b Ha. apply H. now right.
Qed.

Section SweepAll.
Variables (fle : Id -> Faults) (now : Time).
Hypothesis update_ok : forall id, fle id 4%nat = false.

Let step (d : DB) (x : AuctionRow) : DB :=
  fst (AuctionsService.endAuction (fle (a_id x)) now d (a_id x)).

(** Row [a] after the sweep has gone through the auctions [ids]. *)
Let ended_among (ids : list Id) (a a' : AuctionRow) : Prop :=
  a_id a' = a_id a
  /\ (In (a_id a) ids -> a_status a' = "ended"%string)
  /\ (~ In (a_id a) ids -> a' = a).

Lemma ended_among_ids ids l l' :
  Forall2 (ended_among ids) l l' -> map a_id l' = map a_id l.
Proof.
  induction 1 as [|x y l l' [Hid _] _ IH]; [reflexivity|].
  simpl. now rewrite Hid, IH.
Qed.

Lemma sweep_all_step d x :
  NoDup (map a_id (auctions d)) -> In (a_id x) (map a_id (auctions d)) ->
  Forall2 (ended_among [a_id x]) (auctions d) (auctions (step d x)).
Proof.
  intros Hn Hin. apply in_map_iff in Hin. destruct Hin as [a [Hid Hin]].
  destruct (endAuction_rows (fle (a_id x)) now d (a_id x) a (update_ok (a_id x))
              (distinct_single d (a_id x) a Hn Hin Hid)) as [hb E].
  unfold step. rewrite E. apply Forall2_map_right. intro y.
  destruct (String.eqb (a_id y) (a_id x)) eqn:G.
  - split; [apply updateData_id|]. split; [intros _; apply updateData_ended|].
    intro H. exfalso. apply H. left. apply String.eqb_eq in G. now symmetry.
  - split; [reflexivity|]. split; [|reflexivity].
    intros [H|[]]. apply String.eqb_neq in G. now symmetry in H.
Qed.

Lemma sweep_all_fold l : forall d,
  NoDup (map a_id (auctions d)) ->
  Forall (fun x => In (a_id x) (map a_id (auctions d))) l ->
  Forall2 (ended_among (map a_id l)) (auctions d) (auctions (fold_left step l d)).
Proof.
  induction l as [|x l IH]; intros d Hn Hl.
  - simpl. apply Forall2_same. intro a. split; [reflexivity|].
    split; [intros [] | reflexivity].
  - inversion Hl as [|? ? Hx Hl']; subst.
    pose proof (sweep_all_step d x Hn Hx) as H1.
    pose proof (ended_among_ids _ _ _ H1) as Hids.
    simpl. fold (step d x).
    assert (H2 : Forall2 (ended_among (map a_id l)) (auctions (step d x))
                   (auctions (fold_left step l (step d x)))).
    { apply IH; rewrite Hids; assumption. }
    apply (Forall2_chain (ended_among [a_id x]) (ended_among (map a_id l))
             (ended_among (a_id x :: map a_id l))
             (auctions d) (auctions (step d x))
             (auctions (fold_left step l (step d x)))); [|exact H1 | exact H2].
    intros a b c [Hab [Eab Nab]] [Hbc [Ebc Nbc]].
    split; [congruence|]. split.
    + intro Hin. destruct (in_dec string_dec (a_id a) (map a_id l)) as [Hl1|Hl1].
      * apply Ebc. now rewrite Hab.
      * assert (Hc : c = b) by (apply Nbc; now rewrite Hab).
        subst c. apply Eab. destruct Hin as [Hin|Hin]; [now left | contradiction].
    + intro Hnin. assert (Hb : b = a).
      { apply Nab. intros [H|[]]. apply Hnin. now left. }
      subst b. apply Nbc. intro H. apply Hnin. now right.
Qed.

End SweepAll.

(** X9.  On a table of auctions with distinct identifiers, when the query
    of the sweep and the final update of each [endAuction] go through, the
    sweep ends every active auction whose end is before now and leaves each
    other auction row exactly as it was; afterwards no auction is active
    with its end before now, and a further sweep at that or an earlier
    instant changes nothing. *)
Theorem sweep_is_exhaustive :
  forall fl fle now db,
    NoDup (map a_id (auctions db)) ->
    fl 0%nat = false ->
    (forall id, fle id 4%nat = false) ->
    let db' := AuctionsService.checkAndEndExpiredAuctions fl fle now db in
    Forall2 (fun a a' =>
               a_id a' = a_id a
               /\ if AuctionsService.expired_active now a
                  then a_status a' = "ended"%string
                  else a' = a)
            (auctions db) (auctions db')
    /\ filter (AuctionsService.expired_active now) (auctions db') = []
    /\ (forall fl' fle' now',
          (now' <= now)%Z ->
          AuctionsService.checkAndEndExpiredAuctions fl' fle' now' db' = db').
Proof.
  intros fl fle now db Hn H0 H4 db'.
  assert (Hrel : Forall2 (fun a a' =>
               a_id a' = a_id a
               /\ if AuctionsService.expired_active now a
                  then a_status a' = "ended"%string
                  else a' = a)
            (auctions db) (auctions db')).
  { unfold db', AuctionsService.checkAndEndExpiredAuctions. rewrite H0.
    pose proof (sweep_all_fold fle now H4
                  (filter (AuctionsService.expired_active now) (auctions db)) db Hn)
      as Hf.
    assert (Hl : Forall (fun x => In (a_id x) (map a_id (auctions db)))
                   (filter (AuctionsService.expired_active now) (auctions db))).
    { apply Forall_forall. intros x Hx. apply filter_In in Hx.
      apply in_map. tauto. }
    specialize (Hf Hl).
    refine (Forall2_weaken_In _ _ _ _ _ Hf).
    intros a a' Hina [Hid [He Hne]]. split; [exact Hid|].
    destruct (AuctionsService.expired_active now a) eqn:E.
    - apply He. apply in_map_iff. exists a. split; [reflexivity|].
      apply filter_In. now split.
    - apply Hne. intro Hin. apply in_map_iff in Hin.
      destruct Hin as [b [Hb Hin]]. apply filter_In in Hin.
      destruct Hin as [Hinb Eb].
      assert (b = a).
      { destruct (single_select_In db (a_id a) a
                    (distinct_single db (a_id a) a Hn Hina eq_refl))
          as [_ [_ Hu]].
        now apply Hu. }
      subst b. congruence. }
  assert (Hnone : forall now', (now' <= now)%Z ->
             filter (AuctionsService.expired_active now') (auctions db') = []).
  { intros now' Hle.
    assert (Hall : Forall (fun a' => AuctionsService.expired_active now' a' = false)
                     (auctions db')).
    { refine (Forall2_Forall_to _ (fun _ => True) _ (auctions db) (auctions db')
                _ Hrel _); [|apply Forall_forall; trivial].
      intros a a' [_ H] _.
      destruct (AuctionsService.expired_active now' a') eqn:E'; [|reflexivity].
      unfold AuctionsService.expired_active in E'.
      apply andb_true_iff in E'. destruct E' as [Est Eend].
      destruct (AuctionsService.expired_active now a) eqn:E.
      - rewrite H in Est. discriminate.
      - subst a'. unfold AuctionsService.expired_active in E.
        rewrite Est in E. simpl in E. apply Z.ltb_lt in Eend.
        apply Z.ltb_ge in E. lia. }
    revert Hall. generalize (auctions db'). intros l Hall.
    induction Hall as [|x r Hx _ IH]; [reflexivity|].
    cbn [filter]. rewrite Hx. exact IH. }
  split; [exact Hrel|]. split; [apply Hnone; lia|].
  intros fl' fle' now' Hle. unfold AuctionsService.checkAndEndExpiredAuctions.
  rewrite (Hnone now' Hle). now destruct (fl' 0%nat).
Qed.

(** The theorem at auction ["A1"], swept at instant 2000: a second sweep
    changes nothing. *)
Lemma sweep_is_exhaustive_witness :
  let db' := AuctionsService.checkAndEndExpiredAuctions no_faults
               (fun _ => no_faults) 2000 example_db in
  AuctionsService.checkAndEndExpiredAuctions no_faults (fun _ => no_faults) 2000 db'
  = db'.
Proof.
  assert (Hn : NoDup (map a_id (auctions example_db)))
    by (simpl; constructor; [intros [] | constructor]).
  destruct (sweep_is_exhaustive no_faults (fun _ => no_faults) 2000 example_db
              Hn eq_refl (fun _ => eq_refl)) as [_ [_ H]].
  apply H. lia.
Defined.

(** ** Ordered reads *)

Lemma insert_by_perm {A} (le : A -> A -> bool) (x : A) (l : list A) :
  Permutation (insert_by le x l) (x :: l).
Proof.
  induction l as [|y r IH]; simpl; [apply Permutation_refl|].
  destruct (le x y); [apply Permutation_refl|].
  apply Permutation_trans with (y :: x :: r);
    [now apply perm_skip | apply perm_swap].
Qed.

Lemma order_by_perm {A} (le : A -> A -> bool) (l : list A) :
  Permutation (order_by le l) l.
Proof.
  induction l as [|x r IH]; simpl; [constructor|].
  apply Permutation_trans with (x :: order_by le r);
    [apply insert_by_perm | now apply perm_skip].
Qed.

Lemma ascending_insert (x : AuctionRow) (l : list AuctionRow) :
  ascending (map a_auction_end l) ->
  ascending (map a_auction_end (insert_by by_auction_end x l)).
Proof.
  induction l as [|y r IH]; intro H; simpl; [split; [constructor | exact I]|].
  destruct H as [Hy Hr]. unfold by_auction_end at 1.
  destruct (a_auction_end x <=? a_auction_end y)%Z eqn:E.
  - apply Z.leb_le in E. simpl. split; [|split; assumption].
    constructor; [exact E|].
    apply Forall_forall. intros z Hz. rewrite Forall_forall in Hy.
    specialize (Hy z Hz). lia.
  - apply Z.leb_gt in E. simpl. split; [|now apply IH].
    apply Forall_forall. intros z Hz.
    apply in_map_iff in Hz. destruct Hz as [c [Hc Hin]].
    apply (Permutation_in _ (insert_by_perm by_auction_end x r)) in Hin.
    destruct Hin as [Hin|Hin].
    + subst. lia.
    + rewrite Forall_forall in Hy. subst z. apply Hy. now apply in_map.
Qed.

Lemma ascending_order_by (l : list AuctionRow) :
  ascending (map a_auction_end (order_by by_auction_end l)).
Proof.
  induction l as [|x r IH]; simpl; [exact I|]. now apply ascending_insert.
Qed.




(** ** The computed fields *)

(** X11.  In what [enrichAuctionData] computes, the time remaining is never
    negative; the hours are the minutes divided by 60 and the days the
    hours divided by 24, rounded down; [ending_soon] holds exactly when no
    full hour remains; and [is_expired] implies [ending_soon] and is false
    while the end is ahead. *)
Theorem enrichAuctionData_fields :
  forall now a,
    let e := AuctionsReads.enrichAuctionData now a in
    (0 <= e_time_remaining e)%Z
    /\ (e_ending_soon e = true <-> e_hours_remaining e = Some 0%Z)
    /\ e_hours_remaining e
       = option_map (fun m => (m / 60)%Z) (e_minutes_remaining e)
    /\ e_days_remaining e
       = option_map (fun h => (h / 24)%Z) (e_hours_remaining e)
    /\ (e_is_expired e = true ->
        e_ending_soon e = true /\ (a_auction_end a <= now)%Z)
    /\ ((now < a_auction_end a)%Z -> e_is_expired e = false).
Proof.
  intros now a e. unfold e, AuctionsReads.enrichAuctionData.
  cbn [e_time_remaining e_ending_soon e_hours_remaining e_minutes_remaining
       e_days_remaining e_is_expired option_map].
  set (t := Z.max 0 (a_auction_end a - now)).
  assert (Ht : (0 <= t)%Z) by apply Z.le_max_l.
  split; [exact Ht|]. split; [|split; [|split; [|split]]].
  - rewrite Z.ltb_lt. split.
    + intro H. f_equal. apply Z.div_small. lia.
    + intro H. injection H as H. apply Z.div_small_iff in H; lia.
  - f_equal. rewrite Z.div_div by lia. reflexivity.
  - f_equal. rewrite Z.div_div by lia. reflexivity.
  - intro H. apply andb_true_iff in H. destruct H as [H _].
    apply Z.eqb_eq in H. split; [apply Z.ltb_lt|]; lia.
  - intro H. replace (t =? 0)%Z with false; [reflexivity|].
    symmetry. apply Z.eqb_neq. lia.
Qed.

(** X12.  [findById] and [findByListingId] differ on the same auction:
    [findById] leaves out the remaining minutes, hours and days, and its
    [is_expired] does not look at the status, so that it flags an auction
    that is 'ended' or 'cancelled' and past its end as expired, which
    [findByListingId] does not. *)
Theorem findById_ignores_status :
  forall fl now db a,
    fl 0%nat = false ->
    single (select_auctions db (a_id a)) = Some a ->
    single (filter (fun x => String.eqb (a_listing_id x) (a_listing_id a))
                   (auctions db)) = Some a ->
    exists e1 e2,
      AuctionsReads.findById fl now db (a_id a) = Returned e1
      /\ AuctionsReads.findByListingId fl now db (a_listing_id a) = Returned e2
      /\ e_auction e1 = a /\ e_auction e2 = a
      /\ e_time_remaining e1 = e_time_remaining e2
      /\ e_ending_soon e1 = e_ending_soon e2
      /\ e_is_expired e2 = e_is_expired e1 && String.eqb (a_status a) "active"
      /\ e_minutes_remaining e1 = None /\ e_minutes_remaining e2 <> None
      /\ (a_status a <> "active"%string -> (a_auction_end a <= now)%Z ->
          e_is_expired e1 = true /\ e_is_expired e2 = false).
Proof.
  intros fl now db a H0 Hs Hl.
  unfold AuctionsReads.findById, AuctionsReads.findByListingId.
  rewrite H0, Hs, Hl. eexists. eexists.
  split; [reflexivity|]. split; [reflexivity|].
  unfold AuctionsReads.enrichAuctionData.
  cbn [e_auction e_time_remaining e_ending_soon e_is_expired
       e_minutes_remaining].
  repeat (split; [reflexivity|]). split; [discriminate|].
  intros Hst He. rewrite (string_eqb_neq _ _ Hst), andb_false_r.
  split; [|reflexivity]. apply Z.eqb_eq. lia.
Qed.

(** Auction ["A1"] ended at instant 2000 and looked up at instant 3000. *)
Lemma findById_ignores_status_witness :
  exists e1 e2,
    AuctionsReads.findById no_faults 3000
      (fst (AuctionsService.endAuction no_faults 2000 example_db "A1")) "A1"
    = Returned e1
    /\ AuctionsReads.findByListingId no_faults 3000
         (fst (AuctionsService.endAuction no_faults 2000 example_db "A1")) "L1"
       = Returned e2
    /\ e_is_expired e1 = true /\ e_is_expired e2 = false.
Proof.
  destruct (findById_ignores_status no_faults 3000
              (fst (AuctionsService.endAuction no_faults 2000 example_db "A1"))
              (mkAuction "A1" "L1" 1000 100 (Some 100) (Some 0%Z) None None
                         "ended" 2000)
              eq_refl eq_refl eq_refl)
    as [e1 [e2 [H1 [H2 [_ [_ [_ [_ [_ [_ [_ H]]]]]]]]]]].
  exists e1, e2. split; [exact H1|]. split; [exact H2|].
  apply H; [discriminate | simpl; lia].
Defined.

(** ** [getAuctionBids] *)

Lemma descending_insert (x : BidRow) (l : list BidRow) :
  descending (map b_bid_amount l) ->
  descending (map b_bid_amount (insert_by by_bid_amount_desc x l)).
Proof.
  induction l as [|y r IH]; intro H; simpl; [split; [constructor | exact I]|].
  destruct H as [Hy Hr]. unfold by_bid_amount_desc at 1.
  destruct (Qle_bool (b_bid_amount y) (b_bid_amount x)) eqn:E.
  - apply Qle_bool_iff in E. simpl. split; [|split; assumption].
    constructor; [exact E|].
    apply Forall_forall. intros z Hz. rewrite Forall_forall in Hy.
    apply Qle_trans with (b_bid_amount y); [now apply Hy | exact E].
  - assert (E' : b_bid_amount x < b_bid_amount y).
    { apply Qnot_le_lt. intro L. apply Qle_bool_iff in L. congruence. }
    simpl. split; [|now apply IH].
    apply Forall_forall. intros z Hz.
    apply in_map_iff in Hz. destruct Hz as [c [Hc Hin]].
    apply (Permutation_in _ (insert_by_perm by_bid_amount_desc x r)) in Hin.
    destruct Hin as [Hin|Hin].
    + subst. now apply Qlt_le_weak.
    + rewrite Forall_forall in Hy. subst z. apply Hy. now apply in_map.
Qed.

Lemma descending_order_by (l : list BidRow) :
  descending (map b_bid_amount (order_by by_bid_amount_desc l)).
Proof.
  induction l as [|x r IH]; simpl; [exact I|]. now apply descending_insert.
Qed.

(** X13.  With its query answering, [getAuctionBids] returns the bids of the
    auction, each once, by descending amount, with status 'winning' for
    the bids marked [is_winning] and 'active' for all others, whatever the
    state of the auction; when the query fails it returns no bid. *)
Theorem getAuctionBids_spec :
  forall fl db auctionId,
    (fl 0%nat = false ->
     Permutation (map v_bid (AuctionsReads.getAuctionBids fl db auctionId))
                 (bids_of db auctionId)
     /\ descending (map (fun v => b_bid_amount (v_bid v))
                        (AuctionsReads.getAuctionBids fl db auctionId))
     /\ (forall v, In v (AuctionsReads.getAuctionBids fl db auctionId) ->
           (b_is_winning (v_bid v) = true -> v_status v = "winning"%string)
           /\ (b_is_winning (v_bid v) = false -> v_status v = "active"%string)))
    /\ (fl 0%nat = true ->
        AuctionsReads.getAuctionBids fl db auctionId = []).
Proof.
  intros fl db id. unfold AuctionsReads.getAuctionBids. split; intro H0; rewrite H0;
    [|reflexivity].
  assert (Hv : forall l, map v_bid (map AuctionsReads.bid_view l) = l).
  { intro l. rewrite map_map. cbn [AuctionsReads.bid_view v_bid]. apply map_id. }
  split; [|split].
  - rewrite Hv. apply order_by_perm.
  - rewrite <- (map_map v_bid b_bid_amount), Hv. apply descending_order_by.
  - intros v Hin. apply in_map_iff in Hin. destruct Hin as [b [Hb _]]. subst v.
    unfold AuctionsReads.bid_view. cbn [v_bid v_status].
    split; intro H; now rewrite H.
Qed.

Lemma increasing_above_head (x : Q) (r : list Q) :
  strictly_increasing (x :: r) -> Forall (fun y => x < y) r.
Proof.
  revert x. induction r as [|y r IH]; intros x H; [constructor|].
  destruct H as [Hxy Hr]. constructor; [exact Hxy|].
  apply Forall_forall. intros z Hz. specialize (IH y Hr).
  rewrite Forall_forall in IH. apply Qlt_trans with y; [exact Hxy | now apply IH].
Qed.

Lemma insert_by_last {A} (le : A -> A -> bool) (x : A) (l : list A) :
  Forall (fun y => le x y = false) l -> insert_by le x l = l ++ [x].
Proof.
  induction 1 as [|y r Hy _ IH]; [reflexivity|].
  simpl. now rewrite Hy, IH.
Qed.

(** Bids inserted by increasing amount come back in reverse. *)
Lemma order_by_increasing (l : list BidRow) :
  strictly_increasing (map b_bid_amount l) ->
  order_by by_bid_amount_desc l = rev l.
Proof.
  induction l as [|x r IH]; intro H; [reflexivity|].
  pose proof (increasing_above_head _ _ H) as Hx.
  assert (Hr : strictly_increasing (map b_bid_amount r)).
  { simpl in H. destruct (map b_bid_amount r); [exact I | tauto]. }
  simpl. rewrite (IH Hr). apply insert_by_last.
  apply Forall_forall. intros y Hy. apply in_rev in Hy.
  rewrite Forall_forall in Hx. specialize (Hx (b_bid_amount y) (in_map _ _ _ Hy)).
  unfold by_bid_amount_desc.
  destruct (Qle_bool (b_bid_amount y) (b_bid_amount x)) eqn:E; [|reflexivity].
  apply Qle_bool_iff in E. exfalso. exact (Qlt_not_le _ _ Hx E).
Qed.

Lemma head_of_rev (l : list BidRow) (d : Q) :
  match rev l with
  | b :: _ => b_bid_amount b
  | [] => d
  end = last (map b_bid_amount l) d.
Proof.
  destruct l as [|x r] using rev_ind; [reflexivity|].
  rewrite rev_app_distr, map_app. simpl. now rewrite last_last.
Qed.

(** X14.  In every schedule without interleaving in which the writes of
    [placeBid] go through, [getAuctionBids] returns the bids of an auction
    latest first; the amount of the first is the [current_bid] of the
    auction, which is the starting price when there is none, and their
    number is its [bid_count]. *)
Theorem getAuctionBids_latest_first :
  forall evs fl a,
    sequential evs = true ->
    fl 0%nat = false ->
    In a (auctions (sys_db (run evs init))) ->
    let views := AuctionsReads.getAuctionBids fl (sys_db (run evs init)) (a_id a) in
    map v_bid views = rev (bids_of (sys_db (run evs init)) (a_id a))
    /\ a_current_bid a
       = Some (match views with
               | v :: _ => b_bid_amount (v_bid v)
               | [] => a_starting_price a
               end)
    /\ a_bid_count a = Some (Z.of_nat (List.length views)).
Proof.
  intros evs fl a Hseq H0 Hin views.
  destruct (run_settled evs init Hseq init_settled) as [Hl _].
  rewrite Forall_forall in Hl. destruct (Hl a Hin) as [Hsi [_ [Hcnt Hcur]]].
  unfold placed in Hsi, Hcnt, Hcur.
  assert (Hviews : views = map AuctionsReads.bid_view
                             (rev (bids_of (sys_db (run evs init)) (a_id a)))).
  { unfold views, AuctionsReads.getAuctionBids. rewrite H0.
    now rewrite (order_by_increasing _ Hsi). }
  rewrite Hviews. split; [|split].
  - rewrite map_map. cbn [AuctionsReads.bid_view v_bid]. apply map_id.
  - rewrite Hcur, <- head_of_rev.
    now destruct (rev (bids_of (sys_db (run evs init)) (a_id a))).
  - now rewrite Hcnt, !length_map, length_rev.
Qed.

(** The theorem after three bids placed in turn on auction ["A1"]. *)
Lemma getAuctionBids_latest_first_witness :
  map (fun v => b_bid_amount (v_bid v))
      (AuctionsReads.getAuctionBids no_faults (sys_db (run example_in_turn init))
         "A1")
  = [117; 111; 105].
Proof.
  assert (Hin : In (mkAuction "A1" "L1" 1000 100 (Some 117) (Some 3%Z) None None
                              "active" 3)
                   (auctions (sys_db (run example_in_turn init))))
    by (vm_compute; left; reflexivity).
  destruct (getAuctionBids_latest_first example_in_turn no_faults _ eq_refl eq_refl
              Hin) as [H _].
  rewrite <- (map_map v_bid b_bid_amount). cbn [a_id] in H. rewrite H.
  reflexivity.
Defined.

(** A bid of 105 on auction ["A1"], read back. *)
Lemma getAuctionBids_spec_witness :
  Permutation
    (map v_bid (AuctionsReads.getAuctionBids no_faults example_bid_db "A1"))
    (bids_of example_bid_db "A1").
Proof.
  destruct (getAuctionBids_spec no_faults example_bid_db "A1") as [H _].
  destruct (H eq_refl) as [Hp _]. exact Hp.
Defined.

(** ** Identifiers stay distinct *)

Lemma frame_distinct db db' :
  frame db db' ->
  NoDup (map a_id (auctions db)) -> NoDup (map a_id (auctions db')).
Proof.
  intros [Ha _] Hn.
  now rewrite (same_identity_ids _ _ (same_bid_state_identity _ _ Ha)).
Qed.

Lemma exec_distinct e s :
  NoDup (map a_id (auctions (sys_db s))) ->
  NoDup (map a_id (auctions (sys_db (exec e s)))).
Proof.
  revert s.
  assert (Hread : forall fl now auctionId bidderId bidAmount currency s,
             auctions (sys_db (exec (BidRead fl now auctionId bidderId bidAmount
                                       currency) s))
             = auctions (sys_db s)).
  { intros. cbn [exec]. case_split; reflexivity. }
  assert (Hins : forall k fl bidId s,
             auctions (sys_db (exec (BidInsert k fl bidId) s))
             = auctions (sys_db s)).
  { intros k fl bidId s. cbn [exec].
    destruct (nth_error (sys_calls s) k) as [[aid b x cur t snap ph]|];
      [|reflexivity].
    destruct ph; try reflexivity.
    unfold AuctionsService.placeBid_insert. now destruct (fl 1%nat). }
  assert (Hupd : forall k fl now s,
             map a_id (auctions (sys_db (exec (BidUpdate k fl now) s)))
             = map a_id (auctions (sys_db s))).
  { intros k fl now s. cbn [exec].
    destruct (nth_error (sys_calls s) k) as [[aid b x cur t snap ph]|];
      [|reflexivity].
    destruct snap as [a|]; [|reflexivity].
    destruct ph; try reflexivity.
    unfold AuctionsService.placeBid_update.
    destruct (fl 2%nat); [reflexivity|].
    cbn [sys_db update_auctions auctions]. rewrite map_map.
    apply map_ext. intro r. now destruct (String.eqb (a_id r) aid). }
  intros s Hn. destruct e.
  - cbn [exec]. destruct (id_in_use (sys_db s) listingId auctionId) eqn:Hu;
      [exact Hn|].
    cbn [with_db sys_db].
    destruct (createListing_tables fl now listingId auctionId listingData
                (sys_db s)) as [_ [Ha|[e [p Ha]]]]; rewrite Ha; [exact Hn|].
    rewrite map_app. cbn [map a_id].
    apply NoDup_app; [exact Hn | constructor; [intros [] | constructor] |].
    intros x Hx [Hy|[]]. subst x.
    exact (id_not_in_use _ _ _ Hu Hx).
  - now rewrite Hread.
  - now rewrite Hins.
  - now rewrite Hupd.
  - now rewrite PlaceBid_phases, Hupd, Hins, Hread.
  - exact (frame_distinct _ _ (endAuction_frame fl now (sys_db s) auctionId) Hn).
  - exact (frame_distinct _ _ (extendAuction_frame fl now (sys_db s) auctionId
                                 additionalMinutes) Hn).
  - exact (frame_distinct _ _ (cancelAuction_frame fl now (sys_db s) auctionId) Hn).
  - exact (frame_distinct _ _ (checkAndEndExpiredAuctions_frame fl fle now (sys_db s))
             Hn).
  - exact (frame_distinct _ _ (listings_placeBid_frame fl now (sys_db s) listingId
                                 userId amount) Hn).
  - exact (frame_distinct _ _ (closeExpiredAuctions_frame fl fu now (sys_db s)) Hn).
Qed.

Lemma run_distinct evs : forall s,
  NoDup (map a_id (auctions (sys_db s))) ->
  NoDup (map a_id (auctions (sys_db (run evs s)))).
Proof.
  induction evs as [|e evs IH]; intros s H; [exact H|].
  simpl. apply IH. now apply exec_distinct.
Qed.

(** X15.  In every state reached from the empty store, under any
    interleaving and any failure of the store, the identifiers of the
    auctions are distinct, so that the [.single()] lookups by [id] of
    [findById], [placeBid], [extendAuction] and [endAuction] find every
    auction of the table. *)
Theorem auction_ids_distinct :
  forall evs,
    NoDup (map a_id (auctions (sys_db (run evs init))))
    /\ (forall a, In a (auctions (sys_db (run evs init))) ->
          single (select_auctions (sys_db (run evs init)) (a_id a)) = Some a
          /\ forall now,
               exists e, AuctionsReads.findById no_faults now
                           (sys_db (run evs init)) (a_id a) = Returned e
                         /\ e_auction e = a).
Proof.
  intro evs.
  assert (Hn : NoDup (map a_id (auctions (sys_db (run evs init)))))
    by (apply run_distinct; constructor).
  split; [exact Hn|]. intros a Hin.
  pose proof (distinct_single _ (a_id a) a Hn Hin eq_refl) as Hs.
  split; [exact Hs|]. intro now.
  unfold AuctionsReads.findById. cbn [no_faults]. rewrite Hs.
  eexists. split; reflexivity.
Qed.

(** ** [getAuctionStats] *)

Lemma count_status_cons st a l :
  AuctionsReads.count_status st (a :: l)
  = ((if String.eqb (a_status a) st then 1 else 0)
     + AuctionsReads.count_status st l)%Z.
Proof.
  unfold AuctionsReads.count_status. cbn [filter].
  destruct (String.eqb (a_status a) st); cbn [List.length]; lia.
Qed.

Lemma counts_add_up (l : list AuctionRow) :
  Forall (fun a => a_status a = "active"%string \/ a_status a = "ended"%string
                   \/ a_status a = "cancelled"%string) l ->
  Z.of_nat (List.length l)
  = (AuctionsReads.count_status "active" l + AuctionsReads.count_status "ended" l
     + AuctionsReads.count_status "cancelled" l)%Z.
Proof.
  induction 1 as [|a l Ha _ IH]; [reflexivity|].
  rewrite !count_status_cons. cbn [List.length]. rewrite Nat2Z.inj_succ, IH.
  destruct Ha as [Ha|[Ha|Ha]]; rewrite Ha;
    repeat match goal with
           | |- context [String.eqb ?a ?b] =>
               let v := eval vm_compute in (String.eqb a b) in
               change (String.eqb a b) with v
           end; lia.
Qed.

(** X16.  In every state reached from the empty store, under any
    interleaving and any failure of the store, the counts of
    [getAuctionStats] add up: [total = active + ended + cancelled]; and
    with no auction the average is 0. *)
Theorem getAuctionStats_counts :
  forall evs fl,
    fl 0%nat = false ->
    exists s,
      AuctionsReads.getAuctionStats fl (sys_db (run evs init)) = Returned s
      /\ st_total s = (st_active s + st_ended s + st_cancelled s)%Z
      /\ (st_total s = 0%Z -> st_averageBidsPerAuction s = 0).
Proof.
  intros evs fl H0. unfold AuctionsReads.getAuctionStats. rewrite H0.
  eexists. split; [reflexivity|].
  cbn [st_total st_active st_ended st_cancelled st_averageBidsPerAuction].
  split.
  - apply counts_add_up. apply Forall_forall. intros a Hin.
    apply born_facts.
    destruct (run_history evs init) as [[front [rest [E [Hf Hp]]]] _].
    inversion Hf; subst. rewrite E in Hin. simpl in Hin.
    rewrite Forall_forall in Hp. now apply Hp.
  - intro Ht. now rewrite Ht.
Qed.

(** The theorem after the schedule in which a bid is written across the
    end of auction ["A1"]. *)
Lemma getAuctionStats_counts_witness :
  exists s,
    AuctionsReads.getAuctionStats no_faults (sys_db (run example_bid_across_end init))
    = Returned s
    /\ st_total s = (st_active s + st_ended s + st_cancelled s)%Z.
Proof.
  destruct (getAuctionStats_counts example_bid_across_end no_faults eq_refl)
    as [s [H1 [H2 _]]].
  exists s. split; [exact H1 | exact H2].
Defined.

(** ** The listing of an auction *)

Lemma existsb_false_filter {A} (p : A -> bool) (l : list A) :
  existsb p l = false -> filter p l = [].
Proof.
  induction l as [|x r IH]; [reflexivity|].
  simpl. intro H. apply orb_false_iff in H. destruct H as [Hx Hr].
  rewrite Hx. now apply IH.
Qed.

(** A listing without [auction_end] is never answered with AuctionExpired. *)
Lemma listings_placeBid_no_end fl now db listingId userId amount listing :
  single (select_listings db listingId) = Some listing ->
  l_auction_end listing = None ->
  snd (ListingsService.placeBid fl now db listingId userId amount)
  <> Err AuctionExpired.
Proof.
  intros Hs He. unfold ListingsService.placeBid.
  destruct (fl 0%nat); [discriminate|]. rewrite Hs.
  unfold ListingsService.placeBid_validate. rewrite He.
  case_split; cbn [snd]; discriminate.
Qed.

(** [closeExpiredAuctions] leaves alone the listings under an identifier
    none of whose rows it selects. *)
Lemma closeExpiredAuctions_keeps fl fu now db id :
  (forall l, In l (listings db) -> l_id l = id ->
             match l_auction_end l with Some e => (e <? now)%Z | None => false end
             = false) ->
  select_listings (ListingsService.closeExpiredAuctions fl fu now db) id
  = select_listings db id.
Proof.
  intro H. unfold ListingsService.closeExpiredAuctions.
  destruct (fl 0%nat); [reflexivity|].
  match goal with
  | |- context [fold_left _ (filter ?p _) _] =>
      assert (Hl : Forall (fun x => l_id x <> id) (filter p (listings db)))
  end.
  { apply Forall_forall. intros x Hx Hid. apply filter_In in Hx.
    destruct Hx as [Hin Hx]. rewrite (H x Hin Hid), andb_false_r in Hx.
    discriminate. }
  revert Hl.
  match goal with |- context [fold_left _ ?l _] => generalize l end.
  intro l. generalize db. clear H.
  induction l as [|x l IH]; intros d Hl; [reflexivity|].
  inversion Hl as [|? ? Hx Hl']; subst. simpl. rewrite (IH _ Hl').
  destruct (fu (l_id x)); [reflexivity|].
  unfold select_listings. cbn [update_listings listings].
  induction (listings d) as [|y r IHr]; [reflexivity|].
  simpl. destruct (String.eqb (l_id y) (l_id x)) eqn:E.
  - cbn [set_listing_status_at l_id]. apply String.eqb_eq in E.
    assert (E' : String.eqb (l_id y) id = false)
      by (apply String.eqb_neq; congruence).
    rewrite E'. exact IHr.
  - destruct (String.eqb (l_id y) id); [now rewrite IHr | exact IHr].
Qed.

(** X18.  When [createListing] succeeds for an auction, the store holds
    the auction under the fresh identifier, with the end of the request,
    the starting price and current bid at the price of the listing and no
    bid counted, and holds the listing without [auction_end].  Hence
    [AuctionsService.placeBid] answers AuctionExpired once that end has
    passed, whereas [ListingsService.placeBid] never answers AuctionExpired
    for the listing, and [closeExpiredAuctions] never marks it expired. *)
Theorem created_auction_listing :
  forall fl now listingId auctionId listingData db listing,
    id_in_use db listingId auctionId = false ->
    ListingsService.listing_type listingData = "auction"%string ->
    snd (ListingsService.createListing fl now listingId auctionId listingData db)
    = Ok listing ->
    let db' := fst (ListingsService.createListing fl now listingId auctionId
                      listingData db) in
    exists e,
      ListingsService.auction_end listingData = Some e
      /\ single (select_auctions db' auctionId)
         = Some (mkAuction auctionId listingId e
                   (ListingsService.price_amount listingData)
                   (Some (ListingsService.price_amount listingData))
                   (Some 0%Z) None None "active" now)
      /\ single (select_listings db' listingId) = Some listing
      /\ l_auction_end listing = None
      /\ (forall fl' now' bidId bidderId bidAmount currency,
            fl' 0%nat = false ->
            (snd (AuctionsService.placeBid fl' now' bidId db' auctionId bidderId
                    bidAmount currency) = Err AuctionExpired
             <-> (e < now')%Z))
      /\ (forall fl' now' userId amount,
            snd (ListingsService.placeBid fl' now' db' listingId userId amount)
            <> Err AuctionExpired)
      /\ (forall fl' fu now',
            single (select_listings
                      (ListingsService.closeExpiredAuctions fl' fu now' db')
                      listingId) = Some listing).
Proof.
  intros fl now listingId auctionId dto db listing Hu Ht Hok db'.
  unfold id_in_use in Hu. apply orb_false_iff in Hu. destruct Hu as [Hua Hul].
  apply existsb_false_filter in Hua. apply existsb_false_filter in Hul.
  revert Hok. unfold db', ListingsService.createListing.
  destruct (fl 0%nat); [discriminate|]. rewrite Ht, String.eqb_refl.
  destruct (ListingsService.auction_end dto) as [e|]; [|discriminate].
  destruct (fl 1%nat); [discriminate|]. cbn [fst snd].
  intro Hok. injection Hok as Hok. exists e.
  set (row := mkAuction auctionId listingId e (ListingsService.price_amount dto)
                (Some (ListingsService.price_amount dto)) (Some 0%Z) None None
                "active" now).
  set (d := insert_auction _ row).
  assert (Hsa : single (select_auctions d auctionId) = Some row).
  { unfold d, select_auctions. cbn [insert_auction insert_listing auctions].
    rewrite filter_app, Hua. cbn [filter row a_id].
    now rewrite String.eqb_refl. }
  assert (Hsl : single (select_listings d listingId) = Some listing).
  { unfold d, select_listings. cbn [insert_auction insert_listing listings].
    rewrite filter_app, Hul. cbn [filter l_id]. rewrite String.eqb_refl.
    now rewrite Hok. }
  assert (He : l_auction_end listing = None) by now rewrite <- Hok.
  split; [reflexivity|]. split; [exact Hsa|]. split; [exact Hsl|].
  split; [exact He|]. split; [|split].
  - intros fl' now' bidId bidderId bidAmount currency H0'.
    apply (placeBid_expired_iff fl' now' bidId d auctionId bidderId bidAmount
             currency row (hd_error (select_listings d (a_listing_id row)))).
    + unfold AuctionsService.placeBid_read. now rewrite H0', Hsa.
    + reflexivity.
  - intros fl' now' userId amount.
    now apply (listings_placeBid_no_end fl' now' d listingId userId amount listing).
  - intros fl' fu now'. rewrite closeExpiredAuctions_keeps; [exact Hsl|].
    intros l Hin Hid.
    assert (Hl : In l (select_listings d listingId)).
    { apply filter_In. split; [exact Hin | now apply String.eqb_eq]. }
    rewrite (single_Some _ _ Hsl) in Hl. destruct Hl as [Hl|[]]. subst l.
    now rewrite He.
Qed.

(** The theorem at the creation of listing ["L1"] with auction ["A1"]. *)
Lemma created_auction_listing_witness :
  snd (ListingsService.placeBid no_faults 5000 example_db "L1" "u1" 105)
  <> Err AuctionExpired.
Proof.
  destruct (created_auction_listing no_faults 0 "L1" "A1" example_dto empty_db
              example_listing eq_refl eq_refl eq_refl)
    as [e [_ [_ [_ [_ [_ [H _]]]]]]].
  exact (H no_faults 5000%Z "u1"%string 105).
Defined.

(** ** [ListingsService.placeBid] and [getHighestBid] *)

Lemma top_by_snoc {A} (key : A -> Q) (l : list A) (x : A) :
  Forall (fun y => key y < key x) l -> top_by key (l ++ [x]) = Some x.
Proof.
  induction 1 as [|y r Hy _ IH]; [reflexivity|].
  simpl. rewrite IH.
  destruct (Qle_bool (key x) (key y)) eqn:E; [|reflexivity].
  apply Qle_bool_iff in E. exfalso. exact (Qlt_not_le _ _ Hy E).
Qed.





(** ** [closeExpiredAuctions] *)

Lemma distinct_listing (L : list ListingRow) (l l' : ListingRow) :
  NoDup (map l_id L) -> In l L -> In l' L -> l_id l = l_id l' -> l = l'.
Proof.
  induction L as [|x r IH]; intros Hn Hl Hl' Hid; [contradiction|].
  simpl in Hn. apply NoDup_cons_iff in Hn. destruct Hn as [Hx Hr].
  destruct Hl as [Hl|Hl], Hl' as [Hl'|Hl'].
  - congruence.
  - subst x. exfalso. apply Hx. rewrite Hid. now apply in_map.
  - subst x. exfalso. apply Hx. rewrite <- Hid. now apply in_map.
  - now apply IH.
Qed.

(** The listings after the updates for the rows [xs], each going through. *)
Lemma closeExpiredAuctions_fold now (xs : list ListingRow) : forall d,
  listings (fold_left (fun d listing =>
                         update_listings d (l_id listing)
                           (set_listing_status_at "expired" now)) xs d)
  = map (fun l => if existsb (String.eqb (l_id l)) (map l_id xs)
                  then set_listing_status_at "expired" now l else l)
        (listings d).
Proof.
  induction xs as [|x xs IH]; intro d.
  - simpl. symmetry. apply map_id.
  - simpl. rewrite IH. cbn [update_listings listings]. rewrite map_map.
    apply map_ext. intro l.
    destruct (String.eqb (l_id l) (l_id x)) eqn:E.
    + cbn [set_listing_status_at l_id]. simpl.
      now destruct (existsb (String.eqb (l_id l)) (map l_id xs)).
    + reflexivity.
Qed.

(** X20.  On a table of listings with distinct identifiers, when its query
    and its updates go through, [closeExpiredAuctions] sets to 'expired'
    exactly the listings of type 'auction' that are 'active' with an
    [auction_end] before now, stamping them with that instant, and leaves
    all other listings, the auctions, which keep their status, and the bids
    as they were; a further run at that or an earlier instant changes
    nothing. *)
Theorem closeExpiredAuctions_spec :
  forall fl fu now db,
    NoDup (map l_id (listings db)) ->
    fl 0%nat = false ->
    (forall id, fu id = false) ->
    let db' := ListingsService.closeExpiredAuctions fl fu now db in
    listings db' = map (expire_row now) (listings db)
    /\ auctions db' = auctions db
    /\ bids db' = bids db
    /\ listing_bids db' = listing_bids db
    /\ (forall fl' fu' now',
          (now' <= now)%Z ->
          ListingsService.closeExpiredAuctions fl' fu' now' db' = db').
Proof.
  intros fl fu now db Hn H0 Hfu db'.
  assert (Hfold : db' = fold_left
                          (fun d listing =>
                             update_listings d (l_id listing)
                               (set_listing_status_at "expired" now))
                          (filter (listing_expired now) (listings db)) db).
  { unfold db', ListingsService.closeExpiredAuctions. rewrite H0.
    fold (listing_expired now).
    generalize (filter (listing_expired now) (listings db)). intro xs.
    generalize db. induction xs as [|x xs IH]; intro d; [reflexivity|].
    simpl. rewrite Hfu. apply IH. }
  assert (Hl : listings db' = map (expire_row now) (listings db)).
  { rewrite Hfold, closeExpiredAuctions_fold. apply map_ext_in.
    intros l Hin. unfold expire_row.
    destruct (listing_expired now l) eqn:E.
    - replace (existsb (String.eqb (l_id l))
                 (map l_id (filter (listing_expired now) (listings db))))
        with true; [reflexivity|].
      symmetry. apply existsb_exists. exists (l_id l).
      split; [|apply String.eqb_refl].
      apply in_map. apply filter_In. now split.
    - destruct (existsb (String.eqb (l_id l))
                  (map l_id (filter (listing_expired now) (listings db))))
        eqn:Ex; [|reflexivity].
      exfalso. apply existsb_exists in Ex. destruct Ex as [i [Hi Heq]].
      apply String.eqb_eq in Heq. apply in_map_iff in Hi.
      destruct Hi as [l' [Hid Hl']]. apply filter_In in Hl'.
      destruct Hl' as [Hin' E'].
      assert (l = l') by (apply (distinct_listing (listings db)); congruence).
      subst l'. congruence. }
  destruct (closeExpiredAuctions_tables fl fu now db) as [Ha Hb].
  split; [exact Hl|]. split; [exact Ha|]. split; [exact Hb|]. split.
  - rewrite Hfold.
    generalize (filter (listing_expired now) (listings db)). intro xs.
    generalize db. induction xs as [|x xs IH]; intro d; [reflexivity|].
    simpl. now rewrite IH.
  - intros fl' fu' now' Hle. unfold ListingsService.closeExpiredAuctions.
    fold (listing_expired now').
    replace (filter (listing_expired now') (listings db')) with (@nil ListingRow);
      [now destruct (fl' 0%nat)|].
    symmetry. rewrite Hl. clear -Hle.
    induction (listings db) as [|l r IH]; [reflexivity|].
    cbn [map filter]. rewrite IH.
    replace (listing_expired now' (expire_row now l)) with false; [reflexivity|].
    symmetry. unfold expire_row. destruct (listing_expired now l) eqn:E.
    + unfold listing_expired. cbn [set_listing_status_at l_status].
      now rewrite andb_false_r.
    + unfold listing_expired in *.
      destruct (String.eqb (l_listing_type l) "auction" &&
                String.eqb (l_status l) "active"); [|reflexivity].
      simpl in *. destruct (l_auction_end l) as [e|]; [|reflexivity].
      apply Z.ltb_ge in E. apply Z.ltb_ge. lia.
Qed.

(** Listing ["L9"], whose end 1000 has passed at instant 2000. *)
Lemma closeExpiredAuctions_spec_witness :
  listings (ListingsService.closeExpiredAuctions no_faults (fun _ => false) 2000
              example_dated_db)
  = [mkListing "L9" "seller" "auction" (Some 1000%Z) 100 "expired" 2000].
Proof.
  assert (Hn : NoDup (map l_id (listings example_dated_db)))
    by (simpl; constructor; [intros [] | constructor]).
  destruct (closeExpiredAuctions_spec no_faults (fun _ => false) 2000
              example_dated_db Hn eq_refl (fun _ => eq_refl)) as [H _].
  exact H.
Defined.

(** ** [getUserBidAuctions] *)

Lemma has_bid_of_iff bs userId a :
  has_bid_of bs userId a = true
  <-> exists b, In b bs /\ b_bidder_id b = userId /\ b_auction_id b = a_id a.
Proof.
  unfold has_bid_of. rewrite existsb_exists. split.
  - intros [i [Hi Heq]]. apply String.eqb_eq in Heq.
    apply in_map_iff in Hi. destruct Hi as [b [Hb Hin]].
    apply filter_In in Hin. destruct Hin as [Hin Hu].
    apply String.eqb_eq in Hu. exists b. repeat split; congruence.
  - intros [b [Hin [Hu Ha]]]. exists (a_id a). split; [|apply String.eqb_refl].
    rewrite <- Ha. apply in_map. apply filter_In. split; [exact Hin|].
    now apply String.eqb_eq.
Qed.

(** With both queries answering, what [getUserBidAuctions] returns. *)
Lemma getUserBidAuctions_rows fl now db userId :
  fl 0%nat = false -> fl 1%nat = false ->
  AuctionsReads.getUserBidAuctions fl now db userId
  = map (AuctionsReads.enrichAuctionData now)
        (order_by by_auction_end
           (filter (has_bid_of (bids db) userId) (auctions db))).
Proof.
  intros H0 H1. unfold AuctionsReads.getUserBidAuctions, has_bid_of.
  rewrite H0, H1.
  destruct (filter (fun b => String.eqb (b_bidder_id b) userId) (bids db))
    as [|b r]; [|reflexivity].
  cbn [map existsb].
  induction (auctions db) as [|a l IH]; [reflexivity|]. exact IH.
Qed.

(** X21.  With its two queries answering, [getUserBidAuctions] returns the
    auctions on which the user has a bid, each as often as it is in the
    table however many bids the user has on it, by ascending end and
    whatever their status; and the auction of a bid that [placeBid] has
    just accepted is among those of its bidder. *)
Theorem getUserBidAuctions_spec :
  forall fl now db userId,
    fl 0%nat = false -> fl 1%nat = false ->
    exists rows,
      AuctionsReads.getUserBidAuctions fl now db userId
      = map (AuctionsReads.enrichAuctionData now) rows
      /\ Permutation rows (filter (has_bid_of (bids db) userId) (auctions db))
      /\ ascending (map a_auction_end rows)
      /\ (forall a,
            In a rows
            <-> In a (auctions db)
                /\ exists b, In b (bids db) /\ b_bidder_id b = userId
                             /\ b_auction_id b = a_id a)
      /\ (forall fl' now' bidId auctionId bidAmount currency bid,
            snd (AuctionsService.placeBid fl' now' bidId db auctionId userId
                   bidAmount currency) = Ok bid ->
            exists e,
              In e (AuctionsReads.getUserBidAuctions fl now
                      (fst (AuctionsService.placeBid fl' now' bidId db auctionId
                              userId bidAmount currency)) userId)
              /\ a_id (e_auction e) = auctionId).
Proof.
  intros fl now db userId H0 H1.
  exists (order_by by_auction_end
            (filter (has_bid_of (bids db) userId) (auctions db))).
  pose proof (order_by_perm by_auction_end
                (filter (has_bid_of (bids db) userId) (auctions db))) as Hp.
  split; [now apply getUserBidAuctions_rows|]. split; [exact Hp|].
  split; [apply ascending_order_by|]. split.
  - intro a. rewrite <- has_bid_of_iff, <- filter_In. split.
    + apply Permutation_in. exact Hp.
    + apply Permutation_in. now apply Permutation_sym.
  - intros fl' now' bidId auctionId bidAmount currency bid Hok.
    rewrite (getUserBidAuctions_rows fl now _ userId H0 H1).
    revert Hok. unfold AuctionsService.placeBid.
    destruct (AuctionsService.placeBid_read fl' db auctionId) as [[a l]|] eqn:Hr;
      [|discriminate].
    destruct (AuctionsService.placeBid_validate now' (a, l) userId bidAmount);
      [discriminate|].
    unfold AuctionsService.placeBid_insert, AuctionsService.placeBid_update.
    destruct (fl' 1%nat); [destruct (fl' 2%nat); discriminate|].
    destruct (fl' 2%nat); [discriminate|]. cbn [fst snd].
    intros _.
    destruct (placeBid_read_Some _ _ _ _ _ Hr) as [_ Hs].
    destruct (single_select_In _ _ _ Hs) as [Hin [Hid _]].
    set (a' := set_bid_state bidAmount
                 (or_else_Z (a_bid_count a) 0 + 1) now' a).
    exists (AuctionsReads.enrichAuctionData now a'). split; [|exact Hid].
    apply in_map.
    apply (Permutation_in _ (Permutation_sym (order_by_perm by_auction_end _))).
    apply filter_In. split.
    + cbn [update_auctions auctions insert_bid]. apply in_map_iff.
      exists a. split; [|exact Hin].
      apply String.eqb_eq in Hid. now rewrite Hid.
    + apply has_bid_of_iff. eexists. split.
      * cbn [update_auctions bids insert_bid]. apply in_or_app. right.
        left. reflexivity.
      * split; [reflexivity | now symmetry].
Qed.

(** User ["u1"] after a bid of 105 on auction ["A1"]. *)
Lemma getUserBidAuctions_spec_witness :
  exists e,
    In e (AuctionsReads.getUserBidAuctions no_faults 2 example_bid_db "u1")
    /\ a_id (e_auction e) = "A1"%string.
Proof.
  destruct (getUserBidAuctions_spec no_faults 2 example_db "u1" eq_refl eq_refl)
    as [rows [_ [_ [_ [_ H]]]]].
  exact (H no_faults 1%Z "b1"%string "A1"%string 105 "USD"%string
           (mkBid "b1" "A1" "u1" 105 "USD" 1 false) eq_refl).
Defined.

(** ** The ledger and the closing of auctions *)

Lemma increasing_below_last {A} (key : A -> Q) (r : list A) (x : A) :
  strictly_increasing (map key (r ++ [x])) -> Forall (fun y => key y < key x) r.
Proof.
  induction r as [|y r IH]; intro H; [constructor|].
  rewrite <- app_comm_cons in H. cbn [map] in H.
  pose proof (increasing_above_head _ _ H) as Hy.
  constructor.
  - rewrite Forall_forall in Hy. apply Hy. apply in_map.
    apply in_or_app. right. now left.
  - apply IH. destruct (map key (r ++ [x])) eqn:E; [exact I|].
    simpl in H. tauto.
Qed.

(** Among bids inserted by increasing amount the highest is the last. *)
Lemma top_by_increasing (l : list BidRow) (x : BidRow) :
  strictly_increasing (map b_bid_amount (l ++ [x])) ->
  top_by b_bid_amount (l ++ [x]) = Some x.
Proof.
  intro H. apply top_by_snoc. now apply increasing_below_last.
Qed.

(** X22.  In every schedule without interleaving in which the writes of
    [placeBid] go through, [endAuction], the store answering, closes an
    auction that has bids in favour of the bid inserted last: its bidder
    becomes [winning_bidder_id], and its amount is the [current_bid] of the
    auction. *)
Theorem endAuction_winner_holds_current_bid :
  forall evs now a r hb,
    sequential evs = true ->
    In a (auctions (sys_db (run evs init))) ->
    bids_of (sys_db (run evs init)) (a_id a) = r ++ [hb] ->
    exists a',
      snd (AuctionsService.endAuction no_faults now (sys_db (run evs init)) (a_id a))
      = Ok a'
      /\ a_status a' = "ended"%string
      /\ a_winning_bidder_id a' = Some (b_bidder_id hb)
      /\ a_current_bid a' = Some (b_bid_amount hb)
      /\ a_bid_count a' = Some (Z.of_nat (List.length r) + 1)%Z.
Proof.
  intros evs now a r hb Hseq Hin Hb.
  destruct (run_settled evs init Hseq init_settled) as [Hl _].
  rewrite Forall_forall in Hl. destruct (Hl a Hin) as [Hsi [_ [Hcnt Hcur]]].
  unfold placed in Hsi, Hcnt, Hcur. rewrite Hb in Hsi, Hcnt, Hcur.
  assert (Hn : NoDup (map a_id (auctions (sys_db (run evs init)))))
    by (apply run_distinct; constructor).
  pose proof (distinct_single _ (a_id a) a Hn Hin eq_refl) as Hs.
  assert (Ht : top_by b_bid_amount (bids_of (sys_db (run evs init)) (a_id a))
               = Some hb) by (rewrite Hb; now apply top_by_increasing).
  rewrite (endAuction_with_bids now _ (a_id a) a hb Ht Hs). cbn [snd].
  eexists. split; [reflexivity|].
  cbn [AuctionsService.endAuction_updateData set_winner set_status a_status
       a_winning_bidder_id a_current_bid a_bid_count].
  split; [reflexivity|]. split; [reflexivity|]. split.
  - rewrite Hcur, map_app. cbn [map]. now rewrite last_last.
  - rewrite Hcnt, length_map, length_app. cbn [List.length].
    f_equal. lia.
Qed.

(** The theorem after three bids placed in turn on auction ["A1"]: the
    bidder of 117 wins. *)
Lemma endAuction_winner_holds_current_bid_witness :
  exists a',
    snd (AuctionsService.endAuction no_faults 2000
           (sys_db (run example_in_turn init)) "A1") = Ok a'
    /\ a_winning_bidder_id a' = Some "u3"%string
    /\ a_current_bid a' = Some 117.
Proof.
  assert (Hin : In (mkAuction "A1" "L1" 1000 100 (Some 117) (Some 3%Z) None None
                              "active" 3)
                   (auctions (sys_db (run example_in_turn init))))
    by (vm_compute; left; reflexivity).
  destruct (endAuction_winner_holds_current_bid example_in_turn 2000 _
              [mkBid "b1" "A1" "u1" 105 "USD" 1 false;
               mkBid "b2" "A1" "u2" 111 "USD" 2 false]
              (mkBid "b3" "A1" "u3" 117 "USD" 3 false) eq_refl Hin eq_refl)
    as [a' [H1 [_ [H2 [H3 _]]]]].
  exists a'. split; [exact H1|]. split; [exact H2 | exact H3].
Defined.

(** X23.  In every schedule without interleaving in which the writes of
    [placeBid] go through, [cancelAuction], the store answering, succeeds
    on exactly the auctions that are 'active' with a [bid_count] of 0. *)
Theorem cancelAuction_iff_no_bid_counted :
  forall evs now a,
    sequential evs = true ->
    In a (auctions (sys_db (run evs init))) ->
    (is_ok (snd (AuctionsService.cancelAuction no_faults now
                   (sys_db (run evs init)) (a_id a))) = true
     <-> a_status a = "active"%string /\ a_bid_count a = Some 0%Z).
Proof.
  intros evs now a Hseq Hin.
  destruct (run_settled evs init Hseq init_settled) as [Hl _].
  rewrite Forall_forall in Hl. destruct (Hl a Hin) as [_ [_ [Hcnt _]]].
  unfold placed in Hcnt. rewrite length_map in Hcnt.
  assert (Hn : NoDup (map a_id (auctions (sys_db (run evs init)))))
    by (apply run_distinct; constructor).
  pose proof (distinct_single _ (a_id a) a Hn Hin eq_refl) as Hs.
  destruct (bids_of (sys_db (run evs init)) (a_id a)) as [|b r] eqn:Hb.
  - rewrite (cancelAuction_update no_faults now _ (a_id a) a eq_refl
               (or_intror Hb) Hs).
    destruct (String.eqb (a_status a) "active") eqn:E.
    + apply String.eqb_eq in E. cbn [snd is_ok]. now split.
    + apply String.eqb_neq in E. cbn [snd is_ok]. split; [discriminate|].
      intros [H _]. contradiction.
  - unfold AuctionsService.cancelAuction. cbn [no_faults]. rewrite Hb.
    cbn [firstn List.length Nat.ltb Nat.leb snd is_ok].
    split; [discriminate|]. intros [_ H]. rewrite Hcnt in H.
    cbn [List.length] in H. injection H as H. lia.
Qed.

(** The theorem at auction ["A1"] before any bid. *)
Lemma cancelAuction_iff_no_bid_counted_witness :
  is_ok (snd (AuctionsService.cancelAuction no_faults 5 example_db "A1")) = true.
Proof.
  assert (Hin : In example_auction
                   (auctions (sys_db (run [CreateListing no_faults 0 "L1" "A1"
                                             example_dto] init))))
    by (left; reflexivity).
  apply (cancelAuction_iff_no_bid_counted
           [CreateListing no_faults 0 "L1" "A1" example_dto] 5 example_auction
           eq_refl Hin).
  split; reflexivity.
Defined.

(** ** Sellers and bidders *)

Lemma kin_trans db1 db2 db3 : kin db1 db2 -> kin db2 db3 -> kin db1 db3.
Proof.
  intros [A1 [B1 L1]] [A2 [B2 L2]]. split; [|split].
  - refine (Forall2_chain _ _ _ _ _ _ _ A1 A2).
    intros x y z [H1 H2] [H3 H4]. split; congruence.
  - refine (Forall2_chain _ _ _ _ _ _ _ B1 B2).
    intros x y z [H1 H2] [H3 H4]. split; congruence.
  - intro id. now rewrite L2, L1.
Qed.

Lemma kin_ids db db' : kin db db' -> map a_id (auctions db') = map a_id (auctions db).
Proof.
  intros [A _]. induction A as [|x y l l' [Hid _] _ IH]; [reflexivity|].
  simpl. now rewrite Hid, IH.
Qed.

Lemma no_self_bid_kin db db' : kin db db' -> no_self_bid db -> no_self_bid db'.
Proof.
  intros Hk [K1 [K2 K4]]. pose proof Hk as [A [B L]].
  split; [|split].
  - intros a' Ha'. destruct (Forall2_In_right _ _ _ _ A Ha') as [a [Ha [_ El]]].
    unfold seller_of. rewrite El, L. now apply K1.
  - intros b' a' Hb' Ha' Hid.
    destruct (Forall2_In_right _ _ _ _ A Ha') as [a [Ha [Ei El]]].
    destruct (Forall2_In_right _ _ _ _ B Hb') as [b [Hb [Ea Eb]]].
    unfold seller_of. rewrite El, L, Eb.
    apply K2; [exact Hb | exact Ha | congruence].
  - intros b' Hb'. destruct (Forall2_In_right _ _ _ _ B Hb') as [b [Hb [Ea _]]].
    rewrite Ea, (kin_ids db db' Hk). now apply K4.
Qed.

Lemma no_self_call_kin db db' calls :
  kin db db' -> no_self_call db calls -> no_self_call db' calls.
Proof.
  intros [A [_ L]] Kc c a' Hc Hp Ha' Hid.
  destruct (Forall2_In_right _ _ _ _ A Ha') as [a [Ha [Ei El]]].
  unfold seller_of. rewrite El, L.
  apply (Kc c a Hc Hp Ha). congruence.
Qed.

Lemma grows_exact {A} (R : A -> A -> Prop) (P : A -> Prop) (l l' : list A) :
  grows R P l l' -> List.length l' = List.length l -> Forall2 R l l'.
Proof.
  intros [front [rest [E [Hf _]]]] Hlen. subst l'.
  pose proof (Forall2_length Hf) as Hl. rewrite length_app in Hlen.
  destruct rest; [now rewrite app_nil_r | simpl in Hlen; lia].
Qed.

(** A method that adds no row and keeps the sellers keeps the kinship. *)
Lemma kin_of db db' :
  frame db db' -> history db db' ->
  (forall id, seller_at db' id = seller_at db id) ->
  kin db db'.
Proof.
  intros [Fa Fb] [Ha Hb] L. split; [|split; [|exact L]].
  - refine (Forall2_weaken_In _ _ _ _ _
              (grows_exact _ _ _ _ Ha (eq_sym (Forall2_length Fa)))).
    intros x y _ T. destruct (touched_keeps _ _ T) as [H1 [H2 _]]. now split.
  - refine (Forall2_weaken_In _ _ _ _ _
              (grows_exact _ _ _ _ Hb (eq_sym (Forall2_length Fb)))).
    intros x y _ [_ [H1 [H2 _]]]. now split.
Qed.

Lemma sellers_map (g : ListingRow -> ListingRow) (L : list ListingRow) (id : Id) :
  (forall l, l_id (g l) = l_id l /\ l_seller_id (g l) = l_seller_id l) ->
  option_map l_seller_id
    (hd_error (filter (fun l => String.eqb (l_id l) id) (map g L)))
  = option_map l_seller_id
      (hd_error (filter (fun l => String.eqb (l_id l) id) L)).
Proof.
  intro H. induction L as [|x r IH]; [reflexivity|].
  simpl. destruct (H x) as [Hi Hs]. rewrite Hi.
  destruct (String.eqb (l_id x) id); [simpl; now rewrite Hs | exact IH].
Qed.

Lemma update_listings_sellers db i (g : ListingRow -> ListingRow) id :
  (forall l, l_id (g l) = l_id l /\ l_seller_id (g l) = l_seller_id l) ->
  seller_at (update_listings db i g) id = seller_at db id.
Proof.
  intro H. unfold seller_at, select_listings. cbn [update_listings listings].
  apply sellers_map. intro l. destruct (String.eqb (l_id l) i); [apply H | now split].
Qed.

Lemma endAuction_sellers fl now db id id' :
  seller_at (fst (AuctionsService.endAuction fl now db id)) id' = seller_at db id'.
Proof.
  unfold AuctionsService.endAuction.
  case_split; cbn [fst]; try reflexivity;
    unfold seller_at, select_listings;
    cbn [listings update_auctions update_bids update_listings];
    apply sellers_map; intro l;
    destruct (String.eqb (l_id l) _); split; reflexivity.
Qed.

Lemma sweep_sellers fl fle now db id' :
  seller_at (AuctionsService.checkAndEndExpiredAuctions fl fle now db) id'
  = seller_at db id'.
Proof.
  unfold AuctionsService.checkAndEndExpiredAuctions.
  destruct (fl 0%nat); [reflexivity|].
  generalize (filter (AuctionsService.expired_active now) (auctions db)).
  intro l. generalize db.
  induction l as [|x l IH]; intro d; [reflexivity|].
  simpl. rewrite IH. apply endAuction_sellers.
Qed.

Lemma extendAuction_sellers fl now db id m id' :
  seller_at (fst (AuctionsService.extendAuction fl now db id m)) id'
  = seller_at db id'.
Proof. unfold AuctionsService.extendAuction. case_split; reflexivity. Qed.

Lemma cancelAuction_sellers fl now db id id' :
  seller_at (fst (AuctionsService.cancelAuction fl now db id)) id'
  = seller_at db id'.
Proof. unfold AuctionsService.cancelAuction. case_split; reflexivity. Qed.

Lemma listings_placeBid_sellers fl now db listingId userId amount id' :
  seller_at (fst (ListingsService.placeBid fl now db listingId userId amount)) id'
  = seller_at db id'.
Proof.
  unfold ListingsService.placeBid.
  case_split; cbn [fst]; try reflexivity;
    unfold seller_at, select_listings;
    cbn [listings insert_listing_bid update_listings];
    apply sellers_map; intro y;
    destruct (String.eqb (l_id y) _); split; reflexivity.
Qed.

Lemma closeExpiredAuctions_sellers fl fu now db id' :
  seller_at (ListingsService.closeExpiredAuctions fl fu now db) id'
  = seller_at db id'.
Proof.
  unfold ListingsService.closeExpiredAuctions.
  destruct (fl 0%nat); [reflexivity|].
  match goal with |- context [fold_left _ ?l _] => generalize l end.
  intro l. generalize db.
  induction l as [|x l IH]; intro d; [reflexivity|].
  simpl. rewrite IH. destruct (fu (l_id x)); [reflexivity|].
  apply update_listings_sellers. intro y. split; reflexivity.
Qed.

Lemma guarded_kin s db' : kin (sys_db s) db' -> guarded s -> guarded (with_db s db').
Proof.
  intros Hk [Kd Kc]. split; cbn [with_db sys_db sys_calls].
  - exact (no_self_bid_kin _ _ Hk Kd).
  - exact (no_self_call_kin _ _ _ Hk Kc).
Qed.

(** A bid admitted by the checks is not by the seller read. *)
Lemma validate_None_other now a l bidderId bidAmount :
  AuctionsService.placeBid_validate now (a, l) bidderId bidAmount = None ->
  option_map l_seller_id l <> Some bidderId.
Proof.
  unfold AuctionsService.placeBid_validate. intros H E.
  destruct l as [l0|]; [|discriminate]. simpl in E. injection E as E.
  apply String.eqb_eq in E. rewrite E in H.
  destruct (negb _); [discriminate|].
  destruct (_ <? _)%Z; discriminate.
Qed.

Lemma in_set_nth_phase k p (l : list Call) c :
  p <> Validated ->
  In c (set_nth k (set_phase p) l) -> c_phase c = Validated -> In c l.
Proof.
  intro Hp. revert k.
  induction l as [|x r IH]; intros k Hin Hph; [destruct k; contradiction|].
  destruct k; simpl in Hin; destruct Hin as [Hin|Hin].
  - subst c. simpl in Hph. contradiction.
  - now right.
  - now left.
  - right. exact (IH k Hin Hph).
Qed.

Lemma guarded_read fl now auctionId bidderId bidAmount currency s :
  guarded s -> guarded (exec (BidRead fl now auctionId bidderId bidAmount currency) s).
Proof.
  intros [Kd Kc]. cbn [exec].
  destruct (negb (PlaceBidDto_valid bidAmount)); [now split|].
  assert (Hdone : forall snap r,
             guarded (mkSys (sys_db s)
                        (sys_calls s ++ [mkCall auctionId bidderId bidAmount currency
                                           now snap (Finished r)]))).
  { intros snap r. split; [exact Kd|]. cbn [sys_db sys_calls].
    intros c a Hc Hp. apply in_app_or in Hc. destruct Hc as [Hc|[Hc|[]]].
    - now apply (Kc c a).
    - subst c. discriminate. }
  destruct (AuctionsService.placeBid_read fl (sys_db s) auctionId)
    as [[a l]|] eqn:Hr; [|apply Hdone].
  destruct (AuctionsService.placeBid_validate now (a, l) bidderId bidAmount)
    as [err|] eqn:Hv; [apply Hdone|].
  split; [exact Kd|]. cbn [sys_db sys_calls fst].
  intros c a' Hc Hp Ha' Hid. apply in_app_or in Hc. destruct Hc as [Hc|[Hc|[]]].
  - now apply (Kc c a').
  - subst c. cbn [c_auctionId c_bidderId] in *.
    destruct (placeBid_read_Some _ _ _ _ _ Hr) as [H0 Hs].
    destruct (single_select_In _ _ _ Hs) as [_ [_ Hu]].
    assert (a' = a) by now apply Hu. subst a'.
    unfold AuctionsService.placeBid_read in Hr. rewrite H0, Hs in Hr.
    injection Hr as Hl. subst l.
    exact (validate_None_other now a _ bidderId bidAmount Hv).
Qed.

Lemma guarded_insert k fl bidId s :
  safe s -> guarded s -> guarded (exec (BidInsert k fl bidId) s).
Proof.
  intros [_ Hcalls] [Kd Kc]. cbn [exec].
  destruct (nth_error (sys_calls s) k) as [[aid bidder x cur t snap ph]|] eqn:Hk;
    [|now split].
  destruct ph; try (now split).
  pose proof (nth_error_In _ _ Hk) as Hin.
  assert (Hc' : no_self_call (sys_db s)
                  (set_nth k (set_phase (Inserted None)) (sys_calls s))
                /\ forall b, no_self_call (sys_db s)
                     (set_nth k (set_phase (Inserted (Some b))) (sys_calls s))).
  { split; [|intro b]; intros c a Hc Hp; apply (Kc c a); try exact Hp;
      apply (in_set_nth_phase k _ _ c) in Hc; try exact Hc; try exact Hp;
      discriminate. }
  destruct Hc' as [Hnone Hsome].
  unfold AuctionsService.placeBid_insert. destruct (fl 1%nat).
  - split; [exact Kd | exact Hnone].
  - split; [|apply Hsome]. cbn [sys_db].
    destruct Kd as [K1 [K2 K4]]. split; [|split].
    + exact K1.
    + intros b a Hb Ha Hid. cbn [insert_bid bids] in Hb.
      apply in_app_or in Hb. destruct Hb as [Hb|[Hb|[]]].
      * now apply (K2 b a).
      * subst b. cbn [b_auction_id b_bidder_id] in *.
        exact (Kc _ a Hin eq_refl Ha Hid).
    + intros b Hb. cbn [insert_bid bids] in Hb.
      apply in_app_or in Hb. destruct Hb as [Hb|[Hb|[]]].
      * now apply K4.
      * subst b. cbn [b_auction_id].
        rewrite Forall_forall in Hcalls.
        destruct (Hcalls _ Hin eq_refl) as [_ [Hids _]]. exact Hids.
Qed.

Lemma kin_update_auctions db id (f : AuctionRow -> AuctionRow) :
  (forall a, a_id (f a) = a_id a /\ a_listing_id (f a) = a_listing_id a) ->
  kin db (update_auctions db id f).
Proof.
  intro H. split; [|split].
  - cbn [update_auctions auctions]. apply Forall2_map_right. intro a.
    destruct (String.eqb (a_id a) id); [apply H | now split].
  - apply Forall2_same. intro b. now split.
  - reflexivity.
Qed.

Lemma guarded_update k fl now s :
  guarded s -> guarded (exec (BidUpdate k fl now) s).
Proof.
  intros [Kd Kc]. cbn [exec].
  destruct (nth_error (sys_calls s) k) as [[aid bidder x cur t snap ph]|];
    [|now split].
  destruct snap as [a|]; [|now split].
  destruct ph; try (now split).
  unfold AuctionsService.placeBid_update. destruct (fl 2%nat).
  - split; [exact Kd|]. cbn [sys_db sys_calls].
    intros c a' Hc Hp. apply (Kc c a'); [|exact Hp].
    apply (in_set_nth_phase k _ _ c) in Hc; [exact Hc | discriminate | exact Hp].
  - cbn [sys_db sys_calls].
    pose proof (kin_update_auctions (sys_db s) aid
                  (set_bid_state x (or_else_Z (a_bid_count a) 0 + 1) now)
                  (fun r => conj eq_refl eq_refl)) as Hk.
    split; [exact (no_self_bid_kin _ _ Hk Kd)|].
    apply (no_self_call_kin _ _ _ Hk).
    intros c a' Hc Hp. apply (Kc c a'); [|exact Hp].
    apply (in_set_nth_phase k _ _ c) in Hc; [exact Hc | discriminate | exact Hp].
Qed.

Lemma seller_at_grow db db' rest id :
  listings db' = listings db ++ rest -> seller_at db id <> None ->
  seller_at db' id = seller_at db id.
Proof.
  unfold seller_at, select_listings. intros -> H. rewrite filter_app.
  destruct (filter (fun l => String.eqb (l_id l) id) (listings db));
    [now contradiction H | reflexivity].
Qed.

(** Rows added under fresh identifiers, each auction with its listing. *)
Lemma guarded_grow s db' lrest arest :
  bids db' = bids (sys_db s) ->
  listings db' = listings (sys_db s) ++ lrest ->
  auctions db' = auctions (sys_db s) ++ arest ->
  (forall a, In a arest ->
             ~ In (a_id a) (map a_id (auctions (sys_db s)))
             /\ seller_of db' a <> None) ->
  safe s -> guarded s -> guarded (with_db s db').
Proof.
  intros Hb Hl Ha Hnew [_ Hcalls] [[K1 [K2 K4]] Kc].
  assert (Hold : forall a, In a (auctions (sys_db s)) ->
                           seller_of db' a = seller_of (sys_db s) a).
  { intros a Hin. apply (seller_at_grow _ _ lrest); [exact Hl | now apply K1]. }
  split; cbn [with_db sys_db sys_calls].
  - split; [|split].
    + intros a Hin. rewrite Ha in Hin. apply in_app_or in Hin.
      destruct Hin as [Hin|Hin]; [|now apply Hnew].
      rewrite (Hold a Hin). now apply K1.
    + intros b a Hinb Hin Hid. rewrite Hb in Hinb. rewrite Ha in Hin.
      apply in_app_or in Hin. destruct Hin as [Hin|Hin].
      * rewrite (Hold a Hin). now apply K2.
      * exfalso. destruct (Hnew a Hin) as [Hfresh _]. apply Hfresh.
        rewrite Hid. now apply K4.
    + intros b Hinb. rewrite Hb in Hinb. rewrite Ha, map_app.
      apply in_or_app. left. now apply K4.
  - intros c a Hc Hp Hin Hid. rewrite Ha in Hin. apply in_app_or in Hin.
    destruct Hin as [Hin|Hin].
    + rewrite (Hold a Hin). now apply (Kc c a).
    + exfalso. destruct (Hnew a Hin) as [Hfresh _]. apply Hfresh.
      rewrite Hid. rewrite Forall_forall in Hcalls.
      assert (Hpend : pending (c_phase c) = true) by now rewrite Hp.
      destruct (Hcalls c Hc Hpend) as [_ [Hids _]]. exact Hids.
Qed.

Lemma guarded_create fl now listingId auctionId dto s :
  safe s -> guarded s ->
  guarded (exec (CreateListing fl now listingId auctionId dto) s).
Proof.
  intros Hsafe Hg. cbn [exec].
  destruct (id_in_use (sys_db s) listingId auctionId) eqn:Hu; [exact Hg|].
  pose proof (id_not_in_use _ _ _ Hu) as Hfresh.
  unfold id_in_use in Hu. apply orb_false_iff in Hu. destruct Hu as [_ Hul].
  assert (Hroll : forall new,
             l_id new = listingId ->
             filter (fun l => negb (String.eqb (l_id l) listingId))
                    (listings (sys_db s) ++ [new])
             = listings (sys_db s) ++ []).
  { intros new Hid. rewrite filter_app. cbn [filter].
    rewrite Hid, String.eqb_refl. cbn [negb]. f_equal.
    induction (listings (sys_db s)) as [|y r IH]; [reflexivity|].
    simpl in Hul. apply orb_false_iff in Hul. destruct Hul as [Hy Hr].
    simpl. rewrite Hy. simpl. now rewrite IH. }
  pose proof (existsb_false_filter _ _ Hul) as Hnone.
  unfold ListingsService.createListing.
  destruct (fl 0%nat); [exact Hg|].
  destruct (String.eqb (ListingsService.listing_type dto) "auction").
  - destruct (ListingsService.auction_end dto) as [e|].
    + destruct (fl 1%nat); cbn [fst].
      * apply (guarded_grow s _ [] []); try assumption; try reflexivity.
        -- cbn [delete_listings insert_listing listings]. now apply Hroll.
        -- cbn [delete_listings insert_listing auctions]. now rewrite app_nil_r.
        -- intros a [].
      * eapply (guarded_grow s _ _ _); try assumption; try reflexivity.
        intros a [Ha|[]]. subst a. split; [exact Hfresh|].
        unfold seller_of, seller_at, select_listings.
        cbn [insert_auction insert_listing listings a_listing_id].
        rewrite filter_app. fold (select_listings (sys_db s) listingId).
        unfold select_listings. rewrite Hnone. cbn [filter l_id app].
        rewrite String.eqb_refl. discriminate.
    + cbn [fst]. apply (guarded_grow s _ [] []); try assumption; try reflexivity.
      * cbn [delete_listings insert_listing listings]. now apply Hroll.
      * cbn [delete_listings insert_listing auctions]. now rewrite app_nil_r.
      * intros a [].
  - cbn [fst]. eapply (guarded_grow s _ _ []); try assumption; try reflexivity.
    + cbn [insert_listing auctions]. now rewrite app_nil_r.
    + intros a [].
Qed.

Lemma exec_guarded e s : safe s -> guarded s -> guarded (exec e s).
Proof.
  intros Hsafe Hg. destruct e.
  - now apply guarded_create.
  - now apply guarded_read.
  - now apply guarded_insert.
  - now apply guarded_update.
  - rewrite PlaceBid_phases. apply guarded_update.
    apply guarded_insert; [now apply exec_safe | now apply guarded_read].
  - apply guarded_kin; [|exact Hg].
    apply kin_of; [apply endAuction_frame | apply endAuction_history |].
    intro id. apply endAuction_sellers.
  - apply guarded_kin; [|exact Hg].
    apply kin_of; [apply extendAuction_frame | apply extendAuction_history |].
    intro id. apply extendAuction_sellers.
  - apply guarded_kin; [|exact Hg].
    apply kin_of; [apply cancelAuction_frame | apply cancelAuction_history |].
    intro id. apply cancelAuction_sellers.
  - apply guarded_kin; [|exact Hg].
    apply kin_of; [apply checkAndEndExpiredAuctions_frame
                  | apply checkAndEndExpiredAuctions_history |].
    intro id. apply sweep_sellers.
  - apply guarded_kin; [|exact Hg].
    apply kin_of; [apply listings_placeBid_frame
                  | apply frame_tables_history, listings_placeBid_tables |].
    intro id. apply listings_placeBid_sellers.
  - apply guarded_kin; [|exact Hg].
    apply kin_of; [apply closeExpiredAuctions_frame
                  | apply frame_tables_history, closeExpiredAuctions_tables |].
    intro id. apply closeExpiredAuctions_sellers.
Qed.

Lemma run_guarded evs : forall s, safe s -> guarded s -> guarded (run evs s).
Proof.
  induction evs as [|e evs IH]; intros s Hs Hg; [exact Hg|].
  simpl. apply IH; [now apply exec_safe | now apply exec_guarded].
Qed.

Lemma init_guarded : guarded init.
Proof.
  split; [split; [|split]|]; cbn; try (intros; contradiction).
  intros c a [].
Qed.

(** X24.  In every state reached from the empty store, under any
    interleaving and any failure of the store, every bid in the table is on
    an auction of the table, the listing of that auction is in the table,
    and its seller is not the bidder: no interleaving lets a seller's bid
    through. *)
Theorem no_bid_by_the_seller :
  forall evs b,
    In b (bids (sys_db (run evs init))) ->
    exists a l,
      In a (auctions (sys_db (run evs init)))
      /\ a_id a = b_auction_id b
      /\ hd_error (select_listings (sys_db (run evs init)) (a_listing_id a))
         = Some l
      /\ l_seller_id l <> b_bidder_id b.
Proof.
  intros evs b Hb.
  destruct (run_guarded evs init init_safe init_guarded) as [[K1 [K2 K4]] _].
  pose proof (K4 b Hb) as Hin. apply in_map_iff in Hin.
  destruct Hin as [a [Hid Ha]].
  pose proof (K1 a Ha) as H1. pose proof (K2 b a Hb Ha Hid) as H2.
  unfold seller_of, seller_at in H1, H2.
  destruct (hd_error (select_listings (sys_db (run evs init)) (a_listing_id a)))
    as [l|] eqn:El; [|now contradiction H1].
  exists a, l. split; [exact Ha|]. split; [exact Hid|]. split; [exact El|].
  intro E. apply H2. simpl. now rewrite E.
Qed.

(** The theorem after the schedule in which two calls of [placeBid] race
    on auction ["A1"]: the bid of 116 is not by ["seller"]. *)
Lemma no_bid_by_the_seller_witness :
  exists a l,
    In a (auctions (sys_db (run example_race init)))
    /\ hd_error (select_listings (sys_db (run example_race init)) (a_listing_id a))
       = Some l
    /\ l_seller_id l <> "u3"%string.
Proof.
  assert (Hb : In (mkBid "b3" "A1" "u3" 116 "USD" 2 false)
                  (bids (sys_db (run example_race init))))
    by (vm_compute; right; left; reflexivity).
  destruct (no_bid_by_the_seller example_race _ Hb) as [a [l [Ha [_ [Hl Hs]]]]].
  exists a, l. split; [exact Ha|]. split; [exact Hl | exact Hs].
Defined.

(** ** The writes of [endAuction] *)

(** X25.  [endAuction] is a sequence of separate writes: when its last
    update fails after the others went through, it answers with an error
    and the auction row is as before, still without winner, and yet the
    highest bid stays marked [is_winning] and the listing 'sold'. *)
Theorem endAuction_not_atomic :
  forall fl now db auctionId auction hb,
    fl 0%nat = false -> fl 1%nat = false -> fl 2%nat = false ->
    fl 3%nat = false -> fl 4%nat = true ->
    single (select_auctions db auctionId) = Some auction ->
    top_by b_bid_amount (bids_of db auctionId) = Some hb ->
    let out := AuctionsService.endAuction fl now db auctionId in
    snd out = Err FailedToEndAuction
    /\ auctions (fst out) = auctions db
    /\ bids (fst out) = map (mark (b_id hb)) (bids db)
    /\ (exists b, In b (bids (fst out)) /\ b_id b = b_id hb
                  /\ b_is_winning b = true)
    /\ listings (fst out)
       = map (fun l => if String.eqb (l_id l) (a_listing_id auction)
                       then set_listing_status "sold" l else l)
             (listings db).
Proof.
  intros fl now db id a hb H0 H1 H2 H3 H4 Hs Ht out.
  unfold out, AuctionsService.endAuction. rewrite H0, H1, H2, H3, H4, Ht.
  change (select_auctions (update_bids db (b_id hb) set_is_winning) id)
    with (select_auctions db id).
  rewrite Hs. cbn [fst snd].
  split; [reflexivity|]. split; [reflexivity|]. split; [reflexivity|].
  split; [|reflexivity].
  exists (mark (b_id hb) hb). split; [|split].
  - cbn [update_listings update_bids bids]. apply (in_map (mark (b_id hb))).
    pose proof (top_by_In _ _ _ Ht) as Hin. unfold bids_of in Hin.
    apply filter_In in Hin. tauto.
  - apply mark_id.
  - apply mark_self.
Qed.

(** The theorem at auction ["A1"] with a bid of 105, the last update of
    [endAuction] failing. *)
Lemma endAuction_not_atomic_witness :
  let out := AuctionsService.endAuction (fun k => Nat.eqb k 4) 2000
               example_bid_db "A1" in
  snd out = Err FailedToEndAuction
  /\ map b_is_winning (bids (fst out)) = [true]
  /\ map l_status (listings (fst out)) = ["sold"%string]
  /\ map a_status (auctions (fst out)) = ["active"%string].
Proof.
  destruct (endAuction_not_atomic (fun k => Nat.eqb k 4) 2000 example_bid_db "A1"
              (mkAuction "A1" "L1" 1000 100 (Some 105) (Some 1%Z) None None
                         "active" 1)
              (mkBid "b1" "A1" "u1" 105 "USD" 1 false)
              eq_refl eq_refl eq_refl eq_refl eq_refl eq_refl eq_refl)
    as [H1 [H2 [H3 [_ H4]]]].
  split; [exact H1|]. split; [now rewrite H3|].
  split; [now rewrite H4 | now rewrite H2].
Defined.

(** ** The status of the listing *)

Lemma select_listings_update db id (g : ListingRow -> ListingRow) id' :
  (forall l, l_id (g l) = l_id l) ->
  select_listings (update_listings db id g) id'
  = map (fun l => if String.eqb (l_id l) id then g l else l)
        (select_listings db id').
Proof.
  intro H. unfold select_listings. cbn [update_listings listings].
  induction (listings db) as [|x r IH]; [reflexivity|].
  simpl. destruct (String.eqb (l_id x) id) eqn:E.
  - rewrite H. destruct (String.eqb (l_id x) id'); simpl; [|exact IH].
    now rewrite E, IH.
  - destruct (String.eqb (l_id x) id'); simpl; [|exact IH].
    now rewrite E, IH.
Qed.

(** X26.  Neither [placeBid] looks at the status of the listing: setting
    the status of a listing, as [endAuction] does with 'sold', does not
    change the answer of any call of [ListingsService.placeBid] or of
    [AuctionsService.placeBid]. *)
Theorem placeBid_ignores_listing_status :
  forall fl now db id st,
    (forall listingId userId amount,
        snd (ListingsService.placeBid fl now
               (update_listings db id (set_listing_status st)) listingId userId
               amount)
        = snd (ListingsService.placeBid fl now db listingId userId amount))
    /\ (forall bidId auctionId bidderId bidAmount currency,
          snd (AuctionsService.placeBid fl now bidId
                 (update_listings db id (set_listing_status st)) auctionId bidderId
                 bidAmount currency)
          = snd (AuctionsService.placeBid fl now bidId db auctionId bidderId
                   bidAmount currency)).
Proof.
  intros fl now db id st.
  set (g := fun l => if String.eqb (l_id l) id then set_listing_status st l else l).
  assert (Hsel : forall id',
             select_listings (update_listings db id (set_listing_status st)) id'
             = map g (select_listings db id')).
  { intro id'. now apply select_listings_update. }
  split.
  - intros listingId userId amount. unfold ListingsService.placeBid.
    rewrite Hsel, single_map.
    change (listing_bids_of (update_listings db id (set_listing_status st))
              listingId) with (listing_bids_of db listingId).
    destruct (fl 0%nat); [reflexivity|].
    destruct (single (select_listings db listingId)) as [l|]; [|reflexivity].
    cbn [option_map].
    assert (Hv : ListingsService.placeBid_validate now (g l) userId
                 = ListingsService.placeBid_validate now l userId).
    { unfold g. now destruct (String.eqb (l_id l) id). }
    assert (Hp : l_price_amount (g l) = l_price_amount l).
    { unfold g. now destruct (String.eqb (l_id l) id). }
    rewrite Hv, Hp. case_split; reflexivity.
  - intros bidId auctionId bidderId bidAmount currency.
    unfold AuctionsService.placeBid, AuctionsService.placeBid_read.
    change (select_auctions (update_listings db id (set_listing_status st))
              auctionId) with (select_auctions db auctionId).
    destruct (fl 0%nat); [reflexivity|].
    destruct (single (select_auctions db auctionId)) as [a|]; [|reflexivity].
    rewrite Hsel.
    assert (Hv : AuctionsService.placeBid_validate now
                   (a, hd_error (map g (select_listings db (a_listing_id a))))
                   bidderId bidAmount
                 = AuctionsService.placeBid_validate now
                     (a, hd_error (select_listings db (a_listing_id a)))
                     bidderId bidAmount).
    { destruct (select_listings db (a_listing_id a)) as [|l r]; [reflexivity|].
      cbn [map hd_error]. unfold AuctionsService.placeBid_validate, g.
      now destruct (String.eqb (l_id l) id). }
    rewrite Hv.
    unfold AuctionsService.placeBid_insert, AuctionsService.placeBid_update.
    case_split; reflexivity.
Qed.

(** ** Further instances *)

(** Auction ["A1"], whose end is instant 1000, seen at instant 500. *)
Lemma enrichAuctionData_fields_witness :
  e_ending_soon (AuctionsReads.enrichAuctionData 500 example_auction) = true.
Proof.
  destruct (enrichAuctionData_fields 500 example_auction) as [_ [H _]].
  apply H. reflexivity.
Defined.

(** The identifiers after the schedule in which two calls of [placeBid]
    race on auction ["A1"]. *)
Lemma auction_ids_distinct_witness :
  NoDup (map a_id (auctions (sys_db (run example_race init)))).
Proof. exact (proj1 (auction_ids_distinct example_race)). Defined.

(** Listing ["L1"] marked 'sold': a bid of 105 on auction ["A1"] is
    answered as before. *)
Lemma placeBid_ignores_listing_status_witness :
  snd (AuctionsService.placeBid no_faults 1 "b1"
         (update_listings example_db "L1" (set_listing_status "sold")) "A1" "u1"
         105 "USD")
  = Ok (mkBid "b1" "A1" "u1" 105 "USD" 1 false).
Proof.
  destruct (placeBid_ignores_listing_status no_faults 1 example_db "L1" "sold")
    as [_ H].
  rewrite H. reflexivity.
Defined.
